(** * Weather MCP server: cache, dispatch and presentation layer

    A shallow embedding of the JavaScript sources of the weather server:

    - [CacheUtils]    the time-bounded cache (utils/cacheUtils.js);
    - [WeatherUtils]  upstream lookups and the text formatters
                      (utils/weatherUtils.js, utils/apiUtils.js);
    - [McpWrapper]    the registration wrapper (helpers/mcpWrapper.js);
    - [WeatherTools]  the three tool handlers and their schemas
                      (tools/weatherTools.js);
    - [Index]         the single-file server (src/index.js), which inlines
                      the same logic with its own try/catch per tool.

    Conventions of the model.

    - A finite JavaScript number is given by its exact rational value
      ([Q]); the results of [*], [/] and [+] are rounded to the nearest
      double, ties to even, and may be an infinity or NaN ([Double]).
      Comparisons, [Math.round] and [%] are exact, as they are on doubles.
      The rounding is proved to give the nearest finite double
      ([DoubleFacts]) and is tested against the floating-point unit
      ([Machine]). [Date.now()] is an integer number of milliseconds ([Z]).
    - [undefined] is modelled by [None]; a thrown [Error] by its message.
    - A cache namespace (a JS object used as a dictionary) is a
      [gmap string CacheEntry]: a key the object inherits from its
      prototype reads as a value without a numeric [timestamp], which
      [getCacheEntry] answers with null, as for an absent key.
    - Calls that leave the process (the two HTTP endpoints) are answered by
      an [Upstream] environment and recorded, in order, in the world; a
      JSON body that arrives has the fields the services document.
    - The MCP SDK and zod are dependencies of the repository: a tool call
      parses its arguments against the registered schema and runs the
      callback only when they parse ([Sdk]).
    - Facilities of the JavaScript host that the repository only calls
      (locale date rendering, printing of fractional numbers) are fields of
      a [Host] record. *)

From Stdlib Require Import ZArith QArith Qround Qabs Qpower Lia Lqa Ascii String.
From Stdlib Require Import Uint63 PrimFloat FloatOps SpecFloat.
From stdpp Require Import base decidable option list strings pretty gmap.

Open Scope Z_scope.

(** ** JavaScript numbers *)

Module Js.

(** [Math.round]: the nearest integer, ties towards +infinity. *)
Definition round (x : Q) : Z := Qfloor (x + (1 # 2))%Q.

(** [a % b] on integers: the remainder has the sign of the dividend. *)
Definition rem (a b : Z) : Z := Z.rem a b.

(** [a > b] and [a >= b] on numbers. *)
Definition gt (a b : Q) : bool := negb (Qle_bool a b).
Definition ge (a b : Q) : bool := Qle_bool b a.

(** [arr[i]] for an integer-valued index: [undefined] outside the array. *)
Definition index {A} (arr : list A) (i : Z) : option A :=
  if decide (i < 0) then None else arr !! Z.to_nat i.

(** The integer a number denotes, when it denotes one. *)
Definition as_integer (x : Q) : option Z :=
  let r := Qred x in
  if decide (Qden r = 1%positive) then Some (Qnum r) else None.

End Js.

(** ** IEEE 754 binary64 arithmetic *)

Module Double.

(** A Number: a finite double by its exact value, the two infinities and
    NaN.  The two zeros are not told apart: the sources never divide by a
    zero, the only operation that could. *)
Inductive number :=
| Num (q : Q)
| PosInf
| NegInf
| NaN.

Definition pow2 (e : Z) : Q := (2 ^ e)%Q.

(** The finite doubles: 53 significant bits, exponents from -1074 (the
    subnormals) to 971. *)
Definition finite (q : Q) : Prop :=
  exists m e : Z, Z.abs m < 2 ^ 53 /\ -1074 <= e <= 971 /\
    (q == inject_Z m * pow2 e)%Q.

(** floor(log2 x), for x > 0. *)
Definition ilog2 (x : Q) : Z :=
  let k := Z.log2 (Qnum x) - Z.log2 (Zpos (Qden x)) in
  if Qle_bool (pow2 k) x then k else k - 1.

(** The exponent of the last place of the doubles around x > 0. *)
Definition ulp_exponent (x : Q) : Z := Z.max (ilog2 x - 52) (-1074).

(** The nearest integer, the even one on a tie. *)
Definition round_half_even (x : Q) : Z :=
  let f := Qfloor x in
  match (x - inject_Z f ?= 1 # 2)%Q with
  | Lt => f
  | Gt => f + 1
  | Eq => if Z.even f then f else f + 1
  end.

(** Rounding to nearest, ties to even, before the range is checked. *)
Definition nearest_pos (x : Q) : Q :=
  let e := ulp_exponent x in
  (inject_Z (round_half_even (x / pow2 e)) * pow2 e)%Q.

Definition nearest (x : Q) : Q :=
  let x := Qred x in
  match (x ?= 0)%Q with
  | Eq => 0%Q
  | Gt => nearest_pos x
  | Lt => (- nearest_pos (Qred (- x)))%Q
  end.

(** The double that an exact result rounds to: what is nearest to 2^1024
    or beyond overflows. *)
Definition fl (x : Q) : number :=
  let v := Qred (nearest x) in
  if Qle_bool (pow2 1024) v then PosInf
  else if Qle_bool v (- pow2 1024) then NegInf
  else Num v.

(** A decimal literal of the source text. *)
Definition literal (x : Q) : number := fl x.

(** A value that may be [undefined], converted by an arithmetic operator. *)
Definition of_option (x : option Q) : number :=
  match x with Some q => Num q | None => NaN end.

Definition is_zero (q : Q) : bool := Qeq_bool q 0.
Definition is_neg (q : Q) : bool := negb (Qle_bool 0 q).

(** [a * b] *)
Definition mul (a b : number) : number :=
  match a, b with
  | NaN, _ | _, NaN => NaN
  | Num x, Num y => fl (x * y)
  | Num x, PosInf | PosInf, Num x =>
      if is_zero x then NaN else if is_neg x then NegInf else PosInf
  | Num x, NegInf | NegInf, Num x =>
      if is_zero x then NaN else if is_neg x then PosInf else NegInf
  | PosInf, PosInf | NegInf, NegInf => PosInf
  | PosInf, NegInf | NegInf, PosInf => NegInf
  end.

(** [a / b] *)
Definition div (a b : number) : number :=
  match a, b with
  | NaN, _ | _, NaN => NaN
  | Num x, Num y =>
      if is_zero y
      then if is_zero x then NaN else if is_neg x then NegInf else PosInf
      else fl (x / y)
  | Num _, (PosInf | NegInf) => Num 0
  | PosInf, Num y => if is_neg y then NegInf else PosInf
  | NegInf, Num y => if is_neg y then PosInf else NegInf
  | (PosInf | NegInf), (PosInf | NegInf) => NaN
  end.

(** [a + b] *)
Definition add (a b : number) : number :=
  match a, b with
  | NaN, _ | _, NaN => NaN
  | Num x, Num y => fl (x + y)
  | PosInf, NegInf | NegInf, PosInf => NaN
  | PosInf, _ | _, PosInf => PosInf
  | NegInf, _ | _, NegInf => NegInf
  end.

(** [a > b] and [a >= b]: false when either side is NaN. *)
Definition gt (a b : number) : bool :=
  match a, b with
  | NaN, _ | _, NaN => false
  | Num x, Num y => Js.gt x y
  | PosInf, PosInf | NegInf, _ => false
  | PosInf, _ | Num _, NegInf => true
  | Num _, PosInf => false
  end.

Definition ge (a b : number) : bool :=
  match a, b with
  | NaN, _ | _, NaN => false
  | Num x, Num y => Js.ge x y
  | PosInf, _ | _, NegInf => true
  | _, PosInf | NegInf, _ => false
  end.

(** [Math.round(a)]: the infinities and NaN are kept. *)
Definition round (a : number) : number :=
  match a with
  | Num q => Num (inject_Z (Js.round q))
  | other => other
  end.

(** The integer part, towards zero. *)
Definition trunc (q : Q) : Z := if Qle_bool 0 q then Qfloor q else Qceiling q.

(** [a % b]: exact, with the sign of the dividend; NaN for an infinite
    dividend or a zero divisor. *)
Definition rem (a b : number) : number :=
  match a, b with
  | Num x, Num y =>
      if is_zero y then NaN else Num (Qred (x - y * inject_Z (trunc (x / y))))
  | Num x, (PosInf | NegInf) => Num x
  | _, _ => NaN
  end.

(** [arr[i]]: an element only at a whole index inside the array. *)
Definition index {A} (arr : list A) (i : number) : option A :=
  match i with
  | Num q => Js.as_integer q ≫= Js.index arr
  | _ => None
  end.

(** Whether a rational is the value of a finite double. *)
Definition is_double (q : Q) : bool :=
  match fl q with
  | Num v => Qeq_bool v q
  | _ => false
  end.

End Double.

(** ** The doubles of the machine

    The primitive floats of the proof assistant are IEEE 754 binary64
    numbers computed by the processor. They serve to test [Double] on
    concrete operands, the ones of the properties below and others taken
    across the range of exponents. *)

Module Machine.

(** The double m * 2^e, for |m| < 2^53. *)
Definition double (m e : Z) : float :=
  let magnitude := Z.ldexp (PrimFloat.of_uint63 (Uint63.of_Z (Z.abs m))) e in
  if decide (m < 0) then PrimFloat.opp magnitude else magnitude.

Definition value (f : float) : Double.number :=
  match Prim2SF f with
  | S754_zero _ => Double.Num 0
  | S754_infinity false => Double.PosInf
  | S754_infinity true => Double.NegInf
  | S754_nan => Double.NaN
  | S754_finite negative m e =>
      let magnitude := (inject_Z (Zpos m) * Double.pow2 e)%Q in
      Double.Num (if negative then - magnitude else magnitude)%Q
  end.

Definition same (a b : Double.number) : bool :=
  match a, b with
  | Double.Num x, Double.Num y => Qeq_bool x y
  | Double.PosInf, Double.PosInf
  | Double.NegInf, Double.NegInf
  | Double.NaN, Double.NaN => true
  | _, _ => false
  end.

(** Whether [Double] and the machine agree on the product, the quotient
    and the sum of a * 2^ea and b * 2^eb. *)
Definition agree (operands : Z * Z * Z * Z) : bool :=
  let '(a, ea, b, eb) := operands in
  let x := Double.Num (inject_Z a * Double.pow2 ea) in
  let y := Double.Num (inject_Z b * Double.pow2 eb) in
  same (Double.mul x y) (value (PrimFloat.mul (double a ea) (double b eb))) &&
  same (Double.div x y) (value (PrimFloat.div (double a ea) (double b eb))) &&
  same (Double.add x y) (value (PrimFloat.add (double a ea) (double b eb))).

Definition operands : list (Z * Z * Z * Z) :=
  [
   (3166593487994891, 0, 45, (-1)); (3166593487994531, 0, 45, (-1));
   (762939453125, 17, 45, (-1)); (8106479329266893, (-52), 3, (-1));
   (1, 0, 5854679515581645, (-52)); (10, 0, 5854679515581645, (-52));
   (20, 0, 5854679515581645, (-52)); (6333186975989759, (-49), 360, 0);
   (6333186975989759, (-49), 45, (-1)); (1, 0, 3, 0); (1, (-1074), 1, (-1));
   (3, (-1074), 1, (-1)); (9007199254740991, 971, 2, 0);
   (9007199254740991, 971, 9007199254740991, 971); (1, (-1074), 1, (-1074));
   ((-45), 0, 45, (-1)); ((-45), 0, 360, 0); (225, 0, 45, (-1)); (5, (-5), 2, (-500));
   (68981, (-1), 1, 100); ((-3), 0, 6, (-1022)); (27916, (-1022), 4145957362535426, 0);
   ((-4), (-1), (-635235), (-1022)); (579573, (-1), 2501890455548861, (-500));
   (862334, 971, 7197680276506837, 100); (6, 100, 6, (-500));
   ((-360987), 971, (-3846384422894717), 10);
   (340038406450622, (-1000), 1236398873916844, (-5)); (2, (-500), 526711, (-1060));
   (1109460979973229, 0, (-298580488755350), (-52)); (150385, (-1060), 271008, (-1));
   ((-8426228457783023), (-5), 766776, (-1000));
   (765514, (-1074), 1777614596065530, (-52)); ((-1660347564455298), 971, 252239, 10);
   (10440, 10, 2330528150678771, (-60)); (7, (-60), 3844926092813544, 100);
   (530339688373054, (-52), 269918, 10); ((-774731), (-1000), 732710, (-1));
   ((-1), (-1060), 6, (-500)); (6, (-500), (-1338783214482401), (-60));
   ((-2881344062679001), 100, (-6976558967964080), (-60));
   ((-4061244616985379), (-1000), (-2), 971); (1344438808590991, (-1074), 6, 100);
   (3150693283259011, (-1), (-3653050452997190), 971);
   (4896621311085142, (-1), 1516046637329051, (-1022));
   (6, 971, (-2767887009853319), (-60));
   (3036576773454499, (-1074), (-2924934134614332), 0);
   (7, (-60), 1537478193233427, 10); (1596819881791311, (-1060), 160526, (-52));
   (2968509716386279, 900, (-1664200924536191), (-500)); (3, (-60), 124854, (-1060));
   (258588120909658, 971, 393384, (-1074)); ((-218708), (-1060), 2, (-60));
   (461678945617893, (-5), 1, (-5)); (3701962397774714, 0, (-1019267), (-5));
   ((-1), 900, 100586, (-52)); ((-705577), (-1022), 2860994556465731, 10);
   ((-2218112221733797), (-1060), (-648997), 971); (321125, (-1022), 594123, 10);
   ((-5707019542251406), (-5), (-5), (-1022)); (6, (-1000), 592051, (-52));
   (3729429652454142, (-500), 3, 10); ((-7376417902962931), (-5), 5, 10);
   ((-4), 0, 3775865005268621, (-60)) ].

End Machine.

(** ** utils/cacheUtils.js *)

Module CacheUtils.

Record CacheEntry := { timestamp : Z; text : string }.

(** The two namespaces of [weatherCache]. *)
Inductive CacheType := current | forecast.

Record WeatherCache := {
  cache_current : gmap string CacheEntry;
  cache_forecast : gmap string CacheEntry
}.

(** [cacheTime: 30 * 60 * 1000] *)
Definition cacheTime : Z := 30 * 60 * 1000.

Definition empty : WeatherCache :=
  {| cache_current := ∅; cache_forecast := ∅ |}.

(** [weatherCache[type]] *)
Definition slot (c : WeatherCache) (type : CacheType) : gmap string CacheEntry :=
  match type with
  | current => cache_current c
  | forecast => cache_forecast c
  end.

(** [getCacheEntry(type, key)], with [now] the value of [Date.now()]:
    a read, the cache is not an output. *)
Definition getCacheEntry (now : Z) (c : WeatherCache) (type : CacheType)
    (key : string) : option CacheEntry :=
  match slot c type !! key with
  | None => None
  | Some e => if decide (now - timestamp e < cacheTime) then Some e else None
  end.

(** [setCacheEntry(type, key, text)], with [now] the value of [Date.now()]. *)
Definition setCacheEntry (now : Z) (c : WeatherCache) (type : CacheType)
    (key : string) (txt : string) : WeatherCache :=
  let e := {| timestamp := now; text := txt |} in
  match type with
  | current =>
      {| cache_current := <[key := e]> (cache_current c);
         cache_forecast := cache_forecast c |}
  | forecast =>
      {| cache_current := cache_current c;
         cache_forecast := <[key := e]> (cache_forecast c) |}
  end.

End CacheUtils.

(** ** The process: world state, upstream services, host facilities *)

Module Runtime.
Import CacheUtils.

(** A thrown [Error]: only its [message] is ever read. *)
Record JsError := MkError { message : string }.

Inductive outcome (A : Type) :=
| Return (a : A)
| Throw (e : JsError).
Arguments Return {A} a.
Arguments Throw {A} e.

(** The outbound requests, by endpoint and parameters (the query string
    is built from exactly these parameters). *)
Inductive Request :=
| GeoSearch (name : string)
| CurrentAt (latitude longitude : Q)
| DailyAt (latitude longitude : Q) (days : Q).

(** What [fetch(url)] followed by [response.json()] can give. *)
Inductive FetchResult (A : Type) :=
| NetworkFailure (reason : string)
| HttpStatus (status : Z) (statusText : string)
| JsonBody (data : A).
Arguments NetworkFailure {A} reason.
Arguments HttpStatus {A} status statusText.
Arguments JsonBody {A} data.

(** One entry of [data.results] of the geocoding service. *)
Record GeoHit := {
  hit_latitude : Q;
  hit_longitude : Q;
  hit_name : option string;
  hit_country : option string;
  hit_admin1 : option string
}.

(** [data.current] of the weather service. *)
Record CurrentWeather := {
  temperature_2m : Q;
  relative_humidity_2m : Q;
  apparent_temperature : Q;
  precipitation : Q;
  rain : Q;
  weather_code : Q;
  cloud_cover : Q;
  wind_speed_10m : Q;
  wind_direction_10m : Q;
  wind_gusts_10m : Q
}.

(** [data.daily] of the weather service: one array per field. *)
Record Daily := {
  time : list string;
  daily_weather_code : list Q;
  temperature_2m_max : list Q;
  temperature_2m_min : list Q;
  precipitation_sum : list Q;
  precipitation_hours : list Q;
  wind_speed_10m_max : list Q;
  wind_gusts_10m_max : list Q;
  wind_direction_10m_dominant : list Q
}.

(** The services, as seen at a given instant; [elapsed] is the time a
    request takes. *)
Record Upstream := {
  geocoding : Z -> string -> FetchResult (option (list GeoHit));
  current_weather : Z -> Q -> Q -> FetchResult CurrentWeather;
  daily_forecast : Z -> Q -> Q -> Q -> FetchResult Daily;
  elapsed : Z -> Request -> Z
}.

(** Host facilities the sources call but do not define. *)
Record Host := {
  numberToString : Q -> string;        (* String(x), see [numToString] *)
  toLowerCase : string -> string;      (* s.toLowerCase() *)
  toLocaleString : Z -> string;        (* new Date().toLocaleString() *)
  weekdayLong : string -> string;      (* toLocaleDateString(undefined, { weekday: 'long' }) *)
  toLocaleDateString : string -> string;
  typeErrorMessage : string -> string  (* message of reading a property of null/undefined *)
}.

Record World := {
  cache : WeatherCache;
  clock : Z;
  requests : list Request;
  stderr : list string
}.

Definition M (A : Type) : Type := World -> outcome A * World.

#[export] Instance M_ret : MRet M := fun A a w => (Return a, w).
#[export] Instance M_bind : MBind M := fun A B f m w =>
  match m w with
  | (Return a, w') => f a w'
  | (Throw e, w') => (Throw e, w')
  end.

Definition throw {A} (msg : string) : M A := fun w => (Throw (MkError msg), w).

(** [try { body } catch (error) { handler(error) }] *)
Definition try_catch {A} (body : M A) (handler : JsError -> M A) : M A := fun w =>
  match body w with
  | (Return a, w') => (Return a, w')
  | (Throw e, w') => handler e w'
  end.

(** [Date.now()] *)
Definition date_now : M Z := fun w => (Return (clock w), w).

Definition set_clock (t : Z) (w : World) : World :=
  {| cache := cache w; clock := t; requests := requests w; stderr := stderr w |}.

Definition set_cache (c : WeatherCache) (w : World) : World :=
  {| cache := c; clock := clock w; requests := requests w; stderr := stderr w |}.

(** [process.stderr.write(line)] *)
Definition stderr_write (line : string) : M unit := fun w =>
  (Return tt,
   {| cache := cache w; clock := clock w; requests := requests w;
      stderr := stderr w ++ [line] |}).

(** Sending a request: it is recorded and time passes. *)
Definition send (up : Upstream) (req : Request) : M unit := fun w =>
  (Return tt,
   {| cache := cache w; clock := clock w + elapsed up (clock w) req;
      requests := requests w ++ [req]; stderr := stderr w |}).

Definition nl : string := String "010"%char EmptyString.

(** [String(x)] for a number, as interpolated by a template literal: an
    integer below 2^53 in magnitude prints as its decimal numeral; the
    printing of any other number (the shortest digits that read back as
    the same double) is left to the host. *)
Definition numToString (h : Host) (x : Q) : string :=
  match Js.as_integer x with
  | Some z => if decide (Z.abs z < 2 ^ 53) then pretty z else numberToString h x
  | None => numberToString h x
  end.

(** [String(x)] for the result of an operation. *)
Definition numberText (h : Host) (x : Double.number) : string :=
  match x with
  | Double.Num q => numToString h q
  | Double.PosInf => "Infinity"
  | Double.NegInf => "-Infinity"
  | Double.NaN => "NaN"
  end.

(** Interpolation of a value that may be [undefined]. *)
Definition tplNum (h : Host) (x : option Q) : string :=
  match x with Some q => numToString h q | None => "undefined" end.

Definition tplStr (x : option string) : string :=
  match x with Some s => s | None => "undefined" end.

Fixpoint zeros (n : nat) : string :=
  match n with O => "" | S n' => String "0"%char (zeros n') end.

(** [x.toFixed(f)] for |x| < 10^21: the decimal numeral of the integer n
    nearest to |x| * 10^f (the larger one on a tie), with the point f
    digits from the right and a minus sign when x < 0. *)
Definition toFixed (x : Q) (f : nat) : string :=
  let s := if Js.gt 0 x then "-" else "" in
  let n := Js.round (Qabs x * inject_Z (10 ^ Z.of_nat f)) in
  let m := pretty n in
  if decide (f = 0%nat) then s +:+ m
  else
    let m' := if decide (String.length m <= f)%nat
              then zeros (f + 1 - String.length m) +:+ m else m in
    let k := String.length m' in
    s +:+ substring 0 (k - f) m' +:+ "." +:+ substring (k - f) f m'.

(** [getCacheEntry] and [setCacheEntry] as they run in the process. *)
Definition getCacheEntryM (type : CacheType) (key : string) : M (option CacheEntry) :=
  fun w => (Return (getCacheEntry (clock w) (cache w) type key), w).

Definition setCacheEntryM (type : CacheType) (key : string) (txt : string) : M unit :=
  fun w => (Return tt, set_cache (setCacheEntry (clock w) (cache w) type key txt) w).

End Runtime.

(** ** utils/apiUtils.js and utils/weatherUtils.js *)

Module WeatherUtils.
Import CacheUtils Runtime.

Record Location := {
  latitude : Q;
  longitude : Q;
  name : option string;
  country : option string;
  admin1 : option string
}.

(** [fetchJson(url)]: a failure is logged on stderr and thrown again. *)
Definition fetchJson {A} (up : Upstream) (req : Request)
    (respond : Z -> FetchResult A) : M A := fun w =>
  let failed (msg : string) : M A :=
    stderr_write ("Error fetching data: " +:+ msg +:+ nl);; throw msg in
  match respond (clock w) with
  | JsonBody data => (send up req;; mret data) w
  | HttpStatus status statusText =>
      (send up req;;
       failed ("API Error: " +:+ pretty status +:+ " " +:+ statusText)) w
  | NetworkFailure reason => (send up req;; failed reason) w
  end.

(** [getCoordinates(city)] *)
Definition getCoordinates (up : Upstream) (city : string) : M Location :=
  data ← fetchJson up (GeoSearch city) (fun t => geocoding up t city);
  match data with
  | None | Some [] => throw ("City not found: " +:+ city)
  | Some (location :: _) =>
      mret {| latitude := hit_latitude location;
              longitude := hit_longitude location;
              name := hit_name location;
              country := hit_country location;
              admin1 := hit_admin1 location |}
  end.

(** [getCurrentWeather(latitude, longitude)] *)
Definition getCurrentWeather (up : Upstream) (lat lon : Q) : M CurrentWeather :=
  fetchJson up (CurrentAt lat lon) (fun t => current_weather up t lat lon).

(** [getForecast(latitude, longitude, days = 7)] *)
Definition getForecast (up : Upstream) (lat lon : Q) (days : option Q) : M Daily :=
  let days := default 7%Q days in
  fetchJson up (DailyAt lat lon days) (fun t => daily_forecast up t lat lon days).

Definition weatherCodes : list (Z * string) :=
  [ (0, "Clear sky"); (1, "Mainly clear"); (2, "Partly cloudy"); (3, "Overcast");
    (45, "Fog"); (48, "Depositing rime fog");
    (51, "Light drizzle"); (53, "Moderate drizzle"); (55, "Dense drizzle");
    (56, "Light freezing drizzle"); (57, "Dense freezing drizzle");
    (61, "Slight rain"); (63, "Moderate rain"); (65, "Heavy rain");
    (66, "Light freezing rain"); (67, "Heavy freezing rain");
    (71, "Slight snow fall"); (73, "Moderate snow fall"); (75, "Heavy snow fall");
    (77, "Snow grains");
    (80, "Slight rain showers"); (81, "Moderate rain showers");
    (82, "Violent rain showers");
    (85, "Slight snow showers"); (86, "Heavy snow showers");
    (95, "Thunderstorm"); (96, "Thunderstorm with slight hail");
    (99, "Thunderstorm with heavy hail") ].

Fixpoint assoc (table : list (Z * string)) (k : Z) : option string :=
  match table with
  | [] => None
  | (k', v) :: rest => if decide (k' = k) then Some v else assoc rest k
  end.

(** [getWeatherDescription(code)] *)
Definition getWeatherDescription (h : Host) (code : option Q) : string :=
  let key : option Z := code ≫= Js.as_integer in
  match key ≫= assoc weatherCodes with
  | Some description => description
  | None => "Unknown (code: " +:+ tplNum h code +:+ ")"
  end.

Definition directions : list string :=
  ["N"; "NNE"; "NE"; "ENE"; "E"; "ESE"; "SE"; "SSE";
   "S"; "SSW"; "SW"; "WSW"; "W"; "WNW"; "NW"; "NNW"].

(** [Math.round(degrees / 22.5) % 16] *)
Definition windIndex (degrees : Double.number) : Double.number :=
  Double.rem (Double.round (Double.div degrees (Double.Num (45 # 2)))) (Double.Num 16).

(** [formatWindDirection(degrees)]; [None] is [undefined]. *)
Definition formatWindDirection (degrees : Double.number) : option string :=
  Double.index directions (windIndex degrees).

(** The conditional fragment closing the Wind line of the current report:
    [weather.wind_gusts_10m > weather.wind_speed_10m * 1.5 ? ... : ''] *)
Definition currentGustNote (h : Host) (weather : CurrentWeather) : string :=
  if Double.gt (Double.Num (wind_gusts_10m weather))
       (Double.mul (Double.Num (wind_speed_10m weather)) (Double.Num (3 # 2)))
  then " with gusts up to " +:+ numToString h (wind_gusts_10m weather) +:+ " km/h"
  else "".

Definition currentRainNote (h : Host) (weather : CurrentWeather) : string :=
  if Js.gt (rain weather) 0
  then " (Rain: " +:+ numToString h (rain weather) +:+ " mm)"
  else "".

(** The lines of the current report below its heading. *)
Definition currentBody (h : Host) (now : Z) (weather : CurrentWeather) : string :=
  let weatherDesc := getWeatherDescription h (Some (weather_code weather)) in
  let windDirection := formatWindDirection (Double.Num (wind_direction_10m weather)) in
  "**Conditions:** " +:+ weatherDesc +:+ nl +:+
  "**Temperature:** " +:+ numToString h (temperature_2m weather) +:+
    "°C (Feels like: " +:+ numToString h (apparent_temperature weather) +:+ "°C)" +:+ nl +:+
  "**Humidity:** " +:+ numToString h (relative_humidity_2m weather) +:+ "%" +:+ nl +:+
  "**Wind:** " +:+ numToString h (wind_speed_10m weather) +:+ " km/h " +:+
    tplStr windDirection +:+ currentGustNote h weather +:+ nl +:+
  "**Cloud Cover:** " +:+ numToString h (cloud_cover weather) +:+ "%" +:+ nl +:+
  "**Precipitation:** " +:+ numToString h (precipitation weather) +:+ " mm" +:+
    currentRainNote h weather +:+ nl +:+
  nl +:+
  "*Updated: " +:+ toLocaleString h now +:+ "*" +:+ nl.

(** The location label chosen by [location ? ... : ...]: any object is
    truthy, and the other branch reads [location.latitude] of a falsy
    value. *)
Definition locationLabel (h : Host) (location : option Location) : outcome string :=
  match location with
  | Some loc => Return (tplStr (name loc) +:+ ", " +:+ tplStr (country loc))
  | None => Throw (MkError (typeErrorMessage h "latitude"))
  end.

(** [formatCurrentWeather(weather, location)] *)
Definition formatCurrentWeather (h : Host) (weather : CurrentWeather)
    (location : option Location) : M string :=
  now ← date_now;
  match locationLabel h location with
  | Throw e => fun w => (Throw e, w)
  | Return label =>
      mret (nl +:+ "# Current Weather for " +:+ label +:+ nl +:+ nl +:+
            currentBody h now weather +:+ "  ")
  end.

(** The conditional sentence closing the Wind line of day [i]:
    [if (forecast.wind_gusts_10m_max[i] > forecast.wind_speed_10m_max[i] * 1.3)];
    a missing element is [undefined], NaN in the comparison. *)
Definition dailyGustNote (h : Host) (forecast : Daily) (i : nat) : string :=
  if Double.gt (Double.of_option (wind_gusts_10m_max forecast !! i))
       (Double.mul (Double.of_option (wind_speed_10m_max forecast !! i))
          (Double.literal (13 # 10)))
  then " with gusts up to " +:+ tplNum h (wind_gusts_10m_max forecast !! i) +:+ " km/h"
  else "".

(** One iteration of the loop of [formatForecast]: the text appended
    for day [i], whose date is [day]. *)
Definition dailySection (h : Host) (forecast : Daily) (i : nat) (day : string) : string :=
  let dayName := weekdayLong h day in
  let dateStr := toLocaleDateString h day in
  let weatherDesc := getWeatherDescription h (daily_weather_code forecast !! i) in
  let windDirection :=
    formatWindDirection (Double.of_option (wind_direction_10m_dominant forecast !! i)) in
  "## " +:+ dayName +:+ ", " +:+ dateStr +:+ nl +:+
  "**Conditions:** " +:+ weatherDesc +:+ nl +:+
  "**Temperature:** " +:+ tplNum h (temperature_2m_min forecast !! i) +:+ "°C to " +:+
    tplNum h (temperature_2m_max forecast !! i) +:+ "°C" +:+ nl +:+
  "**Precipitation:** " +:+ tplNum h (precipitation_sum forecast !! i) +:+ " mm over " +:+
    tplNum h (precipitation_hours forecast !! i) +:+ " hours" +:+ nl +:+
  "**Wind:** " +:+ tplNum h (wind_speed_10m_max forecast !! i) +:+ " km/h " +:+
    tplStr windDirection +:+
  dailyGustNote h forecast i +:+
  nl +:+ nl.

(** The loop [for (let i = 0; i < forecast.time.length; i++)], from
    index [i] on. *)
Fixpoint dailySections (h : Host) (forecast : Daily) (i : nat) (days : list string)
    (acc : string) : string :=
  match days with
  | [] => acc
  | day :: rest =>
      dailySections h forecast (S i) rest (acc +:+ dailySection h forecast i day)
  end.

(** [formatForecast(forecast, location, days)] *)
Definition formatForecast (h : Host) (forecast : Daily) (location : Location)
    (days : Q) : M string :=
  let formattedResponse :=
    "# " +:+ numToString h days +:+ "-Day Weather Forecast for " +:+
    tplStr (name location) +:+ ", " +:+ tplStr (country location) +:+ nl +:+ nl in
  let formattedResponse :=
    dailySections h forecast 0 (time forecast) formattedResponse in
  now ← date_now;
  mret (formattedResponse +:+ "*Updated: " +:+ toLocaleString h now +:+ "*").

End WeatherUtils.

(** ** helpers/mcpWrapper.js *)

Module McpWrapper.
Import Runtime.

Record ContentItem := { type : string; text : string }.
Record ToolResponse := { content : list ContentItem }.

(** What a handler hands back: a string, an object that already has a
    [content] property, or any other value (given by its
    [JSON.stringify(result, null, 2)]). *)
Inductive HandlerResult :=
| Text (s : string)
| Formatted (r : ToolResponse)
| Other (json : string).

Definition _formatToolResponse (result : HandlerResult) : ToolResponse :=
  match result with
  | Formatted r => r
  | Text s => {| content := [ {| type := "text"; text := s |} ] |}
  | Other json => {| content := [ {| type := "text"; text := json |} ] |}
  end.

Definition _formatToolError (error : JsError) : ToolResponse :=
  {| content := [ {| type := "text"; text := "Error: " +:+ message error |} ] |}.

(** The callback that [registerTool(name, schema, handler, options)]
    passes to [server.tool]. *)
Definition registerTool {P} (handler : P -> M HandlerResult) (params : P)
    : M ToolResponse :=
  try_catch
    (result ← handler params; mret (_formatToolResponse result))
    (fun error => mret (_formatToolError error)).

End McpWrapper.

(** ** The library side of [server.tool(name, schema, callback)]

    The parameter contract: zod's number schema with its inclusive bounds,
    and the call of a tool, which runs the callback only on arguments the
    schema accepts. *)

Module Sdk.
Import Runtime McpWrapper.

(** [z.number()] with its [.min], [.max] (both inclusive) and
    [.optional] refinements. *)
Record NumberSchema := {
  minimum : option Q;
  maximum : option Q;
  is_optional : bool
}.

Definition number : NumberSchema :=
  {| minimum := None; maximum := None; is_optional := false |}.
Definition min (bound : Q) (s : NumberSchema) : NumberSchema :=
  {| minimum := Some bound; maximum := maximum s; is_optional := is_optional s |}.
Definition max (bound : Q) (s : NumberSchema) : NumberSchema :=
  {| minimum := minimum s; maximum := Some bound; is_optional := is_optional s |}.
Definition optional (s : NumberSchema) : NumberSchema :=
  {| minimum := minimum s; maximum := maximum s; is_optional := true |}.

Definition accepts (s : NumberSchema) (v : option Q) : bool :=
  match v with
  | None => is_optional s
  | Some x =>
      match minimum s with Some lo => Js.ge x lo | None => true end &&
      match maximum s with Some hi => Js.ge hi x | None => true end
  end.

Inductive CallResult :=
| InvalidParams                 (* the arguments do not parse: the callback is not run *)
| Result (r : ToolResponse)
| Fault (e : JsError).          (* the callback threw *)

(** A tool call: the arguments are parsed against the schema, then the
    callback runs. *)
Definition callTool {P} (schema : P -> bool) (callback : P -> M ToolResponse)
    (args : P) (w : World) : CallResult * World :=
  if schema args then
    match callback args w with
    | (Return r, w') => (Result r, w')
    | (Throw e, w') => (Fault e, w')
    end
  else (InvalidParams, w).

End Sdk.

(** ** tools/weatherTools.js *)

Module WeatherTools.
Import CacheUtils Runtime WeatherUtils McpWrapper.

Record GetWeatherParams := { gw_city : string }.
Record GetForecastParams := { gf_city : string; gf_days : option Q }.
Record ByCoordinatesParams := { bc_latitude : Q; bc_longitude : Q }.

(** The schemas of the three entries of [weatherTools]. *)
Definition get_weather_schema (p : GetWeatherParams) : bool := true.

Definition days_schema : Sdk.NumberSchema :=
  Sdk.optional (Sdk.max 14 (Sdk.min 1 Sdk.number)).

Definition get_forecast_schema (p : GetForecastParams) : bool :=
  Sdk.accepts days_schema (gf_days p).

Definition latitude_schema : Sdk.NumberSchema := Sdk.max 90 (Sdk.min (-90) Sdk.number).
Definition longitude_schema : Sdk.NumberSchema := Sdk.max 180 (Sdk.min (-180) Sdk.number).

Definition get_weather_by_coordinates_schema (p : ByCoordinatesParams) : bool :=
  Sdk.accepts latitude_schema (Some (bc_latitude p)) &&
  Sdk.accepts longitude_schema (Some (bc_longitude p)).

Section Handlers.
Context (h : Host) (up : Upstream).

(** [handleGetWeather({ city })] *)
Definition handleGetWeather (p : GetWeatherParams) : M HandlerResult :=
  let city := gw_city p in
  let cacheKey := toLowerCase h city in
  cacheEntry ← getCacheEntryM current cacheKey;
  match cacheEntry with
  | Some entry => mret (Text (CacheUtils.text entry))
  | None =>
      location ← getCoordinates up city;
      weather ← getCurrentWeather up (latitude location) (longitude location);
      formattedResponse ← formatCurrentWeather h weather (Some location);
      setCacheEntryM current cacheKey formattedResponse;;
      mret (Text formattedResponse)
  end.

(** The key [`${city.toLowerCase()}_${days}`] *)
Definition forecastKey (city : string) (days : Q) : string :=
  toLowerCase h city +:+ "_" +:+ numToString h days.

(** [handleGetForecast({ city, days = 7 })] *)
Definition handleGetForecast (p : GetForecastParams) : M HandlerResult :=
  let city := gf_city p in
  let days := default 7%Q (gf_days p) in
  let cacheKey := forecastKey city days in
  cacheEntry ← getCacheEntryM forecast cacheKey;
  match cacheEntry with
  | Some entry => mret (Text (CacheUtils.text entry))
  | None =>
      location ← getCoordinates up city;
      forecast ← getForecast up (latitude location) (longitude location) (Some days);
      formattedResponse ← formatForecast h forecast location days;
      setCacheEntryM CacheUtils.forecast cacheKey formattedResponse;;
      mret (Text formattedResponse)
  end.

(** [handleGetWeatherByCoordinates({ latitude, longitude })] *)
Definition handleGetWeatherByCoordinates (p : ByCoordinatesParams) : M HandlerResult :=
  weather ← getCurrentWeather up (bc_latitude p) (bc_longitude p);
  let locationInfo :=
    {| latitude := bc_latitude p; longitude := bc_longitude p;
       name := None; country := None; admin1 := None |} in
  formattedResponse ← formatCurrentWeather h weather (Some locationInfo);
  mret (Text formattedResponse).

(** The three tools as [registerWeatherTools] registers them. *)
Definition get_weather := Sdk.callTool get_weather_schema (registerTool handleGetWeather).
Definition get_forecast := Sdk.callTool get_forecast_schema (registerTool handleGetForecast).
Definition get_weather_by_coordinates :=
  Sdk.callTool get_weather_by_coordinates_schema
    (registerTool handleGetWeatherByCoordinates).

End Handlers.

End WeatherTools.

(** ** src/index.js, the single-file server

    Its [fetchJson], [getCoordinates], [getCurrentWeather], [getForecast],
    [getWeatherDescription] and [formatWindDirection] are, line for line,
    the functions of the same names in the utils modules; the cache is
    read and written in place, and every tool has its own try/catch. *)

Module Index.
Import CacheUtils Runtime McpWrapper.
Import WeatherUtils (Location, latitude, longitude, name, country, admin1).

Definition getCoordinates := WeatherUtils.getCoordinates.
Definition getCurrentWeather := WeatherUtils.getCurrentWeather.
Definition getForecast := WeatherUtils.getForecast.
Definition getWeatherDescription := WeatherUtils.getWeatherDescription.

(** [formatWindDirection(degrees)] *)
Definition formatWindDirection (degrees : Double.number) : option string :=
  let directions :=
    ["N"; "NNE"; "NE"; "ENE"; "E"; "ESE"; "SE"; "SSE";
     "S"; "SSW"; "SW"; "WSW"; "W"; "WNW"; "NW"; "NNW"] in
  let index :=
    Double.rem (Double.round (Double.div degrees (Double.Num (45 # 2)))) (Double.Num 16) in
  Double.index directions index.

Definition textResponse (s : string) : ToolResponse :=
  {| content := [ {| type := "text"; text := s |} ] |}.

(** [weatherCache.current] / [weatherCache.forecast] *)
Definition read_cache : M WeatherCache := fun w => (Return (cache w), w).

(** [weatherCache.current[cacheKey] = { timestamp: now, text }] and its
    forecast twin: the timestamp is the [now] read when the call began. *)
Definition write_cache (type : CacheType) (cacheKey : string) (now : Z)
    (txt : string) : M unit :=
  fun w => (Return tt, set_cache (setCacheEntry now (cache w) type cacheKey txt) w).

Section Tools.
Context (h : Host) (up : Upstream).

(** The template shared by the two current-conditions tools, below the
    heading line. *)
Definition currentReport (label : string) (now : Z) (weather : CurrentWeather)
    : string :=
  let weatherDesc := getWeatherDescription h (Some (weather_code weather)) in
  let windDirection := formatWindDirection (Double.Num (wind_direction_10m weather)) in
  nl +:+ "# Current Weather for " +:+ label +:+ nl +:+ nl +:+
  "**Conditions:** " +:+ weatherDesc +:+ nl +:+
  "**Temperature:** " +:+ numToString h (temperature_2m weather) +:+
    "°C (Feels like: " +:+ numToString h (apparent_temperature weather) +:+ "°C)" +:+ nl +:+
  "**Humidity:** " +:+ numToString h (relative_humidity_2m weather) +:+ "%" +:+ nl +:+
  "**Wind:** " +:+ numToString h (wind_speed_10m weather) +:+ " km/h " +:+
    tplStr windDirection +:+
    (if Double.gt (Double.Num (wind_gusts_10m weather))
          (Double.mul (Double.Num (wind_speed_10m weather)) (Double.Num (3 # 2)))
     then " with gusts up to " +:+ numToString h (wind_gusts_10m weather) +:+ " km/h"
     else "") +:+ nl +:+
  "**Cloud Cover:** " +:+ numToString h (cloud_cover weather) +:+ "%" +:+ nl +:+
  "**Precipitation:** " +:+ numToString h (precipitation weather) +:+ " mm" +:+
    (if Js.gt (rain weather) 0
     then " (Rain: " +:+ numToString h (rain weather) +:+ " mm)"
     else "") +:+ nl +:+
  nl +:+
  "*Updated: " +:+ toLocaleString h now +:+ "*" +:+ nl +:+
  "      ".

(** The [try] block of the [get_weather] tool. *)
Definition get_weather_try (city : string) : M ToolResponse :=
  let cacheKey := toLowerCase h city in
  now ← date_now;
  weatherCache ← read_cache;
  let miss : M ToolResponse :=
    location ← getCoordinates up city;
    weather ← getCurrentWeather up (latitude location) (longitude location);
    rendered ← date_now;
    let formattedResponse :=
      currentReport (tplStr (name location) +:+ ", " +:+ tplStr (country location))
        rendered weather in
    write_cache current cacheKey now formattedResponse;;
    mret (textResponse formattedResponse) in
  match cache_current weatherCache !! cacheKey with
  | Some entry =>
      if decide (now - timestamp entry < cacheTime)
      then mret (textResponse (CacheUtils.text entry))
      else miss
  | None => miss
  end.

(** The [get_weather] tool callback. *)
Definition get_weather_callback (city : string) : M ToolResponse :=
  try_catch (get_weather_try city)
    (fun error => mret (textResponse ("Error retrieving weather: " +:+ message error))).

(** The per-day text appended by the loop of the [get_forecast] tool. *)
Definition dailySection (forecast : Daily) (i : nat) (day : string) : string :=
  let dayName := weekdayLong h day in
  let dateStr := toLocaleDateString h day in
  let weatherDesc := getWeatherDescription h (daily_weather_code forecast !! i) in
  let windDirection :=
    formatWindDirection (Double.of_option (wind_direction_10m_dominant forecast !! i)) in
  "## " +:+ dayName +:+ ", " +:+ dateStr +:+ nl +:+
  "**Conditions:** " +:+ weatherDesc +:+ nl +:+
  "**Temperature:** " +:+ tplNum h (temperature_2m_min forecast !! i) +:+ "°C to " +:+
    tplNum h (temperature_2m_max forecast !! i) +:+ "°C" +:+ nl +:+
  "**Precipitation:** " +:+ tplNum h (precipitation_sum forecast !! i) +:+ " mm over " +:+
    tplNum h (precipitation_hours forecast !! i) +:+ " hours" +:+ nl +:+
  "**Wind:** " +:+ tplNum h (wind_speed_10m_max forecast !! i) +:+ " km/h " +:+
    tplStr windDirection +:+
  (if Double.gt (Double.of_option (wind_gusts_10m_max forecast !! i))
        (Double.mul (Double.of_option (wind_speed_10m_max forecast !! i))
           (Double.literal (13 # 10)))
   then " with gusts up to " +:+ tplNum h (wind_gusts_10m_max forecast !! i) +:+ " km/h"
   else "") +:+
  nl +:+ nl.

Fixpoint dailySections (forecast : Daily) (i : nat) (days : list string)
    (acc : string) : string :=
  match days with
  | [] => acc
  | day :: rest => dailySections forecast (S i) rest (acc +:+ dailySection forecast i day)
  end.

(** The [try] block of the [get_forecast] tool. *)
Definition get_forecast_try (city : string) (days : option Q) : M ToolResponse :=
  let days := default 7%Q days in
  let cacheKey := toLowerCase h city +:+ "_" +:+ numToString h days in
  now ← date_now;
  weatherCache ← read_cache;
  let miss : M ToolResponse :=
    location ← getCoordinates up city;
    forecast ← getForecast up (latitude location) (longitude location) (Some days);
    let formattedResponse :=
      "# " +:+ numToString h days +:+ "-Day Weather Forecast for " +:+
      tplStr (name location) +:+ ", " +:+ tplStr (country location) +:+ nl +:+ nl in
    let formattedResponse :=
      dailySections forecast 0 (time forecast) formattedResponse in
    rendered ← date_now;
    let formattedResponse :=
      formattedResponse +:+ "*Updated: " +:+ toLocaleString h rendered +:+ "*" in
    write_cache CacheUtils.forecast cacheKey now formattedResponse;;
    mret (textResponse formattedResponse) in
  match cache_forecast weatherCache !! cacheKey with
  | Some entry =>
      if decide (now - timestamp entry < cacheTime)
      then mret (textResponse (CacheUtils.text entry))
      else miss
  | None => miss
  end.

Definition get_forecast_callback (p : WeatherTools.GetForecastParams) : M ToolResponse :=
  try_catch (get_forecast_try (WeatherTools.gf_city p) (WeatherTools.gf_days p))
    (fun error => mret (textResponse ("Error retrieving forecast: " +:+ message error))).

(** The [try] block of the [get_weather_by_coordinates] tool. *)
Definition get_weather_by_coordinates_try (lat lon : Q) : M ToolResponse :=
  weather ← getCurrentWeather up lat lon;
  rendered ← date_now;
  let formattedResponse :=
    currentReport ("Coordinates (" +:+ toFixed lat 4 +:+ ", " +:+ toFixed lon 4 +:+ ")")
      rendered weather in
  mret (textResponse formattedResponse).

Definition get_weather_by_coordinates_callback (p : WeatherTools.ByCoordinatesParams)
    : M ToolResponse :=
  try_catch
    (get_weather_by_coordinates_try (WeatherTools.bc_latitude p) (WeatherTools.bc_longitude p))
    (fun error => mret (textResponse ("Error retrieving weather: " +:+ message error))).

(** The tools as registered with [server.tool]; the schemas are the
    same expressions as in tools/weatherTools.js. *)
Definition get_weather :=
  Sdk.callTool WeatherTools.get_weather_schema
    (fun p => get_weather_callback (WeatherTools.gw_city p)).
Definition get_forecast :=
  Sdk.callTool WeatherTools.get_forecast_schema get_forecast_callback.
Definition get_weather_by_coordinates :=
  Sdk.callTool WeatherTools.get_weather_by_coordinates_schema
    get_weather_by_coordinates_callback.

End Tools.

End Index.

(** ** helpers/toolHelper.js *)

Module ToolHelper.
Import Runtime McpWrapper.

(** [createTextResponse(text)] *)
Definition createTextResponse (txt : string) : ToolResponse :=
  {| content := [ {| type := "text"; text := txt |} ] |}.

(** The callback that [createTool(server, name, schema, handler, options)]
    passes to [server.tool]: the value of the handler as it is, or the
    error response. *)
Definition createTool {P} (handler : P -> M HandlerResult) (params : P)
    : M HandlerResult :=
  try_catch (handler params)
    (fun error =>
       mret (Formatted
         {| content := [ {| type := "text"; text := "Error: " +:+ message error |} ] |})).

End ToolHelper.

(** ** helpers/resourceHelper.js and the resource side of helpers/mcpWrapper.js *)

Module Resources.
Import Runtime.

(** The [URL] a resource is read under: only [href] is ever read. *)
Record Url := { href : string }.

Record ResourceContent := { uri : string; text : string }.
Record ResourceResponse := { contents : list ResourceContent }.

(** What a resource handler hands back: a string, an object that already
    has a [contents] property, or any other value (given by its
    [JSON.stringify(result, null, 2)]). *)
Inductive ResourceResult :=
| ResText (s : string)
| ResFormatted (r : ResourceResponse)
| ResOther (json : string).

(** [createResourceResponse(uri, text)] *)
Definition createResourceResponse (u : Url) (txt : string) : ResourceResponse :=
  {| contents := [ {| uri := href u; text := txt |} ] |}.

(** The callback that [createResource(server, name, template, handler)]
    passes to [server.resource]. *)
Definition createResource {P} (handler : Url -> P -> M ResourceResult) (u : Url)
    (params : P) : M ResourceResult :=
  try_catch (handler u params)
    (fun error =>
       mret (ResFormatted
         {| contents := [ {| uri := href u; text := "Error: " +:+ message error |} ] |})).

Definition _formatResourceResponse (u : Url) (result : ResourceResult)
    : ResourceResponse :=
  match result with
  | ResFormatted r => r
  | ResText s => {| contents := [ {| uri := href u; text := s |} ] |}
  | ResOther json => {| contents := [ {| uri := href u; text := json |} ] |}
  end.

Definition _formatResourceError (u : Url) (error : JsError) : ResourceResponse :=
  {| contents := [ {| uri := href u; text := "Error: " +:+ message error |} ] |}.

(** The callback that [registerResource(name, template, handler)] passes
    to [server.resource]. *)
Definition registerResource {P} (handler : Url -> P -> M ResourceResult) (u : Url)
    (params : P) : M ResourceResponse :=
  try_catch
    (result ← handler u params; mret (_formatResourceResponse u result))
    (fun error => mret (_formatResourceError u error)).

End Resources.

(** ** resources/weatherResource.js *)

Module WeatherResource.
Import CacheUtils Runtime WeatherUtils Resources.

Record CurrentWeatherParams := { cw_city : string }.

Section Handler.
Context (h : Host) (up : Upstream).

(** [handleCurrentWeather(uri, { city })] *)
Definition handleCurrentWeather (u : Url) (p : CurrentWeatherParams) : M ResourceResult :=
  let city := cw_city p in
  let cacheKey := toLowerCase h city in
  cacheEntry ← getCacheEntryM current cacheKey;
  match cacheEntry with
  | Some entry => mret (ResText (CacheUtils.text entry))
  | None =>
      location ← getCoordinates up city;
      weather ← getCurrentWeather up (latitude location) (longitude location);
      formattedResponse ← formatCurrentWeather h weather (Some location);
      setCacheEntryM current cacheKey formattedResponse;;
      mret (ResText formattedResponse)
  end.

(** The [currentweather] resource as [registerWeatherResources] registers it. *)
Definition currentweather : Url -> CurrentWeatherParams -> M ResourceResponse :=
  registerResource handleCurrentWeather.

End Handler.

End WeatherResource.

(** ** The [currentweather] resource of src/index.js *)

Module IndexResource.
Import CacheUtils Runtime Resources.
Import WeatherUtils (Location, latitude, longitude, name, country, admin1).

Section Resource.
Context (h : Host) (up : Upstream).

(** The [try] block of the resource callback. *)
Definition currentweather_try (u : Url) (city : string) : M ResourceResponse :=
  let cacheKey := toLowerCase h city in
  now ← date_now;
  weatherCache ← Index.read_cache;
  let miss : M ResourceResponse :=
    location ← Index.getCoordinates up city;
    weather ← Index.getCurrentWeather up (latitude location) (longitude location);
    rendered ← date_now;
    let formattedResponse :=
      Index.currentReport h
        (tplStr (name location) +:+ ", " +:+ tplStr (country location))
        rendered weather in
    Index.write_cache current cacheKey now formattedResponse;;
    mret {| contents := [ {| uri := href u; text := formattedResponse |} ] |} in
  match cache_current weatherCache !! cacheKey with
  | Some entry =>
      if decide (now - timestamp entry < cacheTime)
      then mret {| contents := [ {| uri := href u; text := CacheUtils.text entry |} ] |}
      else miss
  | None => miss
  end.

(** The resource callback. *)
Definition currentweather (u : Url) (city : string) : M ResourceResponse :=
  try_catch (currentweather_try u city)
    (fun error =>
       mret {| contents :=
                 [ {| uri := href u;
                      text := "Error retrieving weather: " +:+ message error |} ] |}).

End Resource.

End IndexResource.

(** ** The example server (tools [add] and [hello]) *)

Module ExampleServer.
Import Runtime McpWrapper.

(** The callback of the [add] tool. *)
Definition add (h : Host) (a b : Q) : ToolResponse :=
  let sum := Double.add (Double.Num a) (Double.Num b) in
  {| content :=
       [ {| type := "text";
            text := "The sum of " +:+ numToString h a +:+ " and " +:+
                    numToString h b +:+ " is " +:+ numberText h sum |} ] |}.

(** The callback of the [hello] tool; [name] is optional, and an empty
    string is falsy. *)
Definition hello (name : option string) : ToolResponse :=
  let greeting :=
    match name with
    | Some (String a rest) => "Hello, " +:+ String a rest +:+ "!"
    | Some EmptyString | None => "Hello, world!"
    end in
  {| content := [ {| type := "text"; text := greeting |} ] |}.

End ExampleServer.

(** ** Text predicates and a sample environment *)

Module Text.

(** [s.startsWith(p)] and [s.includes(needle)] *)
Definition starts_with (p s : string) : Prop := exists rest, s = p +:+ rest.

Definition includes (needle s : string) : Prop :=
  exists before after, s = before +:+ needle +:+ after.

(** The position of the first occurrence of [needle], if any. *)
Definition indexOf (needle s : string) : option nat := String.index 0 needle s.

End Text.

Module Samples.
Import CacheUtils Runtime.

(** Lower-casing of the letters A to Z. *)
Definition lowerChar (a : ascii) : ascii :=
  let n := nat_of_ascii a in
  if decide (65 <= n <= 90)%nat then ascii_of_nat (n + 32) else a.

Fixpoint asciiLowerCase (s : string) : string :=
  match s with
  | EmptyString => EmptyString
  | String a s' => String (lowerChar a) (asciiLowerCase s')
  end.

Definition host : Host :=
  {| numberToString := fun x => toFixed x 1;
     toLowerCase := asciiLowerCase;
     toLocaleString := fun t => "t+" +:+ pretty t;
     weekdayLong := fun day => "Monday";
     toLocaleDateString := fun day => day;
     typeErrorMessage := fun property =>
       "Cannot read properties of undefined (reading '" +:+ property +:+ "')" |}.

Definition london : GeoHit :=
  {| hit_latitude := 515 # 10; hit_longitude := -(12 # 100);
     hit_name := Some "London"; hit_country := Some "United Kingdom";
     hit_admin1 := Some "England" |}.

(** Sustained wind 10 km/h from the south-west, gusts as given. *)
Definition weather (gusts : Q) : CurrentWeather :=
  {| temperature_2m := 183 # 10; relative_humidity_2m := 62;
     apparent_temperature := 17; precipitation := 0; rain := 0;
     weather_code := 2; cloud_cover := 40;
     wind_speed_10m := 10; wind_direction_10m := 225; wind_gusts_10m := gusts |}.

Definition two_days (gusts : Q) : Daily :=
  {| time := ["2025-05-05"; "2025-05-06"];
     daily_weather_code := [3; 61]%Q;
     temperature_2m_max := [19; 16]%Q; temperature_2m_min := [11; 9]%Q;
     precipitation_sum := [0; 42 # 10]%Q; precipitation_hours := [0; 5]%Q;
     wind_speed_10m_max := [10; 20]%Q;
     wind_gusts_10m_max := [gusts; 26]%Q;
     wind_direction_10m_dominant := [225; 270]%Q |}.

(** The geocoder knows London and nothing else; a request takes 120 ms. *)
Definition upstream : Upstream :=
  {| geocoding := fun t city =>
       if decide (city = "London") then JsonBody (Some [london]) else JsonBody None;
     current_weather := fun t lat lon => JsonBody (weather 16);
     daily_forecast := fun t lat lon days => JsonBody (two_days 14);
     elapsed := fun t req => 120 |}.

Definition w0 : World :=
  {| cache := CacheUtils.empty; clock := 1000; requests := []; stderr := [] |}.

(** A forecast without a single day. *)
Definition no_days : Daily :=
  {| time := []; daily_weather_code := [3%Q]; temperature_2m_max := [];
     temperature_2m_min := []; precipitation_sum := []; precipitation_hours := [];
     wind_speed_10m_max := []; wind_gusts_10m_max := [];
     wind_direction_10m_dominant := [] |}.

(** Services that are down; a request takes 30 ms to fail. *)
Definition unavailable : Upstream :=
  {| geocoding := fun t city => HttpStatus 503 "Service Unavailable";
     current_weather := fun t lat lon => NetworkFailure "fetch failed";
     daily_forecast := fun t lat lon days => NetworkFailure "fetch failed";
     elapsed := fun t req => 30 |}.

Definition london_coordinates : WeatherTools.ByCoordinatesParams :=
  {| WeatherTools.bc_latitude := 515 # 10; WeatherTools.bc_longitude := -(12 # 100) |}.

End Samples.

(** ** Vocabulary of the statements *)

Module Statements.
Import CacheUtils Runtime McpWrapper.

(** The geocoding service has no match for [city] at the instant of [w]. *)
Definition no_match (up : Upstream) (w : World) (city : string) : Prop :=
  geocoding up (clock w) city = JsonBody None \/
  geocoding up (clock w) city = JsonBody (Some []).

(** A tool call that completes with [r], sends exactly the requests
    [sent], leaves the cache as it was, and does the same whatever the
    cache holds. *)
Definition bypasses_cache {P} (tool : P -> World -> Sdk.CallResult * World)
    (args : P) (w : World) (sent : list Request) : Prop :=
  exists r w',
    tool args w = (Sdk.Result r, w') /\
    cache w' = cache w /\
    requests w' = requests w ++ sent /\
    forall c, tool args (set_cache c w) = (Sdk.Result r, set_cache c w').

(** Once the world [w1] holds an entry under [key] in the given
    namespace, [call] answers [answer] at any instant within the expiry
    window of that entry, and leaves the world (cache, requests sent,
    log) as it found it. *)
Definition served_from_cache {A} (call : M A) (type : CacheType) (key : string)
    (answer : A) (w1 : World) : Prop :=
  (exists e, slot (cache w1) type !! key = Some e) /\
  forall e later,
    slot (cache w1) type !! key = Some e ->
    later - timestamp e < cacheTime ->
    call (set_clock later w1) = (Return answer, set_clock later w1).

(** The single text item of a tool response. *)
Definition says (r : ToolResponse) (txt : string) : Prop :=
  content r = [ {| type := "text"; text := txt |} ].

End Statements.

(** ** Vocabulary of the further properties *)

Module Effects.
Import CacheUtils Runtime McpWrapper Resources.

(** The text a call answered with, if it did not throw. *)
Definition tool_answer (o : outcome HandlerResult) : option string :=
  match o with
  | Return (Text txt) => Some txt
  | _ => None
  end.

Definition resource_answer (o : outcome ResourceResult) : option string :=
  match o with
  | Return (ResText txt) => Some txt
  | _ => None
  end.

Definition response_answer (o : outcome ToolResponse) : option string :=
  match o with
  | Return {| content := [ item ] |} =>
      if decide (type item = "text") then Some (McpWrapper.text item) else None
  | _ => None
  end.

Definition contents_answer (u : Url) (o : outcome ResourceResponse) : option string :=
  match o with
  | Return {| contents := [ item ] |} =>
      if decide (uri item = href u) then Some (Resources.text item) else None
  | _ => None
  end.

(** The first match the geocoding service has for [city] at the instant
    of [w], when it answers with one. *)
Definition first_match (up : Upstream) (w : World) (city : string) : option GeoHit :=
  match geocoding up (clock w) city with
  | JsonBody (Some (hit :: _)) => Some hit
  | _ => None
  end.

(** The four ways a cached lookup for [city] can go, from the world [w]
    to the world [w']: the entry under [key] is valid and is the answer,
    nothing else happens; or there is none, and then either geocoding
    gives no match, or it gives one and the weather request for the
    coordinates of the first match fails, both leaving the cache alone
    and giving no answer, or both succeed and the answer is written
    under [key]. *)
Definition lookup_effect (up : Upstream) (type : CacheType) (key city : string)
    (wx : Q -> Q -> Request) (w w' : World) (answer : option string) : Prop :=
  (exists e,
     getCacheEntry (clock w) (cache w) type key = Some e /\
     answer = Some (CacheUtils.text e) /\ w' = w) \/
  (getCacheEntry (clock w) (cache w) type key = None /\
   ((first_match up w city = None /\
     answer = None /\ cache w' = cache w /\
     requests w' = requests w ++ [GeoSearch city]) \/
    (exists hit,
       first_match up w city = Some hit /\
       answer = None /\ cache w' = cache w /\
       requests w' = requests w ++
         [GeoSearch city; wx (hit_latitude hit) (hit_longitude hit)]) \/
    (exists hit txt stamp,
       first_match up w city = Some hit /\
       answer = Some txt /\
       cache w' = setCacheEntry stamp (cache w) type key txt /\
       requests w' = requests w ++
         [GeoSearch city; wx (hit_latitude hit) (hit_longitude hit)]))).

(** From [w] to [w'] nothing of the cache changed but, possibly, the entry
    under [key] of the namespace [type]. *)
Definition touches_only (type : CacheType) (key : string) (w w' : World) : Prop :=
  (forall type', type' <> type -> slot (cache w') type' = slot (cache w) type') /\
  (forall key', key' <> key -> slot (cache w') type !! key' = slot (cache w) type !! key').



(** The message of the error [fetchJson] throws for a response, if it
    throws. *)
Definition failure_message {A} (r : FetchResult A) : option string :=
  match r with
  | NetworkFailure reason => Some reason
  | HttpStatus status statusText =>
      Some ("API Error: " +:+ pretty status +:+ " " +:+ statusText)
  | JsonBody _ => None
  end.

(** Concatenation of a list of texts. *)
Fixpoint concat_all (parts : list string) : string :=
  match parts with
  | [] => ""
  | part :: rest => part +:+ concat_all rest
  end.

End Effects.

(** * Properties *)

(** ** Numbers *)

Module JsFacts.

Lemma gt_spec a b : Js.gt a b = true <-> (b < a)%Q.
Proof.
  unfold Js.gt. rewrite negb_true_iff, <- not_true_iff_false, Qle_bool_iff.
  split; [apply Qnot_le_lt | apply Qlt_not_le].
Qed.

Lemma gt_false a b : Js.gt a b = false <-> (a <= b)%Q.
Proof.
  unfold Js.gt. rewrite negb_false_iff. apply Qle_bool_iff.
Qed.

Lemma ge_spec a b : Js.ge a b = true <-> (b <= a)%Q.
Proof. unfold Js.ge. apply Qle_bool_iff. Qed.

(** Flooring commutes with adding an integer. *)
Lemma Qfloor_add_Z (x : Q) (n : Z) : Qfloor (x + inject_Z n) = Qfloor x + n.
Proof.
  destruct x as [p q]. unfold Qfloor, Qplus, inject_Z. simpl.
  rewrite Z.mul_1_r, Pos.mul_1_r. apply Z.div_add. lia.
Qed.

Lemma round_add_Z (x : Q) (n : Z) : Js.round (x + inject_Z n) = Js.round x + n.
Proof.
  unfold Js.round. rewrite <- Qfloor_add_Z. apply Qfloor_comp. ring.
Qed.

Lemma round_nonneg (x : Q) : (0 <= x)%Q -> 0 <= Js.round x.
Proof.
  intros Hx. unfold Js.round.
  change 0 with (Qfloor 0). apply Qfloor_resp_le.
  apply Qle_trans with x; [exact Hx|].
  rewrite <- (Qplus_0_r x) at 1. apply Qplus_le_r. discriminate.
Qed.

Lemma as_integer_inject_Z (z : Z) : Js.as_integer (inject_Z z) = Some z.
Proof.
  unfold Js.as_integer.
  assert (Hred : Qred (inject_Z z) = inject_Z z).
  { apply Qcanon.Qred_iff. simpl. apply Z.gcd_1_r. }
  by rewrite Hred.
Qed.

Lemma index_in_range {A} (arr : list A) (i : Z) :
  0 <= i < Z.of_nat (length arr) -> is_Some (Js.index arr i).
Proof.
  intros [Hlo Hhi]. unfold Js.index. rewrite decide_False by lia.
  apply lookup_lt_is_Some. lia.
Qed.

Lemma Qfloor_unique (x : Q) (q : Z) :
  (inject_Z q <= x)%Q -> (x < inject_Z (q + 1))%Q -> Qfloor x = q.
Proof.
  intros Hlo Hhi.
  assert (H1 : q <= Qfloor x).
  { rewrite <- (Qfloor_Z q). by apply Qfloor_resp_le. }
  assert (H2 : Qfloor x < q + 1).
  { rewrite Zlt_Qlt. eapply Qle_lt_trans; [apply Qfloor_le | exact Hhi]. }
  lia.
Qed.

Lemma as_integer_compat (x y : Q) : (x == y)%Q -> Js.as_integer x = Js.as_integer y.
Proof. intros Heq. unfold Js.as_integer. by rewrite (Qred_complete x y Heq). Qed.

End JsFacts.

(** ** Rounding to the nearest double *)

Module DoubleFacts.
Import Double.

Ltac qabs :=
  repeat match goal with
  | |- context [Qabs ?x] => pattern (Qabs x); apply Qabs_case; intros
  | H : context [Qabs ?x] |- _ => revert H; pattern (Qabs x); apply Qabs_case; intros
  end.

Lemma pow2_pos e : (0 < pow2 e)%Q.
Proof. by apply Qpower_0_lt. Qed.

Lemma pow2_add a b : (pow2 (a + b) == pow2 a * pow2 b)%Q.
Proof. by apply Qpower_plus. Qed.

Lemma pow2_le a b : a <= b -> (pow2 a <= pow2 b)%Q.
Proof. intros. by apply Qpower_le_compat_l. Qed.

Lemma pow2_lt a b : a < b -> (pow2 a < pow2 b)%Q.
Proof. intros. by apply Qpower_lt_compat_l. Qed.

Lemma pow2_Z e : 0 <= e -> (pow2 e == inject_Z (2 ^ e))%Q.
Proof. intros. symmetry. by apply (Zpower_Qpower 2). Qed.

Lemma pow2_sub a b : (pow2 (a - b) == pow2 a / pow2 b)%Q.
Proof.
  pose proof (pow2_pos b). pose proof (pow2_add (a - b) b) as Hadd.
  replace (a - b + b) with a in Hadd by lia.
  rewrite Hadd. field. lra.
Qed.

Lemma ilog2_spec x :
  (0 < x)%Q -> (pow2 (ilog2 x) <= x)%Q /\ (x < pow2 (ilog2 x + 1))%Q.
Proof.
  intros Hx. destruct x as [n d].
  assert (Hn : 0 < n) by (unfold Qlt in Hx; simpl in Hx; lia).
  unfold ilog2. cbn [Qnum Qden].
  destruct (Z.log2_spec n Hn) as [Ha1 Ha2].
  destruct (Z.log2_spec (Zpos d)) as [Hb1 Hb2]; [lia|].
  pose proof (Z.log2_nonneg n) as Ha0. pose proof (Z.log2_nonneg (Zpos d)) as Hb0.
  set (a := Z.log2 n) in *. set (b := Z.log2 (Zpos d)) in *.
  replace (Z.succ a) with (a + 1) in Ha2 by lia.
  replace (Z.succ b) with (b + 1) in Hb2 by lia.
  assert (Hpa : 0 < 2 ^ a) by (apply Z.pow_pos_nonneg; lia).
  assert (Hpb : 0 < 2 ^ b) by (apply Z.pow_pos_nonneg; lia).
  assert (Hlow : (pow2 (a - b - 1) < n # d)%Q).
  { replace (a - b - 1) with (a - (b + 1)) by lia.
    rewrite pow2_sub, !pow2_Z by lia.
    apply Qlt_shift_div_r.
    - change 0%Q with (inject_Z 0). rewrite <- Zlt_Qlt. lia.
    - unfold Qlt, Qmult, inject_Z. cbn [Qnum Qden].
      generalize dependent (2 ^ a). generalize dependent (2 ^ (b + 1)).
      intros; nia. }
  assert (Hup : (n # d < pow2 (a - b + 1))%Q).
  { replace (a - b + 1) with (a + 1 - b) by lia.
    rewrite pow2_sub, !pow2_Z by lia.
    apply Qlt_shift_div_l.
    - change 0%Q with (inject_Z 0). rewrite <- Zlt_Qlt. lia.
    - unfold Qlt, Qmult, inject_Z. cbn [Qnum Qden].
      generalize dependent (2 ^ (a + 1)). generalize dependent (2 ^ b).
      intros; nia. }
  destruct (Qle_bool (pow2 (a - b)) (n # d)) eqn:Hcmp.
  - apply Qle_bool_iff in Hcmp. by split.
  - split; [by apply Qlt_le_weak|].
    replace (a - b - 1 + 1) with (a - b) by lia.
    apply Qnot_le_lt. intros Hle. apply Qle_bool_iff in Hle. congruence.
Qed.

(** The nearest integer is at least as near as any other integer. *)
Lemma round_half_even_nearest (x : Q) (k : Z) :
  (Qabs (inject_Z (round_half_even x) - x) <= Qabs (inject_Z k - x))%Q.
Proof.
  pose proof (Qfloor_le x) as Hlo. pose proof (Qlt_floor x) as Hhi.
  rewrite inject_Z_plus in Hhi. change (inject_Z 1) with 1%Q in Hhi.
  assert (Hk : (inject_Z k <= inject_Z (Qfloor x))%Q \/
               (inject_Z (Qfloor x) + 1 <= inject_Z k)%Q).
  { destruct (decide (k <= Qfloor x)) as [Hle|Hgt].
    - left. by rewrite <- Zle_Qle.
    - right. change 1%Q with (inject_Z 1). rewrite <- inject_Z_plus, <- Zle_Qle. lia. }
  unfold round_half_even.
  destruct (Qcompare_spec (x - inject_Z (Qfloor x)) (1 # 2)) as [Heq|Hlt|Hgt].
  - destruct (Z.even (Qfloor x)).
    + qabs; destruct Hk; lra.
    + rewrite inject_Z_plus. change (inject_Z 1) with 1%Q. qabs; destruct Hk; lra.
  - qabs; destruct Hk; lra.
  - rewrite inject_Z_plus. change (inject_Z 1) with 1%Q. qabs; destruct Hk; lra.
Qed.

Lemma round_half_even_bounds (x : Q) :
  Qfloor x <= round_half_even x <= Qfloor x + 1.
Proof.
  unfold round_half_even.
  destruct (_ ?= _)%Q; [destruct (Z.even _)| |]; lia.
Qed.

Lemma scaled_distance (k : Z) (x p : Q) :
  (0 < p)%Q ->
  (Qabs (inject_Z k * p - x) == Qabs (inject_Z k - x / p) * p)%Q.
Proof.
  intros Hp.
  assert (Heq : (inject_Z k * p - x == (inject_Z k - x / p) * p)%Q) by (field; lra).
  rewrite Heq, Qabs_Qmult, (Qabs_pos p) by lra. reflexivity.
Qed.

(** On the grid of its own last place the rounding is nearest. *)
Lemma nearest_pos_on_grid (x : Q) (k : Z) :
  (Qabs (nearest_pos x - x) <= Qabs (inject_Z k * pow2 (ulp_exponent x) - x))%Q.
Proof.
  unfold nearest_pos. cbv zeta.
  pose proof (pow2_pos (ulp_exponent x)) as Hp.
  rewrite !scaled_distance by done.
  apply Qmult_le_compat_r; [|lra].
  apply round_half_even_nearest.
Qed.

Lemma grid_bound (m e : Z) :
  Z.abs m <= 2 ^ 53 -> (inject_Z m * pow2 e <= pow2 (e + 53))%Q.
Proof.
  intros Hm. rewrite pow2_add, (pow2_Z 53) by lia.
  rewrite (Qmult_comm (pow2 e)).
  apply Qmult_le_compat_r; [|apply Qlt_le_weak, pow2_pos].
  rewrite <- Zle_Qle. lia.
Qed.

(** The rounding of a positive number is at least as near to it as any
    number with 53 significant bits and an exponent from -1074 on. *)
Lemma nearest_pos_nearest (x : Q) (m e : Z) :
  (0 < x)%Q -> Z.abs m <= 2 ^ 53 -> -1074 <= e ->
  (Qabs (nearest_pos x - x) <= Qabs (inject_Z m * pow2 e - x))%Q.
Proof.
  intros Hx Hm He.
  destruct (decide (ulp_exponent x <= e)) as [Hle|Hgt].
  - assert (Heq : (inject_Z m * pow2 e ==
                   inject_Z (m * 2 ^ (e - ulp_exponent x)) * pow2 (ulp_exponent x))%Q).
    { rewrite inject_Z_mult, <- pow2_Z by lia.
      rewrite <- Qmult_assoc, <- pow2_add.
      by replace (e - ulp_exponent x + ulp_exponent x) with e by lia. }
    rewrite Heq. apply nearest_pos_on_grid.
  - assert (Hexp : ulp_exponent x = ilog2 x - 52) by (unfold ulp_exponent in *; lia).
    destruct (ilog2_spec x Hx) as [Hlow _].
    pose proof (nearest_pos_on_grid x (2 ^ 52)) as Hgrid.
    assert (Hbase : (inject_Z (2 ^ 52) * pow2 (ulp_exponent x) == pow2 (ilog2 x))%Q).
    { rewrite <- pow2_Z, <- pow2_add by lia. by replace (52 + ulp_exponent x) with (ilog2 x) by lia. }
    rewrite Hbase in Hgrid.
    pose proof (grid_bound m e Hm) as Hy.
    pose proof (pow2_le (e + 53) (ilog2 x) ltac:(lia)) as Hmono.
    revert Hgrid. generalize (nearest_pos x). intros v Hgrid.
    qabs; lra.
Qed.

Lemma finite_opp (y : Q) : finite y -> finite (- y).
Proof.
  intros (m & e & Hm & He & Hy). exists (- m), e. repeat split; [lia..|].
  rewrite Hy, inject_Z_opp. ring.
Qed.

Lemma finite_grid (y : Q) :
  finite y -> exists m e, Z.abs m <= 2 ^ 53 /\ -1074 <= e /\ (y == inject_Z m * pow2 e)%Q.
Proof. intros (m & e & Hm & He & Hy). exists m, e. repeat split; [lia..|done]. Qed.

(** Rounding to nearest: no finite double is nearer to x than the
    rounding of x. *)
Lemma nearest_is_nearest (x y : Q) :
  finite y -> (Qabs (nearest x - x) <= Qabs (y - x))%Q.
Proof.
  intros Hy. unfold nearest. cbv zeta.
  pose proof (Qred_correct x) as Hred.
  destruct (Qcompare_spec (Qred x) 0) as [Heq|Hlt|Hgt].
  - qabs; lra.
  - pose proof (Qred_correct (- Qred x)) as Hneg.
    destruct (finite_grid _ (finite_opp y Hy)) as (m & e & Hm & He & Hrep).
    pose proof (nearest_pos_nearest (Qred (- Qred x)) m e ltac:(lra) Hm He) as Hnear.
    rewrite <- Hrep in Hnear.
    revert Hnear. generalize (nearest_pos (Qred (- Qred x))). intros v Hnear.
    qabs; lra.
  - destruct (finite_grid _ Hy) as (m & e & Hm & He & Hrep).
    pose proof (nearest_pos_nearest (Qred x) m e ltac:(lra) Hm He) as Hnear.
    rewrite <- Hrep in Hnear.
    revert Hnear. generalize (nearest_pos (Qred x)). intros v Hnear.
    qabs; lra.
Qed.

(** A finite double rounds to itself. *)
Lemma nearest_exact (y : Q) : finite y -> (nearest y == y)%Q.
Proof.
  intros Hy. pose proof (nearest_is_nearest y y Hy) as Hnear.
  revert Hnear. generalize (nearest y). intros v Hnear. qabs; lra.
Qed.

(** Rounding is monotone across the finite doubles. *)
Lemma nearest_le (x b : Q) : finite b -> (x <= b)%Q -> (nearest x <= b)%Q.
Proof.
  intros Hb Hle. pose proof (nearest_is_nearest x b Hb) as Hnear.
  revert Hnear. generalize (nearest x). intros v Hnear. qabs; lra.
Qed.

Lemma nearest_ge (x a : Q) : finite a -> (a <= x)%Q -> (a <= nearest x)%Q.
Proof.
  intros Ha Hle. pose proof (nearest_is_nearest x a Ha) as Hnear.
  revert Hnear. generalize (nearest x). intros v Hnear. qabs; lra.
Qed.

Lemma finite_below_overflow (y : Q) : finite y -> (- pow2 1024 < y < pow2 1024)%Q.
Proof.
  intros (m & e & Hm & He & Hy).
  assert (Hpow : (pow2 1024 == inject_Z (2 ^ 53) * pow2 971)%Q).
  { rewrite <- pow2_Z, <- pow2_add by lia. reflexivity. }
  pose proof (pow2_pos e) as Hpe. pose proof (pow2_le e 971 ltac:(lia)) as Hmono.
  assert (Hhi : (inject_Z m * pow2 e < inject_Z (2 ^ 53) * pow2 971)%Q).
  { destruct (decide (m <= 0)) as [Hneg|Hpos].
    - assert (inject_Z m <= 0)%Q by (change 0%Q with (inject_Z 0); rewrite <- Zle_Qle; lia).
      assert (0 < inject_Z (2 ^ 53) * pow2 971)%Q by (pose proof (pow2_pos 971); by apply Qmult_lt_0_compat).
      assert (inject_Z m * pow2 e <= 0 * pow2 e)%Q by (apply Qmult_le_compat_r; lra).
      lra.
    - apply Qlt_le_trans with (inject_Z (2 ^ 53) * pow2 e)%Q.
      + apply Qmult_lt_compat_r; [done|]. rewrite <- Zlt_Qlt. lia.
      + rewrite !(Qmult_comm (inject_Z (2 ^ 53))).
        apply Qmult_le_compat_r; [done|]. change 0%Q with (inject_Z 0). by rewrite <- Zle_Qle. }
  assert (Hlo : (- (inject_Z (2 ^ 53) * pow2 971) < inject_Z m * pow2 e)%Q).
  { destruct (decide (0 <= m)) as [Hpos|Hneg].
    - assert (0 <= inject_Z m)%Q by (change 0%Q with (inject_Z 0); rewrite <- Zle_Qle; lia).
      assert (0 < inject_Z (2 ^ 53) * pow2 971)%Q by (pose proof (pow2_pos 971); by apply Qmult_lt_0_compat).
      assert (0 <= inject_Z m * pow2 e)%Q; [|lra].
      apply Qmult_le_0_compat; lra.
    - assert (Hopp : (inject_Z (- m) * pow2 e < inject_Z (2 ^ 53) * pow2 971)%Q).
      { apply Qlt_le_trans with (inject_Z (2 ^ 53) * pow2 e)%Q.
        + apply Qmult_lt_compat_r; [done|]. rewrite <- Zlt_Qlt. lia.
        + rewrite !(Qmult_comm (inject_Z (2 ^ 53))).
          apply Qmult_le_compat_r; [done|]. change 0%Q with (inject_Z 0). by rewrite <- Zle_Qle. }
      rewrite inject_Z_opp in Hopp. lra. }
  rewrite Hy, Hpow. split; lra.
Qed.

(** Between two finite doubles an exact result rounds to a finite double
    between them, as near to the result as any finite double. *)
Lemma fl_between (x a b : Q) :
  finite a -> finite b -> (a <= x <= b)%Q ->
  exists v, fl x = Num v /\ (a <= v <= b)%Q /\
    forall y, finite y -> (Qabs (v - x) <= Qabs (y - x))%Q.
Proof.
  intros Ha Hb [Hax Hxb].
  pose proof (nearest_ge x a Ha Hax) as Hlo. pose proof (nearest_le x b Hb Hxb) as Hhi.
  destruct (finite_below_overflow a Ha) as [Ha1 _].
  destruct (finite_below_overflow b Hb) as [_ Hb2].
  pose proof (Qred_correct (nearest x)) as Hred.
  exists (Qred (nearest x)). unfold fl. cbv zeta.
  destruct (Qle_bool (pow2 1024) (Qred (nearest x))) eqn:Hover.
  { apply Qle_bool_iff in Hover. lra. }
  destruct (Qle_bool (Qred (nearest x)) (- pow2 1024)) eqn:Hunder.
  { apply Qle_bool_iff in Hunder. lra. }
  split; [done|]. split; [lra|].
  intros y Hy. rewrite Hred. by apply nearest_is_nearest.
Qed.

(** A finite double is the result of rounding itself. *)
Lemma fl_exact (y : Q) : finite y -> exists v, fl y = Num v /\ (v == y)%Q.
Proof.
  intros Hy. destruct (fl_between y y y Hy Hy ltac:(lra)) as (v & Hfl & Hv & _).
  exists v. split; [done|lra].
Qed.

Lemma fl_compat (x y : Q) : (x == y)%Q -> fl x = fl y.
Proof.
  intros Heq. unfold fl, nearest. by rewrite (Qred_complete x y Heq).
Qed.

(** On the operands of [Machine.operands], products, quotients and sums
    are those of the machine. *)
Example arithmetic_of_the_machine : forallb Machine.agree Machine.operands = true.
Proof. vm_compute. reflexivity. Qed.

Lemma finite_compat (x y : Q) : (x == y)%Q -> finite x -> finite y.
Proof. intros Heq (m & e & Hm & He & Hx). exists m, e. by rewrite <- Heq. Qed.

(** The rounding of a positive number has at most 53 significant bits,
    and exactly 53 above the subnormals. *)
Lemma nearest_pos_form (x : Q) :
  (0 < x)%Q ->
  let m := round_half_even (x / pow2 (ulp_exponent x)) in
  0 <= m <= 2 ^ 53 /\ (-1074 < ulp_exponent x -> 2 ^ 52 <= m).
Proof.
  intros Hx m. subst m.
  set (e := ulp_exponent x). pose proof (pow2_pos e) as Hp.
  destruct (ilog2_spec x Hx) as [Hlow Hhigh].
  pose proof (round_half_even_bounds (x / pow2 e)) as [Hm1 Hm2].
  assert (Hquot : (0 < x / pow2 e)%Q) by (apply Qlt_shift_div_l; lra).
  assert (Hfloor0 : 0 <= Qfloor (x / pow2 e)).
  { rewrite <- (Qfloor_Z 0). apply Qfloor_resp_le. change (inject_Z 0) with 0%Q. lra. }
  assert (Hupper : (x / pow2 e < inject_Z (2 ^ 53))%Q).
  { apply Qlt_shift_div_r; [done|].
    rewrite <- pow2_Z, <- pow2_add by lia.
    eapply Qlt_le_trans; [exact Hhigh|]. apply pow2_le. unfold e, ulp_exponent. lia. }
  assert (Hfloor1 : Qfloor (x / pow2 e) < 2 ^ 53).
  { rewrite Zlt_Qlt. eapply Qle_lt_trans; [apply Qfloor_le|done]. }
  split; [lia|]. intros He.
  assert (Hexp : e = ilog2 x - 52) by (unfold e, ulp_exponent in *; lia).
  assert (Hlower : (inject_Z (2 ^ 52) <= x / pow2 e)%Q).
  { apply Qle_shift_div_l; [done|].
    rewrite <- pow2_Z, <- pow2_add by lia.
    by replace (52 + e) with (ilog2 x) by lia. }
  apply Qfloor_resp_le in Hlower. rewrite Qfloor_Z in Hlower. lia.
Qed.

Lemma nearest_pos_finite (x : Q) :
  (0 < x)%Q -> (nearest_pos x < pow2 1024)%Q -> finite (nearest_pos x).
Proof.
  intros Hx Hbound.
  destruct (nearest_pos_form x Hx) as [[Hm0 Hm1] Hnormal].
  unfold nearest_pos in *. cbv zeta in *.
  set (m := round_half_even (x / pow2 (ulp_exponent x))) in *.
  set (e := ulp_exponent x) in *.
  assert (He : -1074 <= e) by (unfold e, ulp_exponent; lia).
  pose proof (pow2_pos e) as Hp.
  destruct (decide (m = 2 ^ 53)) as [Hfull|Hnot].
  - assert (Heq : (inject_Z m * pow2 e == pow2 (e + 53))%Q).
    { rewrite Hfull, <- pow2_Z, <- pow2_add by lia. by replace (53 + e) with (e + 53) by lia. }
    rewrite Heq in Hbound. apply Qpower_lt_compat_l_inv in Hbound; [|done].
    exists (2 ^ 52), (e + 1). repeat split; [lia..|].
    rewrite Heq, <- pow2_Z, <- pow2_add by lia. by replace (52 + (e + 1)) with (e + 53) by lia.
  - destruct (decide (e <= 971)) as [Hsmall|Hbig].
    + exists m, e. repeat split; [lia..|done].
    + exfalso. assert (Hm52 : 2 ^ 52 <= m) by (apply Hnormal; lia).
      assert (Hge : (pow2 1024 <= inject_Z m * pow2 e)%Q); [|lra].
      apply Qle_trans with (inject_Z (2 ^ 52) * pow2 e)%Q.
      * rewrite <- pow2_Z, <- pow2_add by lia. apply pow2_le. lia.
      * apply Qmult_le_compat_r; [|lra]. rewrite <- Zle_Qle. lia.
Qed.

Lemma finite_zero : finite 0.
Proof. exists 0, 0. repeat split; done. Qed.

(** Every finite result of rounding is a finite double. *)
Lemma fl_finite (x v : Q) : fl x = Num v -> finite v.
Proof.
  unfold fl. cbv zeta. intros Hfl.
  pose proof (Qred_correct (nearest x)) as Hred.
  destruct (Qle_bool (pow2 1024) (Qred (nearest x))) eqn:Hover; [done|].
  destruct (Qle_bool (Qred (nearest x)) (- pow2 1024)) eqn:Hunder; [done|].
  injection Hfl as <-.
  assert (Hhi : (nearest x < pow2 1024)%Q).
  { apply Qnot_le_lt. intros Hle. rewrite <- Hred in Hle. apply Qle_bool_iff in Hle. congruence. }
  assert (Hlo : (- pow2 1024 < nearest x)%Q).
  { apply Qnot_le_lt. intros Hle. rewrite <- Hred in Hle. apply Qle_bool_iff in Hle. congruence. }
  apply (finite_compat (nearest x)); [by symmetry|].
  unfold nearest in *. cbv zeta in *.
  destruct (Qcompare_spec (Qred x) 0) as [Heq|Hlt|Hgt].
  - apply finite_zero.
  - pose proof (Qred_correct (- Qred x)) as Hneg.
    apply finite_opp, nearest_pos_finite; lra.
  - apply nearest_pos_finite; lra.
Qed.

(** [is_double] decides [finite]. *)
Lemma is_double_spec (q : Q) : is_double q = true <-> finite q.
Proof.
  unfold is_double. split.
  - destruct (fl q) as [v| | |] eqn:Hfl; try done.
    intros Heq. apply Qeq_bool_iff in Heq.
    apply (finite_compat v); [done|]. by apply (fl_finite q).
  - intros Hq. destruct (fl_exact q Hq) as (v & -> & Hv). by apply Qeq_bool_iff.
Qed.

Lemma Qred_inject_Z (z : Z) : Qred (inject_Z z) = inject_Z z.
Proof. apply Qcanon.Qred_iff. simpl. apply Z.gcd_1_r. Qed.

(** The integer part of a quotient of integers is their quotient. *)
Lemma trunc_quot (a b : Z) : 0 < b -> trunc (inject_Z a / inject_Z b) = Z.quot a b.
Proof.
  intros Hb. unfold trunc.
  assert (Hinv : (0 < / inject_Z b)%Q).
  { apply Qinv_lt_0_compat. change 0%Q with (inject_Z 0). rewrite <- Zlt_Qlt. lia. }
  destruct (Qle_bool 0 (inject_Z a / inject_Z b)) eqn:Hsign.
  - apply Qle_bool_iff in Hsign.
    assert (Ha : 0 <= a).
    { destruct (decide (0 <= a)) as [|Hneg]; [done|]. exfalso.
      assert (inject_Z a < 0)%Q by (change 0%Q with (inject_Z 0); rewrite <- Zlt_Qlt; lia).
      unfold Qdiv in Hsign.
      assert (inject_Z a * / inject_Z b < 0 * / inject_Z b)%Q by (by apply Qmult_lt_compat_r).
      lra. }
    rewrite <- Zdiv_Qdiv. by rewrite Z.quot_div_nonneg by lia.
  - assert (Ha : a < 0).
    { destruct (decide (a < 0)) as [|Hpos]; [done|]. exfalso.
      assert (0 <= inject_Z a)%Q by (change 0%Q with (inject_Z 0); rewrite <- Zle_Qle; lia).
      assert (Hle : (0 <= inject_Z a / inject_Z b)%Q) by (apply Qmult_le_0_compat; lra).
      apply Qle_bool_iff in Hle. congruence. }
    unfold Qceiling.
    assert (Heq : (- (inject_Z a / inject_Z b) == inject_Z (- a) / inject_Z b)%Q).
    { rewrite inject_Z_opp. unfold Qdiv. ring. }
    rewrite (Qfloor_comp _ _ Heq), <- Zdiv_Qdiv.
    rewrite <- (Z.quot_div_nonneg (- a) b) by lia.
    rewrite Z.quot_opp_l by lia. lia.
Qed.

(** The remainder of a whole number by 16 is the integer remainder. *)
Lemma rem_16 (r : Z) :
  rem (Num (inject_Z r)) (Num 16) = Num (inject_Z (Z.rem r 16)).
Proof.
  unfold rem. change (is_zero 16) with false. cbv iota.
  change 16%Q with (inject_Z 16). rewrite trunc_quot by lia.
  f_equal. transitivity (Qred (inject_Z (Z.rem r 16))); [|apply Qred_inject_Z].
  apply Qred_complete.
  unfold Qminus. rewrite <- inject_Z_mult, <- inject_Z_opp, <- inject_Z_plus.
  pose proof (Z.quot_rem' r 16) as Hqr.
  by replace (r + - (16 * r `quot` 16)) with (r `rem` 16) by lia.
Qed.

End DoubleFacts.

(** ** The cache *)

Module CacheFacts.
Import CacheUtils.

Lemma slot_set_same now c type key txt :
  slot (setCacheEntry now c type key txt) type !! key
  = Some {| timestamp := now; text := txt |}.
Proof. destruct type; simpl; apply lookup_insert_eq. Qed.

Lemma slot_set_other_key now c type key key' txt :
  key ≠ key' ->
  slot (setCacheEntry now c type key txt) type !! key' = slot c type !! key'.
Proof. intros Hne. destruct type; simpl; by rewrite lookup_insert_ne. Qed.

Lemma slot_set_other_type now c type type' key txt :
  type ≠ type' ->
  slot (setCacheEntry now c type key txt) type' = slot c type'.
Proof. intros Hne. destruct type, type'; simpl; congruence. Qed.

Lemma get_hit now c type key e :
  slot c type !! key = Some e -> now - timestamp e < cacheTime ->
  getCacheEntry now c type key = Some e.
Proof. intros He Hlt. unfold getCacheEntry. rewrite He. by rewrite decide_True. Qed.

Lemma get_stale now c type key e :
  slot c type !! key = Some e -> cacheTime <= now - timestamp e ->
  getCacheEntry now c type key = None.
Proof.
  intros He Hge. unfold getCacheEntry. rewrite He.
  rewrite decide_False; [done | lia].
Qed.

Lemma get_Some_inv now c type key e :
  getCacheEntry now c type key = Some e ->
  slot c type !! key = Some e /\ now - timestamp e < cacheTime.
Proof.
  unfold getCacheEntry. destruct (slot c type !! key) as [e'|]; [|done].
  case_decide; [|done]. intros [= ->]. done.
Qed.

(** A read depends on nothing but the namespace it is made in. *)
Lemma get_slot_ext now c c' type key :
  slot c type = slot c' type ->
  getCacheEntry now c type key = getCacheEntry now c' type key.
Proof. intros Heq. unfold getCacheEntry. by rewrite Heq. Qed.

End CacheFacts.

Module CacheProperties.
Import CacheUtils Runtime CacheFacts Samples.

(** C1. Cache round trip with lazy expiry. After [setCacheEntry(type,
    key, text)] at time [clock w], for either namespace: a
    [getCacheEntry(type, key)] made less than 30 minutes (1 800 000 ms)
    later returns the entry, whose text is [text] unchanged; one made 30
    minutes later or more returns null, although the entry is still in
    the mapping; and in both cases the read leaves the whole state as it
    found it. *)
Theorem C1_cache_round_trip (type : CacheType) (key txt : string) (w : World)
    (later : Z) :
  let written := (setCacheEntryM type key txt w).2 in
  let entry := {| timestamp := clock w; text := txt |} in
  cacheTime = 1800000 /\
  slot (cache written) type !! key = Some entry /\
  (later - clock w < cacheTime ->
     getCacheEntryM type key (set_clock later written)
     = (Return (Some entry), set_clock later written)) /\
  (cacheTime <= later - clock w ->
     getCacheEntryM type key (set_clock later written)
     = (Return None, set_clock later written) /\
     slot (cache (set_clock later written)) type !! key = Some entry).
Proof.
  intros written entry. subst written entry. simpl.
  assert (Hin := slot_set_same (clock w) (cache w) type key txt).
  repeat split; try done.
  - intros Hlt. unfold getCacheEntryM. simpl.
    by rewrite (get_hit _ _ _ _ _ Hin Hlt).
  - unfold getCacheEntryM. simpl.
    by rewrite (get_stale _ _ _ _ _ Hin H).
Qed.

Lemma C1_cache_round_trip_witness :
  getCacheEntryM current "london" (set_clock 1800999 (setCacheEntryM current "london" "sunny" w0).2)
  = (Return (Some {| timestamp := 1000; text := "sunny" |}),
     set_clock 1800999 (setCacheEntryM current "london" "sunny" w0).2)
  /\
  getCacheEntryM forecast "london_7" (set_clock 1801000 (setCacheEntryM forecast "london_7" "rain" w0).2)
  = (Return None, set_clock 1801000 (setCacheEntryM forecast "london_7" "rain" w0).2).
Proof.
  split.
  - apply (C1_cache_round_trip current "london" "sunny" w0 1800999).
    unfold cacheTime, w0; simpl; lia.
  - apply (C1_cache_round_trip forecast "london_7" "rain" w0 1801000).
    unfold cacheTime, w0; simpl; lia.
Defined.

(** C7. Cache namespace isolation. A write in the current namespace
    leaves every read of the forecast namespace (for the same key or any
    other, at any time) unchanged, and a write in the forecast namespace
    leaves every read of the current namespace unchanged. *)
Theorem C7_namespace_isolation (key key' t1 : string) (w : World) (at_time : Z) :
  getCacheEntry at_time (cache (setCacheEntryM current key t1 w).2) forecast key'
  = getCacheEntry at_time (cache w) forecast key'
  /\
  getCacheEntry at_time (cache (setCacheEntryM forecast key t1 w).2) current key'
  = getCacheEntry at_time (cache w) current key'
  /\
  slot (cache (setCacheEntryM current key t1 w).2) forecast = slot (cache w) forecast
  /\
  slot (cache (setCacheEntryM forecast key t1 w).2) current = slot (cache w) current.
Proof.
  repeat split; try (apply get_slot_ext); simpl; by apply slot_set_other_type.
Qed.

End CacheProperties.

(** ** Wind direction *)

Module CompassProperties.
Import WeatherUtils Double DoubleFacts.

Lemma directions_length : length directions = 16%nat.
Proof. reflexivity. Qed.

(** The two copies of the function are the same function. *)
Lemma formatWindDirection_same (degrees : number) :
  Index.formatWindDirection degrees = formatWindDirection degrees.
Proof. reflexivity. Qed.

(** [degrees / 22.5] for a finite number of degrees is the rounding of
    the exact quotient. *)
Lemma div_sector (d : Q) : div (Num d) (Num (45 # 2)) = fl (d / (45 # 2)).
Proof. reflexivity. Qed.

(** The index and the label, from a finite quotient. *)
Lemma windIndex_of_quotient (degrees : number) (q : Q) :
  div degrees (Num (45 # 2)) = Num q ->
  windIndex degrees = Num (inject_Z (Z.rem (Js.round q) 16)) /\
  formatWindDirection degrees = Js.index directions (Z.rem (Js.round q) 16).
Proof.
  intros Hq. unfold formatWindDirection, windIndex. rewrite Hq.
  change (round (Num q)) with (Num (inject_Z (Js.round q))).
  rewrite rem_16. split; [done|].
  unfold index. by rewrite JsFacts.as_integer_inject_Z.
Qed.

Lemma finite_Z (n : Z) : Z.abs n < 2 ^ 53 -> finite (inject_Z n).
Proof. intros Hn. exists n, 0. repeat split; [done..|]. change (pow2 0) with 1%Q. ring. Qed.

(** The quotient of a finite number of degrees that is not negative is
    finite and not negative. *)
Lemma quotient_nonneg (d : Q) :
  finite d -> (0 <= d)%Q ->
  exists q, div (Num d) (Num (45 # 2)) = Num q /\ (0 <= q)%Q.
Proof.
  intros Hd Hpos. rewrite div_sector.
  destruct (fl_between (d / (45 # 2)) 0 d finite_zero Hd) as (q & Hfl & [Hq _] & _).
  { unfold Qdiv. change (/ (45 # 2))%Q with (2 # 45)%Q. split; lra. }
  by exists q.
Qed.

(** For a whole number of degrees up to 2^50 (and a turn more) the
    rounded quotient is in the same sector as the exact one. *)
Lemma whole_degrees_quotient (n : Z) :
  0 <= n <= 2 ^ 50 + 360 ->
  exists q, div (Num (inject_Z n)) (Num (45 # 2)) = Num q /\
    Js.round q = Js.round (inject_Z n / (45 # 2)).
Proof.
  intros Hn. rewrite div_sector.
  set (x := (inject_Z n / (45 # 2))%Q).
  set (r := Js.round x).
  assert (Hr : r = (4 * n + 45) / 90).
  { unfold r, Js.round. rewrite Zdiv_Qdiv. apply Qfloor_comp.
    unfold x. rewrite inject_Z_plus, inject_Z_mult. field. }
  assert (Hdiv : 90 * r <= 4 * n + 45 <= 90 * r + 89).
  { pose proof (Z.div_mod (4 * n + 45) 90 ltac:(lia)) as Hdm.
    pose proof (Z.mod_pos_bound (4 * n + 45) 90 ltac:(lia)). lia. }
  assert (Hx : (inject_Z 90 * x == inject_Z (4 * n))%Q).
  { unfold x. rewrite inject_Z_mult. field. }
  assert (Hlo : (inject_Z 90 * inject_Z r <= inject_Z (4 * n) + 45)%Q).
  { change 45%Q with (inject_Z 45). rewrite <- inject_Z_mult, <- inject_Z_plus, <- Zle_Qle. lia. }
  assert (Hhi : (inject_Z (4 * n) + 45 <= inject_Z 90 * inject_Z r + 89)%Q).
  { change 45%Q with (inject_Z 45). change 89%Q with (inject_Z 89).
    rewrite <- inject_Z_mult, <- !inject_Z_plus, <- Zle_Qle. lia. }
  change (inject_Z 90) with 90%Q in *.
  assert (Ha : finite (inject_Z (2 * r + -1) * pow2 (-1))).
  { exists (2 * r + -1), (-1). repeat split; [lia..|done]. }
  assert (Hb : finite (inject_Z (128 * r + 63) * pow2 (-7))).
  { exists (128 * r + 63), (-7). repeat split; [lia..|done]. }
  destruct (fl_between x _ _ Ha Hb) as (q & Hfl & [Hq1 Hq2] & _).
  { rewrite !inject_Z_plus, !inject_Z_mult.
    change (inject_Z (-1)) with (-1)%Q.
    change (pow2 (-1)) with (1 # 2)%Q. change (pow2 (-7)) with (1 # 128)%Q.
    change (inject_Z 2) with 2%Q. change (inject_Z 128) with 128%Q.
    change (inject_Z 63) with 63%Q. change (inject_Z 1) with 1%Q.
    split; lra. }
  exists q. split; [done|]. fold r.
  rewrite !inject_Z_plus, !inject_Z_mult in Hq1, Hq2.
  change (inject_Z (-1)) with (-1)%Q in Hq1.
  change (pow2 (-1)) with (1 # 2)%Q in Hq1. change (pow2 (-7)) with (1 # 128)%Q in Hq2.
  change (inject_Z 2) with 2%Q in *. change (inject_Z 128) with 128%Q in *.
  change (inject_Z 63) with 63%Q in *. change (inject_Z 1) with 1%Q in *.
  unfold Js.round. apply JsFacts.Qfloor_unique.
  - lra.
  - rewrite inject_Z_plus. change (inject_Z 1) with 1%Q. lra.
Qed.

Lemma quotient_label (degrees : number) (q : Q) (r : Z) :
  div degrees (Num (45 # 2)) = Num q -> Js.round q = r -> 0 <= r ->
  windIndex degrees = Num (inject_Z (r mod 16)) /\
  formatWindDirection degrees = directions !! Z.to_nat (r mod 16) /\
  is_Some (formatWindDirection degrees).
Proof.
  intros Hq Hr Hpos. destruct (windIndex_of_quotient degrees q Hq) as [Hidx Hlabel].
  rewrite Hr, Z.rem_mod_nonneg in Hidx, Hlabel by lia.
  pose proof (Z.mod_pos_bound r 16 ltac:(lia)) as Hb.
  assert (Heq : formatWindDirection degrees = directions !! Z.to_nat (r mod 16)).
  { rewrite Hlabel. unfold Js.index. by rewrite decide_False by lia. }
  split; [done|]. split; [done|].
  rewrite Heq. apply lookup_lt_is_Some. rewrite directions_length. lia.
Qed.

(** C10, as stated, fails: [Infinity >= 0] holds, and
    [formatWindDirection(Infinity)] is [undefined] in both copies of the
    function, since [Math.round(Infinity / 22.5)] is [Infinity] and
    [Infinity % 16] is NaN. ([JSON.parse] reads 1e999 as [Infinity].) *)
Lemma C10_infinity_has_no_label :
  ge PosInf (Num 0) = true /\
  windIndex PosInf = NaN /\
  formatWindDirection PosInf = None /\
  Index.formatWindDirection PosInf = None.
Proof. by vm_compute. Qed.

(** C10, amended. For every finite degrees value d >= 0 the quotient
    [d / 22.5] is finite and not negative, the index
    [Math.round(d / 22.5) % 16] is a whole number in [0, 15], and
    [formatWindDirection(d)] is the label at that index, one of the 16
    and never [undefined]; this holds for both copies of the function. *)
Theorem C10_compass_index_in_bounds (d : Q) :
  finite d -> (0 <= d)%Q ->
  exists (q : Q) (i : Z),
    div (Num d) (Num (45 # 2)) = Num q /\
    i = Js.round q mod 16 /\
    0 <= i <= 15 /\
    windIndex (Num d) = Num (inject_Z i) /\
    exists label,
      formatWindDirection (Num d) = Some label /\
      Index.formatWindDirection (Num d) = Some label /\
      directions !! Z.to_nat i = Some label /\
      label ∈ directions.
Proof.
  intros Hd Hpos. destruct (quotient_nonneg d Hd Hpos) as (q & Hq & Hq0).
  pose proof (JsFacts.round_nonneg q Hq0) as Hr.
  destruct (quotient_label (Num d) q _ Hq eq_refl Hr) as (Hidx & Hlabel & [label Hsome]).
  pose proof (Z.mod_pos_bound (Js.round q) 16 ltac:(lia)) as Hb.
  exists q, (Js.round q mod 16). repeat split; [done|lia|lia|done|].
  exists label.
  change (Index.formatWindDirection (Num d)) with (formatWindDirection (Num d)).
  rewrite Hlabel in Hsome. rewrite Hlabel.
  repeat split; [done..|]. by apply list_elem_of_lookup_2 in Hsome.
Qed.

Lemma C10_compass_index_in_bounds_witness :
  exists (q : Q) (i : Z),
    div (Num 225) (Num (45 # 2)) = Num q /\
    i = Js.round q mod 16 /\
    0 <= i <= 15 /\
    windIndex (Num 225) = Num (inject_Z i) /\
    exists label,
      formatWindDirection (Num 225) = Some label /\
      Index.formatWindDirection (Num 225) = Some label /\
      directions !! Z.to_nat i = Some label /\
      label ∈ directions.
Proof.
  apply (C10_compass_index_in_bounds 225).
  - exists 225, 0. split; [reflexivity|]. split; [lia|reflexivity].
  - discriminate.
Defined.

(** C5, as stated, fails, in three ways. Below zero:
    [formatWindDirection(-45)] is [undefined] (the index is -2) where
    [formatWindDirection(-45 + 360)] is "NW". Next to the boundary of a
    sector: the double just below 11.25 is labelled "N", and adding 360
    to it gives 371.25 exactly, labelled "NNE". For large directions:
    3166593487994531 is labelled "N" and 3166593487994531 + 360 "NNE",
    the quotient being rounded onto the boundary of the sector. *)
Lemma C5_periodicity_fails :
  (formatWindDirection (Num (-45)) = None /\
   formatWindDirection (add (Num (-45)) (Num 360)) = Some "NW") /\
  (let d := ((45 # 4) - pow2 (-49))%Q in
   is_double d = true /\
   formatWindDirection (Num d) = Some "N" /\
   formatWindDirection (add (Num d) (Num 360)) = Some "NNE") /\
  (formatWindDirection (Num 3166593487994531) = Some "N" /\
   formatWindDirection (add (Num 3166593487994531) (Num 360)) = Some "NNE").
Proof. by vm_compute. Qed.

(** Adding a full turn to a whole number of degrees is exact. *)
Lemma add_full_turn (n : Z) :
  0 <= n <= 2 ^ 50 -> add (Num (inject_Z n)) (Num 360) = fl (inject_Z (n + 360)).
Proof. intros Hn. unfold add. apply fl_compat. by rewrite inject_Z_plus. Qed.

Lemma whole_degrees_label (n : Z) :
  0 <= n <= 2 ^ 50 + 360 ->
  formatWindDirection (Num (inject_Z n))
  = directions !! Z.to_nat (Js.round (inject_Z n / (45 # 2)) mod 16) /\
  is_Some (formatWindDirection (Num (inject_Z n))).
Proof.
  intros Hn. destruct (whole_degrees_quotient n Hn) as (q & Hq & Hr).
  assert (Hpos : 0 <= Js.round (inject_Z n / (45 # 2))).
  { apply JsFacts.round_nonneg. apply Qmult_le_0_compat; [|done].
    change 0%Q with (inject_Z 0). rewrite <- Zle_Qle. lia. }
  by destruct (quotient_label _ q _ Hq Hr Hpos) as (_ & Hlabel & Hsome).
Qed.

Lemma sectors_full_turn (d : Q) :
  Js.round ((d + 360) / (45 # 2)) = Js.round (d / (45 # 2)) + 16.
Proof.
  rewrite <- JsFacts.round_add_Z. unfold Js.round. apply Qfloor_comp.
  unfold inject_Z. field.
Qed.

(** C5, amended. For every whole number of degrees d from 0 to 2^50,
    [formatWindDirection(d + 360)] equals [formatWindDirection(d)];
    [formatWindDirection(0)] is "N"; and the result is the entry at
    index round(d / 22.5) mod 16, whether the quotient is taken exactly
    or in doubles, of the fixed list of 16 labels that starts at "N" and
    proceeds clockwise. *)
Theorem C5_compass_periodic (n : Z) :
  0 <= n <= 2 ^ 50 ->
  let d := Num (inject_Z n) in
  formatWindDirection (add d (Num 360)) = formatWindDirection d /\
  Index.formatWindDirection (add d (Num 360)) = Index.formatWindDirection d /\
  formatWindDirection (Num 0) = Some "N" /\
  formatWindDirection d
    = directions !! Z.to_nat (Js.round (inject_Z n / (45 # 2)) mod 16) /\
  directions = ["N"; "NNE"; "NE"; "ENE"; "E"; "ESE"; "SE"; "SSE";
                "S"; "SSW"; "SW"; "WSW"; "W"; "WNW"; "NW"; "NNW"].
Proof.
  intros Hn d. subst d.
  destruct (whole_degrees_label n ltac:(lia)) as [Hlabel _].
  change Index.formatWindDirection with formatWindDirection.
  assert (Hturned : formatWindDirection (add (Num (inject_Z n)) (Num 360))
                    = formatWindDirection (Num (inject_Z n)));
    [|by repeat split].
  rewrite add_full_turn by done.
  destruct (fl_exact (inject_Z (n + 360))) as (v & Hfl & Hv).
  { apply finite_Z. lia. }
  rewrite Hfl.
  assert (Hsame : formatWindDirection (Num v) = formatWindDirection (Num (inject_Z (n + 360)))).
  { unfold formatWindDirection, windIndex. rewrite !div_sector.
    by rewrite (fl_compat (v / (45 # 2)) (inject_Z (n + 360) / (45 # 2))) by (by rewrite Hv). }
  rewrite Hsame. destruct (whole_degrees_label (n + 360) ltac:(lia)) as [Hturn _].
  rewrite Hturn, Hlabel. do 2 f_equal.
  assert (Hr : Js.round (inject_Z (n + 360) / (45 # 2))
               = Js.round (inject_Z n / (45 # 2)) + 16).
  { rewrite <- sectors_full_turn. unfold Js.round. apply Qfloor_comp.
    by rewrite inject_Z_plus. }
  rewrite Hr.
  replace (Js.round (inject_Z n / (45 # 2)) + 16)
    with (Js.round (inject_Z n / (45 # 2)) + 1 * 16) by lia.
  apply Z.mod_add. lia.
Qed.

Lemma C5_compass_periodic_witness :
  formatWindDirection (add (Num 90) (Num 360)) = formatWindDirection (Num 90) /\
  Index.formatWindDirection (add (Num 90) (Num 360)) = Index.formatWindDirection (Num 90) /\
  formatWindDirection (Num 0) = Some "N" /\
  formatWindDirection (Num 90)
    = directions !! Z.to_nat (Js.round (90 / (45 # 2)) mod 16) /\
  directions = ["N"; "NNE"; "NE"; "ENE"; "E"; "ESE"; "SE"; "SSE";
                "S"; "SSW"; "SW"; "WSW"; "W"; "WNW"; "NW"; "NNW"].
Proof. apply (C5_compass_periodic 90). lia. Defined.

End CompassProperties.

(** ** The reports *)

Module FormatProperties.
Import Runtime WeatherUtils Text.

Lemma append_assoc (a b c : string) : (a +:+ b) +:+ c = a +:+ b +:+ c.
Proof.
  induction a as [|x a IH]; [done|].
  change (String x ((a +:+ b) +:+ c) = String x (a +:+ b +:+ c)). by f_equal.
Qed.

Lemma append_nil_r (a : string) : a +:+ "" = a.
Proof.
  induction a as [|x a IH]; [done|].
  change (String x (a +:+ "") = String x a). by f_equal.
Qed.

(** The single-file server builds the same texts as the formatters. *)
Lemma currentReport_body h label now weather :
  Index.currentReport h label now weather
  = nl +:+ "# Current Weather for " +:+ label +:+ nl +:+ nl +:+
    currentBody h now weather +:+ "      ".
Proof.
  unfold Index.currentReport, currentBody, currentGustNote, currentRainNote.
  unfold Index.getWeatherDescription.
  change Index.formatWindDirection with formatWindDirection.
  rewrite ?append_assoc. reflexivity.
Qed.

Lemma dailySection_same h forecast i day :
  Index.dailySection h forecast i day = dailySection h forecast i day.
Proof. reflexivity. Qed.

(** The Wind line of the current report ends with the gust note. *)
Lemma currentBody_wind_line h now weather :
  includes
    (nl +:+ "**Wind:** " +:+ numToString h (wind_speed_10m weather) +:+ " km/h " +:+
     tplStr (formatWindDirection (Double.Num (wind_direction_10m weather))) +:+
     currentGustNote h weather +:+ nl)
    (currentBody h now weather).
Proof.
  exists ("**Conditions:** " +:+
            getWeatherDescription h (Some (weather_code weather)) +:+ nl +:+
          "**Temperature:** " +:+ numToString h (temperature_2m weather) +:+
            "°C (Feels like: " +:+ numToString h (apparent_temperature weather) +:+ "°C)" +:+ nl +:+
          "**Humidity:** " +:+ numToString h (relative_humidity_2m weather) +:+ "%"),
         ("**Cloud Cover:** " +:+ numToString h (cloud_cover weather) +:+ "%" +:+ nl +:+
          "**Precipitation:** " +:+ numToString h (precipitation weather) +:+ " mm" +:+
            currentRainNote h weather +:+ nl +:+
          nl +:+
          "*Updated: " +:+ toLocaleString h now +:+ "*" +:+ nl).
  unfold currentBody. rewrite ?append_assoc. reflexivity.
Qed.

(** The section of a day ends with its Wind line, closed by the gust
    note and a blank line. *)
Lemma dailySection_wind_line h forecast i day :
  exists before,
    dailySection h forecast i day
    = before +:+ "**Wind:** " +:+ tplNum h (wind_speed_10m_max forecast !! i) +:+
      " km/h " +:+
      tplStr (formatWindDirection
                (Double.of_option (wind_direction_10m_dominant forecast !! i))) +:+
      dailyGustNote h forecast i +:+ nl +:+ nl.
Proof.
  eexists ("## " +:+ weekdayLong h day +:+ ", " +:+ toLocaleDateString h day +:+ nl +:+
           "**Conditions:** " +:+
             getWeatherDescription h (daily_weather_code forecast !! i) +:+ nl +:+
           "**Temperature:** " +:+ tplNum h (temperature_2m_min forecast !! i) +:+
             "°C to " +:+ tplNum h (temperature_2m_max forecast !! i) +:+ "°C" +:+ nl +:+
           "**Precipitation:** " +:+ tplNum h (precipitation_sum forecast !! i) +:+
             " mm over " +:+ tplNum h (precipitation_hours forecast !! i) +:+
             " hours" +:+ nl).
  unfold dailySection. rewrite ?append_assoc. reflexivity.
Qed.

(** The example of the specification: sustained wind 10 km/h. *)
Example gusts_16_reported :
  indexOf "with gusts up to"
    (currentBody Samples.host 0 (Samples.weather 16)) <> None.
Proof. vm_compute. discriminate. Qed.

Example gusts_14_not_reported :
  indexOf "with gusts up to"
    (currentBody Samples.host 0 (Samples.weather 14)) = None.
Proof. vm_compute. reflexivity. Qed.

(** With gusts of 14 km/h the day is reported as gusty (14 > 13) where
    the current conditions are not (14 <= 15). *)
Example gusts_14_daily_reported :
  indexOf "with gusts up to"
    (dailySection Samples.host (Samples.two_days 14) 0 "2025-05-05") <> None.
Proof. vm_compute. discriminate. Qed.

End FormatProperties.

(** ** The handlers *)

Module HandlerFacts.
Import CacheUtils Runtime WeatherUtils McpWrapper.

Ltac run :=
  unfold Sdk.callTool, registerTool, try_catch, fetchJson, send, stderr_write, throw,
    date_now, getCacheEntryM, setCacheEntryM, Index.read_cache, Index.write_cache,
    mbind, M_bind, mret, M_ret in *;
  simpl in *.

Lemma bind_run {A B} (m : M A) (k : A -> M B) (w : World) :
  (m ≫= k) w
  = match m w with
    | (Return a, w') => k a w'
    | (Throw e, w') => (Throw e, w')
    end.
Proof. reflexivity. Qed.

Lemma bind_Return {A B} (m : M A) (k : A -> M B) (w w2 : World) (b : B) :
  (m ≫= k) w = (Return b, w2) ->
  exists a w1, m w = (Return a, w1) /\ k a w1 = (Return b, w2).
Proof.
  rewrite bind_run. destruct (m w) as [[a|e] w1]; [|done]. intros Hk. by exists a, w1.
Qed.

(** A request changes neither the cache nor what was sent before it. *)
Lemma fetchJson_frame {A} up req (respond : Z -> FetchResult A) w o w' :
  fetchJson up req respond w = (o, w') ->
  cache w' = cache w /\ requests w' = requests w ++ [req] /\
  match respond (clock w) with
  | JsonBody data => o = Return data
  | _ => exists e, o = Throw e
  end.
Proof.
  unfold fetchJson. destruct (respond (clock w)); run; intros [= <- <-]; eauto.
Qed.

Lemma getCoordinates_frame up city w o w' :
  getCoordinates up city w = (o, w') ->
  cache w' = cache w /\ requests w' = requests w ++ [GeoSearch city].
Proof.
  unfold getCoordinates. rewrite bind_run.
  destruct (fetchJson _ _ _ w) as [[data|e] w1] eqn:Hfetch;
    apply fetchJson_frame in Hfetch as (Hc & Hr & _).
  - destruct data as [[|hit rest]|]; run; intros [= <- <-]; done.
  - intros [= <- <-]; done.
Qed.

(** With no match the lookup throws, naming the city. *)
Lemma getCoordinates_not_found up city w :
  geocoding up (clock w) city = JsonBody None \/
  geocoding up (clock w) city = JsonBody (Some []) ->
  exists w',
    getCoordinates up city w = (Throw (MkError ("City not found: " +:+ city)), w') /\
    cache w' = cache w /\ requests w' = requests w ++ [GeoSearch city].
Proof.
  intros Hnone. unfold getCoordinates. rewrite bind_run. unfold fetchJson.
  destruct Hnone as [-> | ->]; run; eauto.
Qed.

Lemma getCurrentWeather_frame up lat lon w o w' :
  getCurrentWeather up lat lon w = (o, w') ->
  cache w' = cache w /\ requests w' = requests w ++ [CurrentAt lat lon].
Proof.
  unfold getCurrentWeather. intros Hfetch.
  apply fetchJson_frame in Hfetch as (Hc & Hr & _). done.
Qed.

Lemma getForecast_frame up lat lon days w o w' :
  getForecast up lat lon (Some days) w = (o, w') ->
  cache w' = cache w /\ requests w' = requests w ++ [DailyAt lat lon days].
Proof.
  unfold getForecast. intros Hfetch.
  apply fetchJson_frame in Hfetch as (Hc & Hr & _). done.
Qed.

(** The formatters only read the clock. *)
Lemma formatCurrentWeather_run h weather loc w :
  formatCurrentWeather h weather (Some loc) w
  = (Return (nl +:+ "# Current Weather for " +:+
             (tplStr (name loc) +:+ ", " +:+ tplStr (country loc)) +:+ nl +:+ nl +:+
             currentBody h (clock w) weather +:+ "  "), w).
Proof. reflexivity. Qed.

Lemma formatForecast_run h forecast loc days w :
  exists report, formatForecast h forecast loc days w = (Return report, w).
Proof. eexists. reflexivity. Qed.

(** The range checks of the coordinate schema. *)
Lemma coordinates_schema_spec (p : WeatherTools.ByCoordinatesParams) :
  WeatherTools.get_weather_by_coordinates_schema p = true <->
  (-90 <= WeatherTools.bc_latitude p <= 90)%Q /\
  (-180 <= WeatherTools.bc_longitude p <= 180)%Q.
Proof.
  unfold WeatherTools.get_weather_by_coordinates_schema. simpl.
  rewrite !andb_true_iff, !JsFacts.ge_spec. tauto.
Qed.

Lemma days_schema_spec (d : Q) :
  Sdk.accepts WeatherTools.days_schema (Some d) = true <-> (1 <= d <= 14)%Q.
Proof. simpl. rewrite !andb_true_iff, !JsFacts.ge_spec. tauto. Qed.

End HandlerFacts.

Module CoordinateProperties.
Import CacheUtils Runtime WeatherUtils McpWrapper Text Statements HandlerFacts.
Import WeatherTools (ByCoordinatesParams, bc_latitude, bc_longitude).

(** C8. Coordinate lookups bypass the cache. For every latitude in
    [-90, 90] and longitude in [-180, 180], a call of
    [get_weather_by_coordinates] sends exactly one request, the weather
    fetch for these coordinates (no geocoding), leaves both cache
    namespaces exactly as they were, and its result does not depend on
    what the cache holds. This holds for the registered handler and for
    the tool of the single-file server. *)
Theorem C8_coordinates_bypass_cache (h : Host) (up : Upstream)
    (p : ByCoordinatesParams) (w : World) :
  (-90 <= bc_latitude p <= 90)%Q ->
  (-180 <= bc_longitude p <= 180)%Q ->
  bypasses_cache (WeatherTools.get_weather_by_coordinates h up) p w
    [CurrentAt (bc_latitude p) (bc_longitude p)] /\
  bypasses_cache (Index.get_weather_by_coordinates h up) p w
    [CurrentAt (bc_latitude p) (bc_longitude p)].
Proof.
  intros Hlat Hlon.
  assert (Hvalid : WeatherTools.get_weather_by_coordinates_schema p = true)
    by by apply coordinates_schema_spec.
  unfold bypasses_cache, WeatherTools.get_weather_by_coordinates,
    Index.get_weather_by_coordinates, Sdk.callTool.
  rewrite Hvalid.
  unfold WeatherTools.handleGetWeatherByCoordinates,
    Index.get_weather_by_coordinates_callback, Index.get_weather_by_coordinates_try,
    Index.getCurrentWeather, getCurrentWeather, formatCurrentWeather, locationLabel.
  run.
  destruct (current_weather up (clock w) (bc_latitude p) (bc_longitude p));
    simpl; split; eexists _, _; (split; [reflexivity|]); simpl; done.
Qed.

Lemma C8_coordinates_bypass_cache_witness :
  bypasses_cache (WeatherTools.get_weather_by_coordinates Samples.host Samples.upstream)
    {| bc_latitude := 90; bc_longitude := 180 |} Samples.w0 [CurrentAt 90 180] /\
  bypasses_cache (Index.get_weather_by_coordinates Samples.host Samples.upstream)
    {| bc_latitude := 90; bc_longitude := 180 |} Samples.w0 [CurrentAt 90 180].
Proof.
  apply (C8_coordinates_bypass_cache Samples.host Samples.upstream
           {| bc_latitude := 90; bc_longitude := 180 |} Samples.w0);
    simpl; split; discriminate.
Defined.

End CoordinateProperties.

Module LabelProperties.
Import CacheUtils Runtime WeatherUtils McpWrapper Text Statements HandlerFacts.
Import WeatherTools (ByCoordinatesParams, bc_latitude, bc_longitude).

Lemma length_append (a b : string) :
  String.length (a +:+ b) = (String.length a + String.length b)%nat.
Proof.
  induction a as [|x a IH]; [done|].
  change (S (String.length (a +:+ b)) = S (String.length a + String.length b)).
  by rewrite IH.
Qed.

Lemma length_zeros (n : nat) : String.length (zeros n) = n.
Proof. induction n as [|n IH]; simpl; [done | by rewrite IH]. Qed.

Lemma length_substring (s : string) (n m : nat) :
  (n + m <= String.length s)%nat -> String.length (substring n m s) = m.
Proof.
  revert n m. induction s as [|x s IH]; intros n m Hlen; simpl in *.
  - destruct n, m; simpl; lia.
  - destruct n as [|n].
    + destruct m as [|m]; simpl; [done|]. rewrite (IH 0%nat m); [done | lia].
    + apply IH. lia.
Qed.

(** [toFixed] leaves exactly [f] digits after the point. *)
Lemma toFixed_decimals (x : Q) (f : nat) :
  f <> 0%nat ->
  exists whole fraction,
    toFixed x f = whole +:+ "." +:+ fraction /\ String.length fraction = f.
Proof.
  intros Hf. unfold toFixed. rewrite decide_False by done.
  set (m := pretty (Js.round _)).
  set (m' := if decide (String.length m <= f)%nat then _ else m).
  assert (Hlen : (f < String.length m')%nat).
  { subst m'. case_decide as Hshort; [|lia].
    rewrite length_append, length_zeros. lia. }
  eexists (_ +:+ substring 0 (String.length m' - f) m'), _.
  split; [by rewrite FormatProperties.append_assoc|].
  apply length_substring. lia.
Qed.

(** The single-file server labels the report with the coordinates,
    printed with four decimals. *)
Lemma Index_label_is_coordinates (h : Host) (up : Upstream)
    (p : ByCoordinatesParams) (w : World) (weather : CurrentWeather) :
  (-90 <= bc_latitude p <= 90)%Q ->
  (-180 <= bc_longitude p <= 180)%Q ->
  current_weather up (clock w) (bc_latitude p) (bc_longitude p) = JsonBody weather ->
  exists r w' rest,
    Index.get_weather_by_coordinates h up p w = (Sdk.Result r, w') /\
    says r (nl +:+ "# Current Weather for Coordinates (" +:+
            toFixed (bc_latitude p) 4 +:+ ", " +:+ toFixed (bc_longitude p) 4 +:+ ")" +:+
            nl +:+ rest).
Proof.
  intros Hlat Hlon Hweather.
  assert (Hvalid : WeatherTools.get_weather_by_coordinates_schema p = true)
    by by apply coordinates_schema_spec.
  unfold Index.get_weather_by_coordinates, Sdk.callTool. rewrite Hvalid.
  unfold Index.get_weather_by_coordinates_callback, Index.get_weather_by_coordinates_try,
    Index.getCurrentWeather, getCurrentWeather.
  run. rewrite Hweather. simpl.
  eexists _, _, _. split; [reflexivity|].
  unfold says, Index.textResponse. simpl. do 3 f_equal.
  rewrite FormatProperties.currentReport_body.
  rewrite ?FormatProperties.append_assoc. reflexivity.
Qed.

(** C4, on the registered handler. [handleGetWeatherByCoordinates]
    passes [{ latitude, longitude }] to [formatCurrentWeather], whose
    test [location ? ... : ...] takes the name-and-country branch for any
    object: for every valid latitude and longitude, a successful call
    returns a report whose label is "undefined, undefined", not the
    coordinates. *)
Theorem C4_handler_label_is_undefined (h : Host) (up : Upstream)
    (p : ByCoordinatesParams) (w : World) (weather : CurrentWeather) :
  (-90 <= bc_latitude p <= 90)%Q ->
  (-180 <= bc_longitude p <= 180)%Q ->
  current_weather up (clock w) (bc_latitude p) (bc_longitude p) = JsonBody weather ->
  exists r w' rest,
    WeatherTools.get_weather_by_coordinates h up p w = (Sdk.Result r, w') /\
    says r (nl +:+ "# Current Weather for undefined, undefined" +:+ nl +:+ rest).
Proof.
  intros Hlat Hlon Hweather.
  assert (Hvalid : WeatherTools.get_weather_by_coordinates_schema p = true)
    by by apply coordinates_schema_spec.
  unfold WeatherTools.get_weather_by_coordinates, Sdk.callTool. rewrite Hvalid.
  unfold WeatherTools.handleGetWeatherByCoordinates, getCurrentWeather,
    formatCurrentWeather, locationLabel.
  run. rewrite Hweather. simpl.
  eexists _, _, _. split; [reflexivity|].
  unfold says. simpl. do 3 f_equal.
Qed.

Lemma C4_handler_label_is_undefined_witness :
  exists r w' rest,
    WeatherTools.get_weather_by_coordinates Samples.host Samples.upstream
      Samples.london_coordinates Samples.w0 = (Sdk.Result r, w') /\
    says r (nl +:+ "# Current Weather for undefined, undefined" +:+ nl +:+ rest).
Proof.
  apply (C4_handler_label_is_undefined Samples.host Samples.upstream
           Samples.london_coordinates Samples.w0 (Samples.weather 16));
    [simpl; split; discriminate | simpl; split; discriminate | reflexivity].
Defined.

(** The same call on the two servers. *)
Example coordinates_label_handler :
  exists r w' rest,
    WeatherTools.get_weather_by_coordinates Samples.host Samples.upstream
      Samples.london_coordinates Samples.w0 = (Sdk.Result r, w') /\
    says r (nl +:+ "# Current Weather for undefined, undefined" +:+ nl +:+ rest).
Proof. eexists _, _, _. split; vm_compute; reflexivity. Qed.

Example coordinates_label_index :
  exists r w' rest,
    Index.get_weather_by_coordinates Samples.host Samples.upstream
      Samples.london_coordinates Samples.w0 = (Sdk.Result r, w') /\
    says r (nl +:+ "# Current Weather for Coordinates (51.5000, -0.1200)" +:+ nl +:+ rest).
Proof. eexists _, _, _. split; vm_compute; reflexivity. Qed.

End LabelProperties.

Module DispatchProperties.
Import CacheUtils Runtime WeatherUtils McpWrapper Text Statements HandlerFacts.
Import WeatherTools (GetWeatherParams, gw_city, handleGetWeather).

(** A valid entry is returned as it is, and nothing else happens. *)
Lemma handleGetWeather_hit h up p w e :
  getCacheEntry (clock w) (cache w) current (toLowerCase h (gw_city p)) = Some e ->
  handleGetWeather h up p w = (Return (Text (CacheUtils.text e)), w).
Proof. intros Hget. unfold handleGetWeather. run. by rewrite Hget. Qed.

Lemma get_weather_try_hit h up city w e :
  getCacheEntry (clock w) (cache w) current (toLowerCase h city) = Some e ->
  Index.get_weather_try h up city w
  = (Return (Index.textResponse (CacheUtils.text e)), w).
Proof.
  intros Hget. apply CacheFacts.get_Some_inv in Hget as [Hin Hfresh]. simpl in Hin.
  unfold Index.get_weather_try. run. rewrite Hin. by rewrite decide_True.
Qed.

(** After a call that did not throw, the answer is in the cache under
    the lower-cased city. *)
Lemma handleGetWeather_cached h up p w res w1 :
  handleGetWeather h up p w = (Return res, w1) ->
  exists e,
    cache_current (cache w1) !! toLowerCase h (gw_city p) = Some e /\
    res = Text (CacheUtils.text e).
Proof.
  unfold handleGetWeather. intros Hrun.
  apply bind_Return in Hrun as (entry & wa & Hget & Hrun).
  unfold getCacheEntryM in Hget. injection Hget as Hget <-.
  destruct entry as [e|].
  - injection Hrun as <- <-.
    apply CacheFacts.get_Some_inv in Hget as [Hin _]. eauto.
  - apply bind_Return in Hrun as (location & wb & _ & Hrun).
    apply bind_Return in Hrun as (weather & wc & _ & Hrun).
    rewrite bind_run, formatCurrentWeather_run in Hrun.
    run. injection Hrun as <- <-. simpl.
    eexists. split; [apply lookup_insert_eq | reflexivity].
Qed.

Lemma get_weather_try_cached h up city w r w1 :
  Index.get_weather_try h up city w = (Return r, w1) ->
  exists e,
    cache_current (cache w1) !! toLowerCase h city = Some e /\
    r = Index.textResponse (CacheUtils.text e).
Proof.
  unfold Index.get_weather_try. intros Hrun.
  apply bind_Return in Hrun as (now & wa & Hnow & Hrun).
  injection Hnow as <- <-.
  apply bind_Return in Hrun as (c & wa & Hc & Hrun).
  injection Hc as <- <-.
  assert (Hmiss : forall (miss : M ToolResponse),
    miss = (location ← Index.getCoordinates up city;
            weather ← Index.getCurrentWeather up (latitude location) (longitude location);
            rendered ← date_now;
            Index.write_cache current (toLowerCase h city) (clock w)
              (Index.currentReport h
                 (tplStr (name location) +:+ ", " +:+ tplStr (country location))
                 rendered weather);;
            mret (Index.textResponse
              (Index.currentReport h
                 (tplStr (name location) +:+ ", " +:+ tplStr (country location))
                 rendered weather))) ->
    miss w = (Return r, w1) ->
    exists e, cache_current (cache w1) !! toLowerCase h city = Some e /\
              r = Index.textResponse (CacheUtils.text e)).
  { intros miss -> Hmiss.
    apply bind_Return in Hmiss as (location & wb & _ & Hmiss).
    apply bind_Return in Hmiss as (weather & wc & _ & Hmiss).
    run. injection Hmiss as <- <-. simpl.
    eexists. split; [apply lookup_insert_eq | reflexivity]. }
  destruct (cache_current (cache w) !! toLowerCase h city) as [e|] eqn:Hin.
  - case_decide.
    + injection Hrun as <- <-. eauto.
    + by eapply Hmiss.
  - by eapply Hmiss.
Qed.

(** C2. Cache-hit idempotence of [get_weather]. After a call for
    [city] that succeeded, the cache holds an entry under the lower-cased
    city, and a second call for the same city made within the expiry
    window of that entry (with the cache as the first call left it)
    returns the same text, sends no request to the geocoding or weather
    service and writes nothing. This holds for the registered handler,
    for the tool built on it, and for the single-file server. *)
Theorem C2_get_weather_idempotent (h : Host) (up : Upstream) (city : string)
    (w : World) :
  let p := {| gw_city := city |} in
  let key := toLowerCase h city in
  (forall res w1,
     handleGetWeather h up p w = (Return res, w1) ->
     served_from_cache (handleGetWeather h up p) current key res w1 /\
     served_from_cache (registerTool (handleGetWeather h up) p) current key
       (_formatToolResponse res) w1) /\
  (forall r w1,
     Index.get_weather_try h up city w = (Return r, w1) ->
     served_from_cache (Index.get_weather_callback h up city) current key r w1).
Proof.
  intros p key. split.
  - intros res w1 Hfirst.
    apply handleGetWeather_cached in Hfirst as (e & Hin & ->).
    change (toLowerCase h (gw_city p)) with key in Hin.
    assert (Hagain : forall e' later,
      slot (cache w1) current !! key = Some e' ->
      later - timestamp e' < cacheTime ->
      handleGetWeather h up p (set_clock later w1)
      = (Return (Text (CacheUtils.text e)), set_clock later w1)).
    { intros e' later Hin' Hfresh. simpl in Hin'.
      assert (e' = e) as -> by congruence.
      apply handleGetWeather_hit. by apply CacheFacts.get_hit. }
    split; (split; [by exists e|]); intros e' later Hin' Hfresh.
    + by apply Hagain with e'.
    + unfold registerTool, try_catch. rewrite bind_run.
      by rewrite (Hagain e' later Hin' Hfresh).
  - intros r w1 Hfirst.
    apply get_weather_try_cached in Hfirst as (e & Hin & ->).
    subst key. split; [by exists e|]. intros e' later Hin' Hfresh. simpl in Hin'.
    assert (e' = e) as -> by congruence.
    unfold Index.get_weather_callback, try_catch.
    rewrite (get_weather_try_hit h up city (set_clock later w1) e); [done|].
    by apply CacheFacts.get_hit.
Qed.

Lemma C2_get_weather_idempotent_witness :
  exists res w1,
    handleGetWeather Samples.host Samples.upstream {| gw_city := "London" |} Samples.w0
    = (Return res, w1) /\
    handleGetWeather Samples.host Samples.upstream {| gw_city := "London" |}
      (set_clock 1000000 w1)
    = (Return res, set_clock 1000000 w1).
Proof.
  eexists _, _. split; [vm_compute; reflexivity|].
  destruct (C2_get_weather_idempotent Samples.host Samples.upstream "London" Samples.w0)
    as [Hhandler _].
  edestruct Hhandler as [[_ Hserved] _]; [vm_compute; reflexivity|].
  eapply Hserved; [vm_compute; reflexivity|].
  unfold cacheTime. simpl. lia.
Defined.

(** C3, as stated, fails on the registered tool: with an empty cache
    and a geocoder that has no match for "Nowhereland", the text
    returned is "Error: City not found: Nowhereland", which does not
    begin with "Error retrieving weather:". *)
Lemma C3_wrapper_prefix_differs :
  no_match Samples.upstream Samples.w0 "Nowhereland" /\
  exists r w',
    WeatherTools.get_weather Samples.host Samples.upstream
      {| gw_city := "Nowhereland" |} Samples.w0 = (Sdk.Result r, w') /\
    says r "Error: City not found: Nowhereland" /\
    ~ starts_with "Error retrieving weather:" "Error: City not found: Nowhereland".
Proof.
  split; [by left|].
  eexists _, _. split; [vm_compute; reflexivity|].
  split; [reflexivity|].
  intros [rest Hrest]. discriminate Hrest.
Qed.

(** C3, amended. For every city for which geocoding returns zero
    results, and for which the cache holds no valid entry,
    [get_weather(city)] never raises to the protocol layer; it returns
    one text item that contains "City not found: " followed by the
    queried city name. In the single-file server the text begins with
    "Error retrieving weather:"; in the tool registered through the
    wrapper it begins with "Error:". *)
Theorem C3_not_found_becomes_content (h : Host) (up : Upstream) (city : string)
    (w : World) :
  no_match up w city ->
  getCacheEntry (clock w) (cache w) current (toLowerCase h city) = None ->
  let single := "Error retrieving weather: City not found: " +:+ city in
  let wrapped := "Error: City not found: " +:+ city in
  (exists r w',
     Index.get_weather h up {| gw_city := city |} w = (Sdk.Result r, w') /\
     says r single) /\
  (exists r w',
     WeatherTools.get_weather h up {| gw_city := city |} w = (Sdk.Result r, w') /\
     says r wrapped) /\
  starts_with "Error retrieving weather:" single /\ includes city single /\
  starts_with "Error:" wrapped /\ includes city wrapped.
Proof.
  intros Hnone Hmiss single wrapped.
  destruct (getCoordinates_not_found up city w Hnone) as (wa & Hgeo & _).
  split; [|split].
  - unfold Index.get_weather, Sdk.callTool, Index.get_weather_callback, try_catch. simpl.
    assert (Htry : Index.get_weather_try h up city w
                   = (Throw (MkError ("City not found: " +:+ city)), wa)).
    { unfold Index.get_weather_try, Index.getCoordinates, date_now, Index.read_cache.
      do 2 (rewrite bind_run; cbv beta iota).
      unfold getCacheEntry in Hmiss. simpl in Hmiss.
      destruct (cache_current (cache w) !! toLowerCase h city) as [e|].
      - case_decide; [done|]. rewrite bind_run. by rewrite Hgeo.
      - rewrite bind_run. by rewrite Hgeo. }
    rewrite Htry. eexists _, _. split; reflexivity.
  - unfold WeatherTools.get_weather, Sdk.callTool, registerTool, try_catch. simpl.
    rewrite bind_run. unfold handleGetWeather. rewrite bind_run.
    unfold getCacheEntryM. simpl. rewrite Hmiss. rewrite bind_run, Hgeo.
    eexists _, _. split; reflexivity.
  - subst single wrapped. repeat split.
    + by exists (" City not found: " +:+ city).
    + exists "Error retrieving weather: City not found: ", "".
      by rewrite FormatProperties.append_nil_r.
    + by exists (" City not found: " +:+ city).
    + exists "Error: City not found: ", "".
      by rewrite FormatProperties.append_nil_r.
Qed.

Lemma C3_not_found_becomes_content_witness :
  exists r w',
    Index.get_weather Samples.host Samples.upstream
      {| gw_city := "Nowhereland" |} Samples.w0 = (Sdk.Result r, w') /\
    says r "Error retrieving weather: City not found: Nowhereland".
Proof.
  apply (C3_not_found_becomes_content Samples.host Samples.upstream "Nowhereland"
           Samples.w0); [by left | reflexivity].
Defined.

End DispatchProperties.

Module ForecastProperties.
Import CacheUtils Runtime WeatherUtils McpWrapper Text Statements HandlerFacts.
Import WeatherTools (GetForecastParams, gf_city, gf_days, handleGetForecast, forecastKey).

(** A wrapped handler never throws. *)
Lemma registerTool_returns {P} (handler : P -> M HandlerResult) (p : P) (w : World) :
  exists r w', registerTool handler p w = (Return r, w').
Proof.
  unfold registerTool, try_catch. rewrite bind_run.
  destruct (handler p w) as [[res|e] w']; eexists _, _; reflexivity.
Qed.

Lemma get_forecast_callback_returns h up p w :
  exists r w', Index.get_forecast_callback h up p w = (Return r, w').
Proof.
  unfold Index.get_forecast_callback, try_catch.
  destruct (Index.get_forecast_try _ _ _ _ w) as [[res|e] w']; eexists _, _; reflexivity.
Qed.

Lemma numToString_integer h (n : Z) :
  Z.abs n < 2 ^ 53 -> numToString h (inject_Z n) = pretty n.
Proof.
  intros Hn. unfold numToString. rewrite JsFacts.as_integer_inject_Z.
  by rewrite decide_True.
Qed.

Lemma forecastKey_integer h city (n : Z) :
  1 <= n <= 14 ->
  forecastKey h city (inject_Z n) = toLowerCase h city +:+ "_" +:+ pretty n.
Proof.
  intros Hn. unfold forecastKey. rewrite numToString_integer; [done|]. lia.
Qed.

Lemma forecastKey_inj h city (n m : Z) :
  1 <= n <= 14 -> 1 <= m <= 14 ->
  forecastKey h city (inject_Z n) = forecastKey h city (inject_Z m) -> n = m.
Proof.
  intros Hn Hm. rewrite !forecastKey_integer by done. intros Heq.
  apply (inj (String.append (toLowerCase h city))) in Heq.
  apply (inj (String.append "_")) in Heq.
  by apply (inj pretty) in Heq.
Qed.

(** After a call that did not throw, the answer is in the forecast
    namespace under the key of the city and the day count. *)
Lemma handleGetForecast_cached h up p w res w1 :
  handleGetForecast h up p w = (Return res, w1) ->
  exists e,
    cache_forecast (cache w1) !! forecastKey h (gf_city p) (default 7%Q (gf_days p))
      = Some e /\
    res = Text (CacheUtils.text e).
Proof.
  unfold handleGetForecast. intros Hrun.
  apply bind_Return in Hrun as (entry & wa & Hget & Hrun).
  unfold getCacheEntryM in Hget. injection Hget as Hget <-.
  destruct entry as [e|].
  - injection Hrun as <- <-.
    apply CacheFacts.get_Some_inv in Hget as [Hin _]. eauto.
  - apply bind_Return in Hrun as (location & wb & _ & Hrun).
    apply bind_Return in Hrun as (daily & wc & _ & Hrun).
    rewrite bind_run in Hrun.
    destruct (formatForecast_run h daily location (default 7%Q (gf_days p)) wc)
      as [report Hreport].
    rewrite Hreport in Hrun. run. injection Hrun as <- <-. simpl.
    eexists. split; [apply lookup_insert_eq | reflexivity].
Qed.

End ForecastProperties.

(** * Further properties of the code *)

(** ** The cache, beyond the round trip *)

Module CacheExtras.
Import CacheUtils Runtime CacheFacts.

(** X1. A write replaces. Two writes under the same key of a namespace
    leave the cache exactly as the second write alone would, whatever the
    first entry was and whether it had expired or not; a read within the
    window of the second write returns the second text with the second
    timestamp. *)
Theorem X1_last_write_wins (first second : Z) (c : WeatherCache) (type : CacheType)
    (key t1 t2 : string) (later : Z) :
  setCacheEntry second (setCacheEntry first c type key t1) type key t2
  = setCacheEntry second c type key t2 /\
  (later - second < cacheTime ->
   getCacheEntry later (setCacheEntry second (setCacheEntry first c type key t1) type key t2)
     type key
   = Some {| timestamp := second; text := t2 |}).
Proof.
  assert (Heq : setCacheEntry second (setCacheEntry first c type key t1) type key t2
                = setCacheEntry second c type key t2).
  { destruct type; unfold setCacheEntry; simpl; by rewrite insert_insert_eq. }
  split; [exact Heq|]. intros Hfresh. rewrite Heq.
  apply get_hit; [apply slot_set_same | exact Hfresh].
Qed.

Lemma X1_last_write_wins_witness :
  getCacheEntry 5000000
    (setCacheEntry 4000000 (setCacheEntry 0 CacheUtils.empty current "paris" "old")
       current "paris" "new")
    current "paris"
  = Some {| timestamp := 4000000; text := "new" |}.
Proof.
  apply (X1_last_write_wins 0 4000000 CacheUtils.empty current "paris" "old" "new" 5000000).
  unfold cacheTime. lia.
Defined.

(** X2. A write touches one key. After [setCacheEntry(type, key, text)],
    a read of any other key of the same namespace, at any time, gives what
    it gave before. *)
Theorem X2_write_leaves_other_keys (now later : Z) (c : WeatherCache)
    (type : CacheType) (key key' txt : string) :
  key <> key' ->
  getCacheEntry later (setCacheEntry now c type key txt) type key'
  = getCacheEntry later c type key'.
Proof.
  intros Hne. unfold getCacheEntry. by rewrite slot_set_other_key.
Qed.

Lemma X2_write_leaves_other_keys_witness :
  getCacheEntry 10 (setCacheEntry 5 CacheUtils.empty current "paris" "sunny") current "rome"
  = getCacheEntry 10 CacheUtils.empty current "rome".
Proof.
  apply (X2_write_leaves_other_keys 5 10 CacheUtils.empty current "paris" "rome" "sunny").
  discriminate.
Defined.

(** X3. Expiry is permanent and absence is null. With no write in
    between, a key that reads as null at some instant reads as null at
    every later instant, and an entry returned at some instant is the
    entry returned at every earlier instant; an empty cache answers null
    for every namespace, key and time. *)
Theorem X3_expiry_is_permanent (c : WeatherCache) (type : CacheType) (key : string)
    (t t' : Z) :
  t <= t' ->
  (getCacheEntry t c type key = None -> getCacheEntry t' c type key = None) /\
  (forall e, getCacheEntry t' c type key = Some e -> getCacheEntry t c type key = Some e) /\
  getCacheEntry t CacheUtils.empty type key = None.
Proof.
  intros Hle. split; [|split].
  - unfold getCacheEntry. destruct (slot c type !! key) as [e|]; [|done].
    repeat case_decide; try done. lia.
  - intros e Hhit. apply get_Some_inv in Hhit as [Hin Hfresh].
    apply get_hit; [done | lia].
  - destruct type; reflexivity.
Qed.

Lemma X3_expiry_is_permanent_witness :
  getCacheEntry 9000000 (setCacheEntry 0 CacheUtils.empty forecast "oslo_3" "snow")
    forecast "oslo_3" = None.
Proof.
  destruct (X3_expiry_is_permanent
              (setCacheEntry 0 CacheUtils.empty forecast "oslo_3" "snow")
              forecast "oslo_3" 1800000 9000000) as [Hstale _]; [lia|].
  apply Hstale. reflexivity.
Defined.

(** X4. Writes to different places commute. Two writes that differ in
    the namespace or in the key leave the same cache in either order. *)
Theorem X4_writes_commute (a b : Z) (c : WeatherCache) (type1 type2 : CacheType)
    (key1 key2 t1 t2 : string) :
  type1 <> type2 \/ key1 <> key2 ->
  setCacheEntry a (setCacheEntry b c type2 key2 t2) type1 key1 t1
  = setCacheEntry b (setCacheEntry a c type1 key1 t1) type2 key2 t2.
Proof.
  intros Hdiff. destruct type1, type2; unfold setCacheEntry; simpl;
    try reflexivity; f_equal; destruct Hdiff as [Hty | Hkey]; try done;
    by apply insert_insert_ne.
Qed.

Lemma X4_writes_commute_witness :
  setCacheEntry 1 (setCacheEntry 2 CacheUtils.empty current "rome" "b") current "paris" "a"
  = setCacheEntry 2 (setCacheEntry 1 CacheUtils.empty current "paris" "a") current "rome" "b".
Proof.
  apply (X4_writes_commute 1 2 CacheUtils.empty current current "paris" "rome" "a" "b").
  right. discriminate.
Defined.

End CacheExtras.

(** ** Wind direction and weather codes, beyond the bounds *)

Module PresentationExtras.
Import Runtime WeatherUtils Double DoubleFacts CompassProperties.

(** The number of the sector a direction falls in. *)
Lemma sector_of (d : Q) (q : Z) :
  (inject_Z q * (45 # 2) - (45 # 4) <= d)%Q ->
  (d < inject_Z q * (45 # 2) + (45 # 4))%Q ->
  Js.round (d / (45 # 2)) = q.
Proof.
  intros Hlo Hhi. unfold Js.round. apply JsFacts.Qfloor_unique.
  - unfold Qdiv. change (/ (45 # 2))%Q with (2 # 45)%Q. lra.
  - rewrite inject_Z_plus. unfold Qdiv. change (/ (45 # 2))%Q with (2 # 45)%Q.
    change (inject_Z 1) with 1%Q. lra.
Qed.

(** X5. The sixteen sectors. A whole number of degrees d (up to 2^50)
    that lies in the sector of width 22.5 degrees centred on q * 22.5,
    for a whole q >= 0, is given the label number q mod 16 of the list:
    each label covers the 11.25 degrees on either side of its heading,
    and "N" covers both [0, 11.25) and [348.75, 360]. A direction exactly
    between two headings, q * 22.5 - 11.25 with q up to 2^45, takes the
    clockwise one. Both copies of the function agree. *)
Theorem X5_compass_sectors (q : Z) :
  0 <= q ->
  (forall n : Z,
     0 <= n <= 2 ^ 50 ->
     (inject_Z q * (45 # 2) - (45 # 4) <= inject_Z n)%Q ->
     (inject_Z n < inject_Z q * (45 # 2) + (45 # 4))%Q ->
     formatWindDirection (Num (inject_Z n)) = directions !! Z.to_nat (q mod 16) /\
     Index.formatWindDirection (Num (inject_Z n)) = directions !! Z.to_nat (q mod 16) /\
     is_Some (formatWindDirection (Num (inject_Z n)))) /\
  (q <= 2 ^ 45 ->
     formatWindDirection (Num (inject_Z q * (45 # 2) - (45 # 4)))
     = directions !! Z.to_nat (q mod 16) /\
     Index.formatWindDirection (Num (inject_Z q * (45 # 2) - (45 # 4)))
     = directions !! Z.to_nat (q mod 16)).
Proof.
  intros Hq. change Index.formatWindDirection with formatWindDirection. split.
  - intros n Hn Hlo Hhi.
    destruct (whole_degrees_label n ltac:(lia)) as [Hlabel Hsome].
    by rewrite (sector_of _ q Hlo Hhi) in Hlabel.
  - intros Hbound.
    set (d := (inject_Z q * (45 # 2) - (45 # 4))%Q).
    assert (Hquot : (d / (45 # 2) == inject_Z (2 * q + -1) * pow2 (-1))%Q).
    { unfold d. rewrite inject_Z_plus, inject_Z_mult.
      change (pow2 (-1)) with (1 # 2)%Q. change (inject_Z 2) with 2%Q.
      change (inject_Z (-1)) with (-1)%Q. field. }
    destruct (fl_exact (inject_Z (2 * q + -1) * pow2 (-1))) as (v & Hfl & Hv).
    { exists (2 * q + -1), (-1). repeat split; [lia..|done]. }
    assert (Hdiv : div (Num d) (Num (45 # 2)) = Num v).
    { rewrite div_sector, <- Hfl. by apply fl_compat. }
    assert (Hr : Js.round v = q).
    { unfold Js.round. apply JsFacts.Qfloor_unique.
      - rewrite Hv, <- Hquot. unfold d, Qdiv. change (/ (45 # 2))%Q with (2 # 45)%Q. lra.
      - rewrite inject_Z_plus, Hv, <- Hquot. unfold d, Qdiv.
        change (/ (45 # 2))%Q with (2 # 45)%Q. change (inject_Z 1) with 1%Q. lra. }
    by destruct (quotient_label _ v q Hdiv Hr Hq) as (_ & Hlabel & _).
Qed.

Lemma X5_compass_sectors_witness :
  formatWindDirection (Num 12) = Some "NNE" /\
  formatWindDirection (Num 359) = Some "N" /\
  formatWindDirection (Num (1125 # 100)) = Some "NNE".
Proof.
  destruct (X5_compass_sectors 1 ltac:(lia)) as [Hwhole Hboundary].
  destruct (X5_compass_sectors 16 ltac:(lia)) as [Hturn _].
  split; [|split].
  - apply (Hwhole 12); [lia | discriminate | reflexivity].
  - apply (Hturn 359); [lia | discriminate | reflexivity].
  - apply Hboundary. lia.
Defined.

(** A finite double is a multiple of 2^e, or is below 2^(e+52) in
    magnitude. *)
Lemma finite_multiple (d : Q) (e0 : Z) :
  finite d ->
  (exists N : Z, (d == inject_Z N * pow2 e0)%Q) \/ (Qabs d <= pow2 (e0 + 52))%Q.
Proof.
  intros (m & e & Hm & He & Hd).
  destruct (decide (e0 <= e)) as [Hle|Hgt].
  - left. exists (m * 2 ^ (e - e0)).
    rewrite Hd, inject_Z_mult, <- pow2_Z by lia.
    rewrite <- Qmult_assoc, <- pow2_add. by replace (e - e0 + e0) with e by lia.
  - right. pose proof (grid_bound m e ltac:(lia)) as H1.
    pose proof (grid_bound (- m) e ltac:(lia)) as H2.
    pose proof (pow2_le (e + 53) (e0 + 52) ltac:(lia)) as H3.
    rewrite inject_Z_opp in H2. rewrite Hd.
    apply Qabs_Qle_condition. split; lra.
Qed.

(** The finite doubles below -11.25 stop one unit in the last place
    short of it. *)
Lemma below_boundary (d : Q) :
  finite d -> (d < -(45 # 4))%Q -> (d <= -(45 # 4) - pow2 (-49))%Q.
Proof.
  intros Hd Hlt. destruct (finite_multiple d (-49) Hd) as [[N HN]|Hsmall].
  - assert (HN' : N < - (45 * 2 ^ 47)).
    { rewrite Zlt_Qlt.
      assert (Hp : (0 < pow2 (-49))%Q) by apply pow2_pos.
      apply (Qmult_lt_r _ _ (pow2 (-49)) Hp). rewrite <- HN.
      eapply Qlt_le_trans; [exact Hlt|]. by vm_compute. }
    assert (Hle : (inject_Z N <= inject_Z (- (45 * 2 ^ 47) - 1))%Q) by (rewrite <- Zle_Qle; lia).
    rewrite HN.
    apply Qle_trans with (inject_Z (- (45 * 2 ^ 47) - 1) * pow2 (-49))%Q.
    + apply Qmult_le_compat_r; [done|]. by vm_compute.
    + by vm_compute.
  - exfalso. change (pow2 (-49 + 52)) with 8%Q in Hsmall.
    apply Qabs_Qle_condition in Hsmall. lra.
Qed.

(** X6. Negative directions. A double in [-348.75, -11.25) has no
    label: the remainder keeps the sign of the rounded quotient, the index
    is negative and the result is undefined (printed as "undefined" by
    the reports). A direction in [-11.25, 0) is rounded to sector 0 and
    labelled "N". *)
Theorem X6_compass_negative (d : Q) :
  (finite d -> (-(1395 # 4) <= d)%Q -> (d < -(45 # 4))%Q ->
     formatWindDirection (Num d) = None /\
     tplStr (formatWindDirection (Num d)) = "undefined") /\
  ((-(45 # 4) <= d)%Q -> (d < 0)%Q -> formatWindDirection (Num d) = Some "N").
Proof.
  split.
  - intros Hd Hlo Hhi.
    pose proof (below_boundary d Hd Hhi) as Hgap.
    change (pow2 (-49)) with (1 # 562949953421312)%Q in Hgap.
    assert (Hlow : finite (- (31 # 2))).
    { exists (-31), (-1). repeat split; done. }
    assert (Hhalf : finite (- (1 # 2))).
    { exists (-1), (-1). repeat split; done. }
    assert (Hnext : finite (- (4503599627370497 # 9007199254740992))).
    { exists (-4503599627370497), (-53). repeat split; done. }
    destruct (fl_between (d / (45 # 2)) _ _ Hlow Hhalf) as (q & Hq & [Hq1 Hq2] & Hnear).
    { unfold Qdiv. change (/ (45 # 2))%Q with (2 # 45)%Q. split; lra. }
    specialize (Hnear _ Hnext).
    assert (Hstrict : (q < - (1 # 2))%Q).
    { revert Hnear. unfold Qdiv. change (/ (45 # 2))%Q with (2 # 45)%Q.
      intros Hnear. qabs; lra. }
    assert (Hr : -15 <= Js.round q <= -1).
    { unfold Js.round. split.
      - rewrite <- (Qfloor_Z (-15)). apply Qfloor_resp_le.
        change (inject_Z (-15)) with (-15 # 1)%Q. lra.
      - assert (Hneg : Qfloor (q + (1 # 2)) < 0); [|lia].
        rewrite Zlt_Qlt. eapply Qle_lt_trans; [apply Qfloor_le|].
        change (inject_Z 0) with 0%Q. lra. }
    assert (Hnone : formatWindDirection (Num d) = None).
    { destruct (windIndex_of_quotient (Num d) q Hq) as [_ ->].
      unfold Js.index. rewrite decide_True; [done|].
      set (r := Js.round q) in *.
      replace r with (- (- r)) by lia.
      rewrite Z.rem_opp_l by lia. rewrite Z.rem_small by lia. lia. }
    by rewrite Hnone.
  - intros Hlo Hhi.
    assert (Hhalf : finite (- (1 # 2))).
    { exists (-1), (-1). repeat split; done. }
    destruct (fl_between (d / (45 # 2)) _ _ Hhalf finite_zero) as (q & Hq & [Hq1 Hq2] & _).
    { unfold Qdiv. change (/ (45 # 2))%Q with (2 # 45)%Q. split; lra. }
    assert (Hr : Js.round q = 0).
    { unfold Js.round. apply JsFacts.Qfloor_unique; change (inject_Z 0) with 0%Q;
        change (inject_Z (0 + 1)) with 1%Q; lra. }
    destruct (windIndex_of_quotient (Num d) q Hq) as [_ ->]. by rewrite Hr.
Qed.

Lemma X6_compass_negative_witness :
  formatWindDirection (Num (-90)) = None /\ formatWindDirection (Num (-5)) = Some "N".
Proof.
  destruct (X6_compass_negative (-90)) as [Hnone _].
  destruct (X6_compass_negative (-5)) as [_ Hnorth].
  split.
  - apply Hnone; [|discriminate | reflexivity].
    exists (-90), 0. split; [reflexivity|]. split; [lia|reflexivity].
  - apply Hnorth; [discriminate | reflexivity].
Defined.

Lemma assoc_None (table : list (Z * string)) (k : Z) :
  k ∉ table.*1 -> assoc table k = None.
Proof.
  induction table as [|[k' v] table IH]; [done|]. simpl.
  intros Hnotin. apply not_elem_of_cons in Hnotin as [Hne Hrest].
  rewrite decide_False by done. by apply IH.
Qed.

Lemma describe_integer (h : Host) (n : Z) :
  getWeatherDescription h (Some (inject_Z n))
  = match assoc weatherCodes n with
    | Some description => description
    | None => "Unknown (code: " +:+ numToString h (inject_Z n) +:+ ")"
    end.
Proof.
  unfold getWeatherDescription.
  change (Some (inject_Z n) ≫= Js.as_integer) with (Js.as_integer (inject_Z n)).
  by rewrite JsFacts.as_integer_inject_Z.
Qed.

(** X7. Weather codes. Every code of the table is described by its
    entry; a whole code below 2^53 in magnitude that is not in the table
    is described as "Unknown (code: n)" with n in decimal; an undefined
    code (a day whose code is missing from the forecast arrays) as
    "Unknown (code: undefined)". *)
Theorem X7_weather_descriptions (h : Host) :
  (forall k v, (k, v) ∈ weatherCodes ->
     getWeatherDescription h (Some (inject_Z k)) = v) /\
  (forall n : Z, Z.abs n < 2 ^ 53 -> n ∉ weatherCodes.*1 ->
     getWeatherDescription h (Some (inject_Z n)) = "Unknown (code: " +:+ pretty n +:+ ")") /\
  getWeatherDescription h None = "Unknown (code: undefined)".
Proof.
  split; [|split; [|reflexivity]].
  - intros k v Hin. rewrite describe_integer.
    unfold weatherCodes in Hin.
    repeat (apply elem_of_cons in Hin as [[= -> ->] | Hin]; [reflexivity|]).
    by apply elem_of_nil in Hin.
  - intros n Hbound Hnotin. rewrite describe_integer.
    rewrite (assoc_None _ _ Hnotin). unfold numToString.
    rewrite JsFacts.as_integer_inject_Z. by rewrite decide_True.
Qed.

Lemma X7_weather_descriptions_witness :
  getWeatherDescription Samples.host (Some 95%Q) = "Thunderstorm" /\
  getWeatherDescription Samples.host (Some 4%Q) = "Unknown (code: 4)".
Proof.
  destruct (X7_weather_descriptions Samples.host) as (Hknown & Hunknown & _).
  split.
  - apply (Hknown 95 "Thunderstorm"). unfold weatherCodes.
    repeat (apply elem_of_cons; first [by left | right]).
  - apply (Hunknown 4); [reflexivity|].
    unfold weatherCodes. simpl. rewrite !not_elem_of_cons. 
    repeat split; try discriminate. apply not_elem_of_nil.
Defined.

End PresentationExtras.

(** ** What a call does to the world *)

Module EffectFacts.
Import CacheUtils Runtime WeatherUtils McpWrapper HandlerFacts.

Lemma bind_cases {A B} (m : M A) (k : A -> M B) (w w2 : World) (o : outcome B) :
  (m ≫= k) w = (o, w2) ->
  (exists e, m w = (Throw e, w2) /\ o = Throw e) \/
  (exists a w1, m w = (Return a, w1) /\ k a w1 = (o, w2)).
Proof.
  rewrite bind_run. destruct (m w) as [[a|e] w1].
  - intros Hk. right. by exists a, w1.
  - intros [= <- <-]. left. by exists e.
Qed.

(** A failed request is logged once and thrown again; a successful one
    writes nothing. *)
Lemma fetchJson_effect {A} up req (respond : Z -> FetchResult A) w o w' :
  fetchJson up req respond w = (o, w') ->
  cache w' = cache w /\
  requests w' = requests w ++ [req] /\
  clock w' = clock w + elapsed up (clock w) req /\
  match o with
  | Return data => respond (clock w) = JsonBody data /\ stderr w' = stderr w
  | Throw e =>
      stderr w' = stderr w ++ ["Error fetching data: " +:+ message e +:+ nl] /\
      (respond (clock w) = NetworkFailure (message e) \/
       exists status statusText,
         respond (clock w) = HttpStatus status statusText /\
         message e = "API Error: " +:+ pretty status +:+ " " +:+ statusText)
  end.
Proof.
  unfold fetchJson. destruct (respond (clock w)) as [reason|status statusText|data];
    run; intros [= <- <-]; simpl; repeat split; eauto.
Qed.

Lemma getCoordinates_effect up city w o w' :
  getCoordinates up city w = (o, w') ->
  cache w' = cache w /\ requests w' = requests w ++ [GeoSearch city] /\
  clock w' = clock w + elapsed up (clock w) (GeoSearch city) /\
  match o with
  | Return location =>
      exists hit rest,
        geocoding up (clock w) city = JsonBody (Some (hit :: rest)) /\
        location = {| latitude := hit_latitude hit; longitude := hit_longitude hit;
                      name := hit_name hit; country := hit_country hit;
                      admin1 := hit_admin1 hit |} /\
        stderr w' = stderr w
  | Throw e => Effects.first_match up w city = None
  end.
Proof.
  unfold getCoordinates, Effects.first_match. intros Hrun.
  apply bind_cases in Hrun as [(e & Hfetch & ->) | (data & w1 & Hfetch & Hrun)];
    apply fetchJson_effect in Hfetch as (Hc & Hr & Hk & Ho).
  - repeat split; [done..|].
    destruct Ho as (_ & [-> | (status & statusText & -> & _)]); done.
  - destruct Ho as [Hbody Herr]. rewrite Hbody.
    destruct data as [[|hit rest]|]; injection Hrun as <- <-; repeat split; eauto.
Qed.

(** What geocoding found, on each of its outcomes. *)
Lemma getCoordinates_match up city w o w' :
  getCoordinates up city w = (o, w') ->
  match o with
  | Return location =>
      exists hit,
        Effects.first_match up w city = Some hit /\
        latitude location = hit_latitude hit /\ longitude location = hit_longitude hit
  | Throw e => Effects.first_match up w city = None
  end.
Proof.
  intros Hrun. apply getCoordinates_effect in Hrun as (_ & _ & _ & Ho).
  destruct o as [location|e]; [|done].
  destruct Ho as (hit & rest & Hgeo & -> & _). exists hit.
  unfold Effects.first_match. by rewrite Hgeo.
Qed.

Lemma getCurrentWeather_cache up lat lon w o w' :
  getCurrentWeather up lat lon w = (o, w') ->
  cache w' = cache w /\ requests w' = requests w ++ [CurrentAt lat lon].
Proof. by apply getCurrentWeather_frame. Qed.

(** The miss path shared by the lookups: the geocoding request, then
    the weather request for the first match, then the write. *)
Ltac use_frames :=
  repeat match goal with
  | H : getCoordinates _ _ _ = _ |- _ =>
      apply getCoordinates_effect in H as (? & ? & _ & _)
  | H : getCurrentWeather _ _ _ _ = _ |- _ => apply getCurrentWeather_frame in H as (? & ?)
  | H : getForecast _ _ _ _ _ = _ |- _ => apply getForecast_frame in H as (? & ?)
  end;
  repeat match goal with
  | H : cache _ = cache _ |- _ => rewrite H; clear H
  | H : requests _ = requests _ ++ _ |- _ => rewrite H; clear H
  end;
  rewrite <- ?app_assoc.

Ltac miss_path Hrun :=
  right; split; [done|];
  apply bind_cases in Hrun as [(e & Hgeo & ->) | (location & w1 & Hgeo & Hrun)];
    [ left; pose proof (getCoordinates_match _ _ _ _ _ Hgeo) as Hmatch;
      simpl in Hmatch; use_frames; done |];
  pose proof (getCoordinates_match _ _ _ _ _ Hgeo) as (hit & Hmatch & Hlat & Hlon);
  apply bind_cases in Hrun as [(e & Hwx & ->) | (found & w2 & Hwx & Hrun)];
    [ right; left; exists hit; rewrite <- Hlat, <- Hlon; use_frames; done |];
  unfold formatCurrentWeather, formatForecast, locationLabel, mbind, M_bind, date_now,
    setCacheEntryM, Index.write_cache, mret, M_ret in Hrun;
  simpl in Hrun; injection Hrun as <- <-;
  right; right; eexists hit, _, _;
  split; [done|];
  split; [unfold Effects.contents_answer; simpl; rewrite ?decide_True by done; reflexivity|];
  simpl; rewrite <- Hlat, <- Hlon; use_frames; done.

Lemma handleGetWeather_effect h up p w o w' :
  WeatherTools.handleGetWeather h up p w = (o, w') ->
  Effects.lookup_effect up current (toLowerCase h (WeatherTools.gw_city p))
    (WeatherTools.gw_city p) CurrentAt w w' (Effects.tool_answer o).
Proof.
  unfold WeatherTools.handleGetWeather, Effects.lookup_effect. intros Hrun.
  apply bind_cases in Hrun as [(e & Hget & _) | (entry & w0 & Hget & Hrun)];
    [done|]. injection Hget as Hget <-. rewrite Hget.
  destruct entry as [e|].
  { injection Hrun as <- <-. left. by exists e. }
  miss_path Hrun.
Qed.

Lemma handleCurrentWeather_effect h up u p w o w' :
  WeatherResource.handleCurrentWeather h up u p w = (o, w') ->
  Effects.lookup_effect up current (toLowerCase h (WeatherResource.cw_city p))
    (WeatherResource.cw_city p) CurrentAt w w' (Effects.resource_answer o).
Proof.
  unfold WeatherResource.handleCurrentWeather, Effects.lookup_effect. intros Hrun.
  apply bind_cases in Hrun as [(e & Hget & _) | (entry & w0 & Hget & Hrun)];
    [done|]. injection Hget as Hget <-. rewrite Hget.
  destruct entry as [e|].
  { injection Hrun as <- <-. left. by exists e. }
  miss_path Hrun.
Qed.

Lemma handleGetForecast_effect h up p w o w' :
  WeatherTools.handleGetForecast h up p w = (o, w') ->
  Effects.lookup_effect up forecast
    (WeatherTools.forecastKey h (WeatherTools.gf_city p) (default 7%Q (WeatherTools.gf_days p)))
    (WeatherTools.gf_city p)
    (fun lat lon => DailyAt lat lon (default 7%Q (WeatherTools.gf_days p)))
    w w' (Effects.tool_answer o).
Proof.
  unfold WeatherTools.handleGetForecast, Effects.lookup_effect. intros Hrun.
  apply bind_cases in Hrun as [(e & Hget & _) | (entry & w0 & Hget & Hrun)];
    [done|]. injection Hget as Hget <-. rewrite Hget.
  destruct entry as [e|].
  { injection Hrun as <- <-. left. by exists e. }
  miss_path Hrun.
Qed.

(** The in-place cache test of src/index.js is [getCacheEntry]. *)
Lemma inline_test_is_getCacheEntry {A} (now : Z) (c : WeatherCache) (type : CacheType)
    (key : string) (hit : CacheEntry -> A) (miss : A) :
  match slot c type !! key with
  | Some entry => if decide (now - timestamp entry < cacheTime) then hit entry else miss
  | None => miss
  end
  = match getCacheEntry now c type key with
    | Some entry => hit entry
    | None => miss
    end.
Proof.
  unfold getCacheEntry. destruct (slot c type !! key) as [e|]; [|done].
  by case_decide.
Qed.

Lemma get_weather_try_effect h up city w o w' :
  Index.get_weather_try h up city w = (o, w') ->
  Effects.lookup_effect up current (toLowerCase h city) city CurrentAt w w'
    (Effects.response_answer o).
Proof.
  unfold Index.get_weather_try, Effects.lookup_effect,
    Index.getCoordinates, Index.getCurrentWeather. intros Hrun.
  apply bind_cases in Hrun as [(e & Hnow & _) | (now & w0 & Hnow & Hrun)]; [done|].
  injection Hnow as <- <-.
  apply bind_cases in Hrun as [(e & Hc & _) | (c & w0 & Hc & Hrun)]; [done|].
  injection Hc as <- <-.
  change (cache_current (cache w)) with (slot (cache w) current) in Hrun.
  rewrite inline_test_is_getCacheEntry in Hrun.
  destruct (getCacheEntry (clock w) (cache w) current (toLowerCase h city)) as [e|].
  { injection Hrun as <- <-. left. by exists e. }
  miss_path Hrun.
Qed.

Lemma currentweather_try_effect h up u city w o w' :
  IndexResource.currentweather_try h up u city w = (o, w') ->
  Effects.lookup_effect up current (toLowerCase h city) city CurrentAt w w'
    (Effects.contents_answer u o).
Proof.
  unfold IndexResource.currentweather_try, Effects.lookup_effect,
    Index.getCoordinates, Index.getCurrentWeather. intros Hrun.
  apply bind_cases in Hrun as [(e & Hnow & _) | (now & w0 & Hnow & Hrun)]; [done|].
  injection Hnow as <- <-.
  apply bind_cases in Hrun as [(e & Hc & _) | (c & w0 & Hc & Hrun)]; [done|].
  injection Hc as <- <-.
  change (cache_current (cache w)) with (slot (cache w) current) in Hrun.
  rewrite inline_test_is_getCacheEntry in Hrun.
  destruct (getCacheEntry (clock w) (cache w) current (toLowerCase h city)) as [e|].
  { injection Hrun as <- <-. left. exists e. unfold Effects.contents_answer. simpl.
    by rewrite decide_True. }
  miss_path Hrun.
Qed.

Lemma get_forecast_try_effect h up city days w o w' :
  Index.get_forecast_try h up city days w = (o, w') ->
  Effects.lookup_effect up forecast
    (WeatherTools.forecastKey h city (default 7%Q days)) city
    (fun lat lon => DailyAt lat lon (default 7%Q days))
    w w' (Effects.response_answer o).
Proof.
  unfold Index.get_forecast_try, Effects.lookup_effect, WeatherTools.forecastKey,
    Index.getCoordinates, Index.getForecast. intros Hrun.
  apply bind_cases in Hrun as [(e & Hnow & _) | (now & w0 & Hnow & Hrun)]; [done|].
  injection Hnow as <- <-.
  apply bind_cases in Hrun as [(e & Hc & _) | (c & w0 & Hc & Hrun)]; [done|].
  injection Hc as <- <-.
  change (cache_forecast (cache w)) with (slot (cache w) forecast) in Hrun.
  rewrite inline_test_is_getCacheEntry in Hrun.
  destruct (getCacheEntry (clock w) (cache w) forecast _) as [e|].
  { injection Hrun as <- <-. left. by exists e. }
  miss_path Hrun.
Qed.

(** A lookup throws or answers with a text. *)
Ltac outcome_path Hrun :=
  apply bind_cases in Hrun as [(e & _ & ->) | (location & w1 & _ & Hrun)];
    [left; eauto|];
  apply bind_cases in Hrun as [(e & _ & ->) | (found & w2 & _ & Hrun)];
    [left; eauto|];
  unfold formatCurrentWeather, formatForecast, locationLabel, mbind, M_bind, date_now,
    setCacheEntryM, Index.write_cache, mret, M_ret in Hrun;
  simpl in Hrun; injection Hrun as <- <-;
  right; eexists; reflexivity.

Lemma handleGetWeather_outcome h up p w o w' :
  WeatherTools.handleGetWeather h up p w = (o, w') ->
  (exists e, o = Throw e) \/ (exists txt, o = Return (Text txt)).
Proof.
  unfold WeatherTools.handleGetWeather. intros Hrun.
  apply bind_cases in Hrun as [(e & Hget & _) | (entry & w0 & Hget & Hrun)]; [done|].
  injection Hget as _ <-. destruct entry as [e|].
  { injection Hrun as <- <-. right. eauto. }
  outcome_path Hrun.
Qed.

Lemma handleGetForecast_outcome h up p w o w' :
  WeatherTools.handleGetForecast h up p w = (o, w') ->
  (exists e, o = Throw e) \/ (exists txt, o = Return (Text txt)).
Proof.
  unfold WeatherTools.handleGetForecast. intros Hrun.
  apply bind_cases in Hrun as [(e & Hget & _) | (entry & w0 & Hget & Hrun)]; [done|].
  injection Hget as _ <-. destruct entry as [e|].
  { injection Hrun as <- <-. right. eauto. }
  outcome_path Hrun.
Qed.

Lemma handleCurrentWeather_outcome h up u p w o w' :
  WeatherResource.handleCurrentWeather h up u p w = (o, w') ->
  (exists e, o = Throw e) \/ (exists txt, o = Return (Resources.ResText txt)).
Proof.
  unfold WeatherResource.handleCurrentWeather. intros Hrun.
  apply bind_cases in Hrun as [(e & Hget & _) | (entry & w0 & Hget & Hrun)]; [done|].
  injection Hget as _ <-. destruct entry as [e|].
  { injection Hrun as <- <-. right. eauto. }
  outcome_path Hrun.
Qed.

Ltac index_outcome Hrun :=
  apply bind_cases in Hrun as [(e & Hnow & _) | (now & w0 & Hnow & Hrun)]; [done|];
  injection Hnow as <- <-;
  apply bind_cases in Hrun as [(e & Hc & _) | (c & w0 & Hc & Hrun)]; [done|];
  injection Hc as <- <-;
  match type of Hrun with
  | context [cache_current (cache ?w) !! ?key] =>
      destruct (cache_current (cache w) !! key) as [entry|]
  | context [cache_forecast (cache ?w) !! ?key] =>
      destruct (cache_forecast (cache w) !! key) as [entry|]
  end;
  [case_decide; [injection Hrun as <- <-; right; eexists; reflexivity|]|];
  outcome_path Hrun.

Lemma get_weather_try_outcome h up city w o w' :
  Index.get_weather_try h up city w = (o, w') ->
  (exists e, o = Throw e) \/ (exists txt, o = Return (Index.textResponse txt)).
Proof.
  unfold Index.get_weather_try, Index.getCoordinates, Index.getCurrentWeather.
  intros Hrun. index_outcome Hrun.
Qed.

Lemma get_forecast_try_outcome h up city days w o w' :
  Index.get_forecast_try h up city days w = (o, w') ->
  (exists e, o = Throw e) \/ (exists txt, o = Return (Index.textResponse txt)).
Proof.
  unfold Index.get_forecast_try, Index.getCoordinates, Index.getForecast.
  intros Hrun. index_outcome Hrun.
Qed.

Lemma currentweather_try_outcome h up u city w o w' :
  IndexResource.currentweather_try h up u city w = (o, w') ->
  (exists e, o = Throw e) \/
  (exists txt,
     o = Return {| Resources.contents :=
                     [ {| Resources.uri := Resources.href u; Resources.text := txt |} ] |}).
Proof.
  unfold IndexResource.currentweather_try, Index.getCoordinates, Index.getCurrentWeather.
  intros Hrun. index_outcome Hrun.
Qed.

End EffectFacts.

(** ** Cached lookups: what every call keeps *)

Module LookupExtras.
Import CacheUtils Runtime WeatherUtils McpWrapper Resources Effects EffectFacts.
Import WeatherTools (GetWeatherParams, gw_city, GetForecastParams, gf_city, gf_days,
  handleGetWeather, handleGetForecast, forecastKey).
Import WeatherResource (CurrentWeatherParams, cw_city, handleCurrentWeather).

Lemma effect_failure up type key city wx w w' :
  lookup_effect up type key city wx w w' None -> cache w' = cache w.
Proof.
  intros [(e & _ & Hans & _) | (_ & [(_ & _ & Hc & _) | [(hit & _ & _ & Hc & _) |
    (hit & txt & stamp & _ & Hans & _)]])]; done.
Qed.

Lemma effect_frame up type key city wx w w' answer :
  lookup_effect up type key city wx w w' answer -> touches_only type key w w'.
Proof.
  unfold touches_only.
  intros [(e & _ & _ & ->) | (_ & [(_ & _ & Hc & _) | [(hit & _ & _ & Hc & _) |
    (hit & txt & stamp & _ & _ & Hc & _)]])]; rewrite ?Hc; try done.
  split.
  - intros type' Hne. by apply CacheFacts.slot_set_other_type.
  - intros key' Hne. by apply CacheFacts.slot_set_other_key.
Qed.


Lemma effect_answer_cached up type key city wx w w' txt :
  lookup_effect up type key city wx w w' (Some txt) ->
  exists e, slot (cache w') type !! key = Some e /\ CacheUtils.text e = txt.
Proof.
  intros [(e & Hget & [= ->] & ->) | (_ & [(_ & Hans & _) | [(hit & _ & Hans & _) |
    (hit & txt' & stamp & _ & [= ->] & Hc & _)]])]; try done.
  - apply CacheFacts.get_Some_inv in Hget as [Hin _]. eauto.
  - rewrite Hc. eexists. split; [apply CacheFacts.slot_set_same | done].
Qed.

(** X8. Failures are never cached. When a cached lookup throws (the
    geocoding or the weather request failed, or the city was not found),
    it leaves both namespaces of the cache exactly as they were: the three
    handlers behind the wrapper, and the [try] blocks of the two tools and
    of the resource of the single-file server, whose [catch] then answers
    with the message. *)
Theorem X8_failures_are_not_cached (h : Host) (up : Upstream) (w w' : World)
    (e : JsError) :
  (forall p, handleGetWeather h up p w = (Throw e, w') -> cache w' = cache w) /\
  (forall p, handleGetForecast h up p w = (Throw e, w') -> cache w' = cache w) /\
  (forall u p, handleCurrentWeather h up u p w = (Throw e, w') -> cache w' = cache w) /\
  (forall city, Index.get_weather_try h up city w = (Throw e, w') ->
     cache w' = cache w /\
     Index.get_weather_callback h up city w
     = (Return (Index.textResponse ("Error retrieving weather: " +:+ message e)), w')) /\
  (forall p, Index.get_forecast_try h up (gf_city p) (gf_days p) w = (Throw e, w') ->
     cache w' = cache w /\
     Index.get_forecast_callback h up p w
     = (Return (Index.textResponse ("Error retrieving forecast: " +:+ message e)), w')) /\
  (forall u city, IndexResource.currentweather_try h up u city w = (Throw e, w') ->
     cache w' = cache w /\
     IndexResource.currentweather h up u city w
     = (Return {| contents :=
                    [ {| uri := href u;
                         Resources.text := "Error retrieving weather: " +:+ message e |} ] |},
        w')).
Proof.
  split; [|split; [|split; [|split; [|split]]]].
  - intros p Hrun. apply handleGetWeather_effect in Hrun. by eapply effect_failure.
  - intros p Hrun. apply handleGetForecast_effect in Hrun. by eapply effect_failure.
  - intros u p Hrun. apply handleCurrentWeather_effect in Hrun. by eapply effect_failure.
  - intros city Hrun. split.
    + apply get_weather_try_effect in Hrun. by eapply effect_failure.
    + unfold Index.get_weather_callback, try_catch. by rewrite Hrun.
  - intros p Hrun. split.
    + apply get_forecast_try_effect in Hrun. by eapply effect_failure.
    + unfold Index.get_forecast_callback, try_catch. by rewrite Hrun.
  - intros u city Hrun. split.
    + apply currentweather_try_effect in Hrun. by eapply effect_failure.
    + unfold IndexResource.currentweather, try_catch. by rewrite Hrun.
Qed.

Lemma X8_failures_are_not_cached_witness :
  cache (handleGetWeather Samples.host Samples.upstream
           {| gw_city := "Nowhereland" |} Samples.w0).2
  = cache Samples.w0.
Proof.
  destruct (X8_failures_are_not_cached Samples.host Samples.upstream Samples.w0
              (handleGetWeather Samples.host Samples.upstream
                 {| gw_city := "Nowhereland" |} Samples.w0).2
              (MkError "City not found: Nowhereland")) as [Hweather _].
  apply (Hweather {| gw_city := "Nowhereland" |}). vm_compute. reflexivity.
Defined.

(** The world a wrapped call ends in is the one its handler ends in. *)
Lemma registerTool_world {P} (handler : P -> M HandlerResult) p w o w' :
  registerTool handler p w = (o, w') -> exists o', handler p w = (o', w').
Proof.
  unfold registerTool, try_catch. rewrite HandlerFacts.bind_run.
  destruct (handler p w) as [[res|e] w1]; intros [= <- <-]; eauto.
Qed.

Lemma registerResource_world {P} (handler : Url -> P -> M ResourceResult) u p w o w' :
  registerResource handler u p w = (o, w') -> exists o', handler u p w = (o', w').
Proof.
  unfold registerResource, try_catch. rewrite HandlerFacts.bind_run.
  destruct (handler u p w) as [[res|e] w1]; intros [= <- <-]; eauto.
Qed.

Lemma try_catch_world {A} (body : M A) (answer : JsError -> A) w o w' :
  try_catch body (fun error => mret (answer error)) w = (o, w') ->
  exists o', body w = (o', w').
Proof.
  unfold try_catch. destruct (body w) as [[a|e] w1]; intros [= <- <-]; eauto.
Qed.

(** X9. A call touches one key. Whatever its outcome, a call of
    [get_weather] or a read of the [currentweather] resource changes
    nothing of the cache but, possibly, the entry of the current namespace
    under the lower-cased city, and a call of [get_forecast] nothing but
    the entry of the forecast namespace under the key of the city and the
    day count: the other namespace and every other key are as before.
    This holds for the callbacks registered through the wrapper and for
    those of the single-file server. *)
Theorem X9_call_touches_one_key (h : Host) (up : Upstream) (w w' : World) :
  (forall p o, registerTool (handleGetWeather h up) p w = (o, w') ->
     touches_only current (toLowerCase h (gw_city p)) w w') /\
  (forall p o, registerTool (handleGetForecast h up) p w = (o, w') ->
     touches_only forecast (forecastKey h (gf_city p) (default 7%Q (gf_days p))) w w') /\
  (forall u p o, WeatherResource.currentweather h up u p w = (o, w') ->
     touches_only current (toLowerCase h (cw_city p)) w w') /\
  (forall city o, Index.get_weather_callback h up city w = (o, w') ->
     touches_only current (toLowerCase h city) w w') /\
  (forall p o, Index.get_forecast_callback h up p w = (o, w') ->
     touches_only forecast (forecastKey h (gf_city p) (default 7%Q (gf_days p))) w w') /\
  (forall u city o, IndexResource.currentweather h up u city w = (o, w') ->
     touches_only current (toLowerCase h city) w w').
Proof.
  split; [|split; [|split; [|split; [|split]]]].
  - intros p o Hrun. apply registerTool_world in Hrun as [o' Hrun].
    apply handleGetWeather_effect in Hrun. by eapply effect_frame.
  - intros p o Hrun. apply registerTool_world in Hrun as [o' Hrun].
    apply handleGetForecast_effect in Hrun. by eapply effect_frame.
  - intros u p o Hrun. apply registerResource_world in Hrun as [o' Hrun].
    apply handleCurrentWeather_effect in Hrun. by eapply effect_frame.
  - intros city o Hrun. apply try_catch_world in Hrun as [o' Hrun].
    apply get_weather_try_effect in Hrun. by eapply effect_frame.
  - intros p o Hrun. apply try_catch_world in Hrun as [o' Hrun].
    apply get_forecast_try_effect in Hrun. by eapply effect_frame.
  - intros u city o Hrun. apply try_catch_world in Hrun as [o' Hrun].
    apply currentweather_try_effect in Hrun. by eapply effect_frame.
Qed.

Lemma X9_call_touches_one_key_witness :
  touches_only current "london" Samples.w0
    (registerTool (handleGetWeather Samples.host Samples.upstream)
       {| gw_city := "London" |} Samples.w0).2.
Proof.
  destruct (X9_call_touches_one_key Samples.host Samples.upstream Samples.w0
              (registerTool (handleGetWeather Samples.host Samples.upstream)
                 {| gw_city := "London" |} Samples.w0).2) as [Hweather _].
  eapply (Hweather {| gw_city := "London" |}). apply surjective_pairing.
Defined.



End LookupExtras.

(** ** Cached lookups: who shares an entry with whom *)

Module SharingExtras.
Import CacheUtils Runtime WeatherUtils McpWrapper Resources Effects EffectFacts
  Statements HandlerFacts.
Import WeatherTools (GetWeatherParams, gw_city, GetForecastParams, gf_city, gf_days,
  handleGetWeather, handleGetForecast, forecastKey).
Import WeatherResource (CurrentWeatherParams, cw_city, handleCurrentWeather).

Lemma served_from_hit {A} (call : M A) (type : CacheType) (key : string)
    (wrap : string -> A) (w1 : World) (e : CacheEntry) :
  slot (cache w1) type !! key = Some e ->
  (forall w e', getCacheEntry (clock w) (cache w) type key = Some e' ->
     call w = (Return (wrap (CacheUtils.text e')), w)) ->
  served_from_cache call type key (wrap (CacheUtils.text e)) w1.
Proof.
  intros Hin Hhit. split; [by exists e|]. intros e' later Hin' Hfresh.
  assert (e' = e) as -> by congruence.
  apply Hhit. by apply CacheFacts.get_hit.
Qed.

(** A valid entry is the answer, and nothing else happens. *)
Lemma handleGetForecast_hit h up p w e :
  getCacheEntry (clock w) (cache w) forecast
    (forecastKey h (gf_city p) (default 7%Q (gf_days p))) = Some e ->
  handleGetForecast h up p w = (Return (Text (CacheUtils.text e)), w).
Proof. intros Hget. unfold handleGetForecast. run. by rewrite Hget. Qed.

Lemma handleCurrentWeather_hit h up u p w e :
  getCacheEntry (clock w) (cache w) current (toLowerCase h (cw_city p)) = Some e ->
  handleCurrentWeather h up u p w = (Return (ResText (CacheUtils.text e)), w).
Proof. intros Hget. unfold handleCurrentWeather. run. by rewrite Hget. Qed.

Lemma get_forecast_try_hit h up city days w e :
  getCacheEntry (clock w) (cache w) forecast (forecastKey h city (default 7%Q days))
    = Some e ->
  Index.get_forecast_try h up city days w
  = (Return (Index.textResponse (CacheUtils.text e)), w).
Proof.
  intros Hget. apply CacheFacts.get_Some_inv in Hget as [Hin Hfresh]. simpl in Hin.
  unfold forecastKey in Hin.
  unfold Index.get_forecast_try. run. rewrite Hin. by rewrite decide_True.
Qed.

Lemma currentweather_try_hit h up u city w e :
  getCacheEntry (clock w) (cache w) current (toLowerCase h city) = Some e ->
  IndexResource.currentweather_try h up u city w
  = (Return {| contents := [ {| uri := href u; Resources.text := CacheUtils.text e |} ] |},
     w).
Proof.
  intros Hget. apply CacheFacts.get_Some_inv in Hget as [Hin Hfresh]. simpl in Hin.
  unfold IndexResource.currentweather_try. run. rewrite Hin. by rewrite decide_True.
Qed.

Lemma registerTool_hit {P} (handler : P -> M HandlerResult) p w txt :
  handler p w = (Return (Text txt), w) ->
  registerTool handler p w = (Return (ToolHelper.createTextResponse txt), w).
Proof. intros Hrun. unfold registerTool, try_catch. rewrite bind_run. by rewrite Hrun. Qed.

Lemma registerResource_hit {P} (handler : Url -> P -> M ResourceResult) u p w txt :
  handler u p w = (Return (ResText txt), w) ->
  registerResource handler u p w = (Return (createResourceResponse u txt), w).
Proof.
  intros Hrun. unfold registerResource, try_catch. rewrite bind_run. by rewrite Hrun.
Qed.

(** After a lookup that did not throw, its answer is in the cache. *)
Lemma get_forecast_try_cached h up city days w r w1 :
  Index.get_forecast_try h up city days w = (Return r, w1) ->
  exists e,
    slot (cache w1) forecast !! forecastKey h city (default 7%Q days) = Some e /\
    r = Index.textResponse (CacheUtils.text e).
Proof.
  intros Hrun.
  destruct (get_forecast_try_outcome _ _ _ _ _ _ _ Hrun) as [[e [=]] | [txt [= ->]]].
  apply get_forecast_try_effect in Hrun.
  change (response_answer _) with (Some txt) in Hrun.
  apply LookupExtras.effect_answer_cached in Hrun as (e & Hin & <-). eauto.
Qed.

Lemma handleCurrentWeather_cached h up u p w res w1 :
  handleCurrentWeather h up u p w = (Return res, w1) ->
  exists e,
    slot (cache w1) current !! toLowerCase h (cw_city p) = Some e /\
    res = ResText (CacheUtils.text e).
Proof.
  intros Hrun.
  destruct (handleCurrentWeather_outcome _ _ _ _ _ _ _ Hrun) as [[e [=]] | [txt [= ->]]].
  apply handleCurrentWeather_effect in Hrun.
  apply LookupExtras.effect_answer_cached in Hrun as (e & Hin & <-). eauto.
Qed.

Lemma currentweather_try_cached h up u city w r w1 :
  IndexResource.currentweather_try h up u city w = (Return r, w1) ->
  exists e,
    slot (cache w1) current !! toLowerCase h city = Some e /\
    r = {| contents := [ {| uri := href u; Resources.text := CacheUtils.text e |} ] |}.
Proof.
  intros Hrun.
  destruct (currentweather_try_outcome _ _ _ _ _ _ _ Hrun) as [[e [=]] | [txt [= ->]]].
  apply currentweather_try_effect in Hrun.
  unfold contents_answer in Hrun. simpl in Hrun. rewrite decide_True in Hrun by done.
  apply LookupExtras.effect_answer_cached in Hrun as (e & Hin & <-). eauto.
Qed.

(** X11. One forecast entry per key. After a [get_forecast] call that
    succeeded, any later call whose key (lower-cased city, underscore, day
    count, 7 when omitted) is the same, made within the expiry window of
    the entry, is answered with the text of the first call, sends no
    request and writes nothing: calling again, spelling the city in
    another case, or writing 7 out instead of omitting it makes no
    difference. This holds for the handler, the tool built on it and the
    single-file server. *)
Theorem X11_forecast_served_from_cache (h : Host) (up : Upstream)
    (p p' : GetForecastParams) (w : World) :
  forecastKey h (gf_city p') (default 7%Q (gf_days p'))
  = forecastKey h (gf_city p) (default 7%Q (gf_days p)) ->
  let key := forecastKey h (gf_city p) (default 7%Q (gf_days p)) in
  (forall res w1,
     handleGetForecast h up p w = (Return res, w1) ->
     served_from_cache (handleGetForecast h up p') forecast key res w1 /\
     served_from_cache (registerTool (handleGetForecast h up) p') forecast key
       (_formatToolResponse res) w1) /\
  (forall r w1,
     Index.get_forecast_try h up (gf_city p) (gf_days p) w = (Return r, w1) ->
     served_from_cache (Index.get_forecast_callback h up p') forecast key r w1).
Proof.
  intros Hkey key. split.
  - intros res w1 Hfirst.
    apply ForecastProperties.handleGetForecast_cached in Hfirst as (e & Hin & ->).
    split.
    + apply (served_from_hit _ forecast key Text w1 e Hin).
      intros w2 e' Hget. apply handleGetForecast_hit. by rewrite Hkey.
    + apply (served_from_hit _ forecast key (fun txt => _formatToolResponse (Text txt)) w1 e Hin).
      intros w2 e' Hget. apply registerTool_hit, handleGetForecast_hit. by rewrite Hkey.
  - intros r w1 Hfirst.
    apply get_forecast_try_cached in Hfirst as (e & Hin & ->).
    apply (served_from_hit _ forecast key Index.textResponse w1 e Hin).
    intros w2 e' Hget. unfold Index.get_forecast_callback, try_catch.
    rewrite (get_forecast_try_hit h up (gf_city p') (gf_days p') w2 e'); [done|].
    by rewrite Hkey.
Qed.

Lemma X11_forecast_served_from_cache_witness :
  exists res w1,
    handleGetForecast Samples.host Samples.upstream
      {| gf_city := "London"; gf_days := None |} Samples.w0 = (Return res, w1) /\
    handleGetForecast Samples.host Samples.upstream
      {| gf_city := "LONDON"; gf_days := Some 7%Q |} (set_clock 1000000 w1)
    = (Return res, set_clock 1000000 w1).
Proof.
  eexists _, _. split; [vm_compute; reflexivity|].
  destruct (X11_forecast_served_from_cache Samples.host Samples.upstream
              {| gf_city := "London"; gf_days := None |}
              {| gf_city := "LONDON"; gf_days := Some 7%Q |} Samples.w0)
    as [Hhandler _]; [reflexivity|].
  edestruct Hhandler as [[_ Hserved] _]; [vm_compute; reflexivity|].
  eapply Hserved; [vm_compute; reflexivity|].
  unfold cacheTime. simpl. lia.
Defined.

(** X12. One current-conditions entry per lower-cased city. After a
    [get_weather] call for a city that succeeded, a call for any spelling
    that lower-cases to the same string, made within the expiry window
    of the entry, is answered with the text of the first call (the heading
    keeps the name geocoding gave the first spelling) without sending any
    request: the second spelling is never geocoded. This holds for the
    handler, the tool built on it and the single-file server. *)
Theorem X12_spellings_share_an_entry (h : Host) (up : Upstream)
    (city city' : string) (w : World) :
  toLowerCase h city' = toLowerCase h city ->
  let key := toLowerCase h city in
  (forall res w1,
     handleGetWeather h up {| gw_city := city |} w = (Return res, w1) ->
     served_from_cache (handleGetWeather h up {| gw_city := city' |}) current key res w1 /\
     served_from_cache (registerTool (handleGetWeather h up) {| gw_city := city' |})
       current key (_formatToolResponse res) w1) /\
  (forall r w1,
     Index.get_weather_try h up city w = (Return r, w1) ->
     served_from_cache (Index.get_weather_callback h up city') current key r w1).
Proof.
  intros Hkey key. split.
  - intros res w1 Hfirst.
    apply DispatchProperties.handleGetWeather_cached in Hfirst as (e & Hin & ->).
    split.
    + apply (served_from_hit _ current key Text w1 e Hin).
      intros w2 e' Hget. apply DispatchProperties.handleGetWeather_hit. simpl.
      by rewrite Hkey.
    + apply (served_from_hit _ current key (fun txt => _formatToolResponse (Text txt)) w1 e Hin).
      intros w2 e' Hget. apply registerTool_hit, DispatchProperties.handleGetWeather_hit.
      simpl. by rewrite Hkey.
  - intros r w1 Hfirst.
    apply DispatchProperties.get_weather_try_cached in Hfirst as (e & Hin & ->).
    apply (served_from_hit _ current key Index.textResponse w1 e Hin).
    intros w2 e' Hget. unfold Index.get_weather_callback, try_catch.
    rewrite (DispatchProperties.get_weather_try_hit h up city' w2 e'); [done|].
    by rewrite Hkey.
Qed.

Lemma X12_spellings_share_an_entry_witness :
  exists r w1,
    Index.get_weather_try Samples.host Samples.upstream "London" Samples.w0
    = (Return r, w1) /\
    Index.get_weather_callback Samples.host Samples.upstream "lonDON"
      (set_clock 1000000 w1)
    = (Return r, set_clock 1000000 w1).
Proof.
  eexists _, _. split; [vm_compute; reflexivity|].
  destruct (X12_spellings_share_an_entry Samples.host Samples.upstream
              "London" "lonDON" Samples.w0) as [_ Hindex]; [reflexivity|].
  edestruct Hindex as [_ Hserved]; [vm_compute; reflexivity|].
  eapply Hserved; [vm_compute; reflexivity|].
  unfold cacheTime. simpl. lia.
Defined.

(** X13. The tool and the resource share the entry. The [get_weather]
    tool and the [currentweather] resource use the same namespace and the
    same key: after either succeeded for a city, the other one, asked for
    a spelling with the same lower-casing within the expiry window, answers
    with the same text (the resource under the URI it was read with)
    and sends no request. This holds through the wrapper and in the
    single-file server. *)
Theorem X13_tool_and_resource_share (h : Host) (up : Upstream) (u : Url)
    (city city' : string) (w : World) :
  toLowerCase h city' = toLowerCase h city ->
  let key := toLowerCase h city in
  (forall txt w1,
     handleGetWeather h up {| gw_city := city |} w = (Return (Text txt), w1) ->
     served_from_cache (WeatherResource.currentweather h up u {| cw_city := city' |})
       current key (createResourceResponse u txt) w1) /\
  (forall txt w1,
     handleCurrentWeather h up u {| cw_city := city |} w = (Return (ResText txt), w1) ->
     served_from_cache (registerTool (handleGetWeather h up) {| gw_city := city' |})
       current key (ToolHelper.createTextResponse txt) w1) /\
  (forall txt w1,
     Index.get_weather_try h up city w = (Return (Index.textResponse txt), w1) ->
     served_from_cache (IndexResource.currentweather h up u city')
       current key (createResourceResponse u txt) w1) /\
  (forall txt w1,
     IndexResource.currentweather_try h up u city w
     = (Return (createResourceResponse u txt), w1) ->
     served_from_cache (Index.get_weather_callback h up city')
       current key (Index.textResponse txt) w1).
Proof.
  intros Hkey key. split; [|split; [|split]].
  - intros txt w1 Hfirst.
    apply DispatchProperties.handleGetWeather_cached in Hfirst as (e & Hin & [= ->]).
    apply (served_from_hit _ current key (createResourceResponse u) w1 e Hin).
    intros w2 e' Hget. apply registerResource_hit, handleCurrentWeather_hit.
    simpl. by rewrite Hkey.
  - intros txt w1 Hfirst.
    apply handleCurrentWeather_cached in Hfirst as (e & Hin & [= ->]).
    apply (served_from_hit _ current key ToolHelper.createTextResponse w1 e Hin).
    intros w2 e' Hget. apply registerTool_hit, DispatchProperties.handleGetWeather_hit.
    simpl. by rewrite Hkey.
  - intros txt w1 Hfirst.
    apply DispatchProperties.get_weather_try_cached in Hfirst as (e & Hin & [= ->]).
    apply (served_from_hit _ current key (createResourceResponse u) w1 e Hin).
    intros w2 e' Hget. unfold IndexResource.currentweather, try_catch.
    rewrite (currentweather_try_hit h up u city' w2 e'); [done|]. by rewrite Hkey.
  - intros txt w1 Hfirst.
    apply currentweather_try_cached in Hfirst as (e & Hin & [= ->]).
    apply (served_from_hit _ current key Index.textResponse w1 e Hin).
    intros w2 e' Hget. unfold Index.get_weather_callback, try_catch.
    rewrite (DispatchProperties.get_weather_try_hit h up city' w2 e'); [done|].
    by rewrite Hkey.
Qed.

Lemma X13_tool_and_resource_share_witness :
  exists txt w1,
    handleGetWeather Samples.host Samples.upstream {| gw_city := "London" |} Samples.w0
    = (Return (Text txt), w1) /\
    WeatherResource.currentweather Samples.host Samples.upstream
      {| href := "currentweather://london" |} {| cw_city := "london" |}
      (set_clock 1000000 w1)
    = (Return (createResourceResponse {| href := "currentweather://london" |} txt),
       set_clock 1000000 w1).
Proof.
  eexists _, _. split; [vm_compute; reflexivity|].
  destruct (X13_tool_and_resource_share Samples.host Samples.upstream
              {| href := "currentweather://london" |} "London" "london" Samples.w0)
    as [Htool _]; [reflexivity|].
  edestruct Htool as [_ Hserved]; [vm_compute; reflexivity|].
  eapply Hserved; [vm_compute; reflexivity|].
  unfold cacheTime. simpl. lia.
Defined.

End SharingExtras.

(** ** Failures and validation, end to end *)

Module CallExtras.
Import CacheUtils Runtime WeatherUtils McpWrapper Resources Effects EffectFacts
  Statements HandlerFacts.
Import WeatherTools (GetWeatherParams, gw_city, GetForecastParams, gf_city, gf_days,
  ByCoordinatesParams, bc_latitude, bc_longitude, forecastKey).

(** X14. A failed request is logged once. Whatever [fetchJson] is asked,
    exactly one request is recorded and the cache is not touched; when it
    throws, exactly one line, "Error fetching data: " followed by the
    message of the error thrown, is appended to stderr, and the message is
    the network failure's own or "API Error: " with the status code and
    text; when it returns the body, nothing is written to stderr. *)
Theorem X14_failed_fetch_is_logged_once {A} (up : Upstream) (req : Request)
    (respond : Z -> FetchResult A) (w w' : World) (o : outcome A) :
  fetchJson up req respond w = (o, w') ->
  cache w' = cache w /\
  requests w' = requests w ++ [req] /\
  match o with
  | Return data => respond (clock w) = JsonBody data /\ stderr w' = stderr w
  | Throw e =>
      failure_message (respond (clock w)) = Some (message e) /\
      stderr w' = stderr w ++ ["Error fetching data: " +:+ message e +:+ nl]
  end.
Proof.
  intros Hrun. apply fetchJson_effect in Hrun as (Hc & Hr & _ & Ho).
  split; [done|]. split; [done|]. destruct o as [data|e]; [done|].
  destruct Ho as [Hlog [Hnet | (status & statusText & Hhttp & Hmsg)]].
  - by rewrite Hnet.
  - rewrite Hhttp. simpl. by rewrite <- Hmsg.
Qed.

Lemma X14_failed_fetch_is_logged_once_witness :
  stderr (getCurrentWeather Samples.unavailable 10 20 Samples.w0).2
  = ["Error fetching data: fetch failed" +:+ nl].
Proof.
  destruct (X14_failed_fetch_is_logged_once Samples.unavailable (CurrentAt 10 20)
              (fun t => current_weather Samples.unavailable t 10 20) Samples.w0
              (getCurrentWeather Samples.unavailable 10 20 Samples.w0).2
              (Throw (MkError "fetch failed"))) as (_ & _ & _ & Hlog);
    [reflexivity | exact Hlog].
Defined.

(** X15. No tool call raises. Whatever the arguments, the state and the
    answers of the services, a call of any of the three tools ends in
    invalid parameters or in a response, never in an error thrown by the
    callback, and a read of the [currentweather] resource ends in a
    response; this holds for the callbacks registered through the wrapper
    and for those of the single-file server. *)
Theorem X15_no_call_raises (h : Host) (up : Upstream) (w : World) (e : JsError) :
  (forall p, (WeatherTools.get_weather h up p w).1 <> Sdk.Fault e) /\
  (forall p, (WeatherTools.get_forecast h up p w).1 <> Sdk.Fault e) /\
  (forall p, (WeatherTools.get_weather_by_coordinates h up p w).1 <> Sdk.Fault e) /\
  (forall p, (Index.get_weather h up p w).1 <> Sdk.Fault e) /\
  (forall p, (Index.get_forecast h up p w).1 <> Sdk.Fault e) /\
  (forall p, (Index.get_weather_by_coordinates h up p w).1 <> Sdk.Fault e) /\
  (forall u p, (WeatherResource.currentweather h up u p w).1 <> Throw e) /\
  (forall u city, (IndexResource.currentweather h up u city w).1 <> Throw e).
Proof.
  assert (Hwrapped : forall P (schema : P -> bool) (handler : P -> M HandlerResult) p,
    (Sdk.callTool schema (registerTool handler) p w).1 <> Sdk.Fault e).
  { intros P schema handler p. unfold Sdk.callTool. destruct (schema p); [|done].
    destruct (ForecastProperties.registerTool_returns handler p w) as (r & w' & ->).
    done. }
  assert (Hcaught : forall P (schema : P -> bool) (body : P -> M ToolResponse)
      (answer : JsError -> ToolResponse) p,
    (Sdk.callTool schema
       (fun p => try_catch (body p) (fun error => mret (answer error))) p w).1
    <> Sdk.Fault e).
  { intros P schema body answer p. unfold Sdk.callTool, try_catch.
    destruct (schema p); [|done]. by destruct (body p w) as [[r|err] w']. }
  split; [intros p; apply Hwrapped|]. split; [intros p; apply Hwrapped|].
  split; [intros p; apply Hwrapped|].
  split; [intros p; apply (Hcaught _ _ (fun p => Index.get_weather_try h up (gw_city p)))|].
  split; [intros p;
          apply (Hcaught _ _ (fun p => Index.get_forecast_try h up (gf_city p) (gf_days p)))|].
  split; [intros p;
          apply (Hcaught _ _ (fun p => Index.get_weather_by_coordinates_try h up
                                         (bc_latitude p) (bc_longitude p)))|].
  split.
  - intros u p. unfold WeatherResource.currentweather, registerResource, try_catch.
    rewrite bind_run.
    by destruct (WeatherResource.handleCurrentWeather h up u p w) as [[r|err] w'].
  - intros u city. unfold IndexResource.currentweather, try_catch.
    by destruct (IndexResource.currentweather_try h up u city w) as [[r|err] w'].
Qed.

Lemma X15_no_call_raises_witness :
  (Index.get_forecast Samples.host Samples.unavailable
     {| gf_city := "Oslo"; gf_days := None |} Samples.w0).1
  <> Sdk.Fault (MkError "fetch failed").
Proof.
  destruct (X15_no_call_raises Samples.host Samples.unavailable Samples.w0
              (MkError "fetch failed")) as (_ & _ & _ & _ & Hforecast & _).
  apply (Hforecast {| gf_city := "Oslo"; gf_days := None |}).
Defined.

(** X16. An upstream failure, end to end. When the cache holds no valid
    entry for a [get_forecast] call with an accepted day count and the
    geocoding request fails (network failure or non-2xx status), the call
    sends that one request and no weather request, logs one line on
    stderr, leaves the cache as it was, and answers with a text: "Error: "
    and the message through the wrapper, "Error retrieving forecast: " and
    the message in the single-file server. *)
Theorem X16_geocoding_failure_end_to_end (h : Host) (up : Upstream)
    (p : GetForecastParams) (w : World) (msg : string) :
  WeatherTools.get_forecast_schema p = true ->
  getCacheEntry (clock w) (cache w) forecast
    (forecastKey h (gf_city p) (default 7%Q (gf_days p))) = None ->
  failure_message (geocoding up (clock w) (gf_city p)) = Some msg ->
  let w' :=
    {| cache := cache w;
       clock := clock w + elapsed up (clock w) (GeoSearch (gf_city p));
       requests := requests w ++ [GeoSearch (gf_city p)];
       stderr := stderr w ++ ["Error fetching data: " +:+ msg +:+ nl] |} in
  WeatherTools.get_forecast h up p w
  = (Sdk.Result (ToolHelper.createTextResponse ("Error: " +:+ msg)), w') /\
  Index.get_forecast h up p w
  = (Sdk.Result (Index.textResponse ("Error retrieving forecast: " +:+ msg)), w').
Proof.
  intros Hvalid Hmiss Hfail w'.
  assert (Hgeo : getCoordinates up (gf_city p) w = (Throw (MkError msg), w')).
  { unfold getCoordinates, fetchJson. rewrite bind_run.
    destruct (geocoding up (clock w) (gf_city p)) as [reason|status statusText|data];
      simpl in Hfail; [injection Hfail as <- | injection Hfail as <- | done];
      reflexivity. }
  unfold WeatherTools.get_forecast, Index.get_forecast, Sdk.callTool. rewrite Hvalid.
  split.
  - unfold registerTool, try_catch. rewrite bind_run.
    unfold WeatherTools.handleGetForecast. rewrite bind_run.
    unfold getCacheEntryM. rewrite Hmiss. by rewrite bind_run, Hgeo.
  - unfold Index.get_forecast_callback, try_catch, Index.get_forecast_try,
      Index.getCoordinates, date_now, Index.read_cache.
    do 2 (rewrite bind_run; cbv beta iota).
    change (cache_forecast (cache w)) with (slot (cache w) forecast).
    rewrite inline_test_is_getCacheEntry.
    unfold forecastKey in Hmiss. rewrite Hmiss. by rewrite bind_run, Hgeo.
Qed.

Lemma X16_geocoding_failure_end_to_end_witness :
  Index.get_forecast Samples.host Samples.unavailable
    {| gf_city := "Oslo"; gf_days := Some 3%Q |} Samples.w0
  = (Sdk.Result (Index.textResponse
       "Error retrieving forecast: API Error: 503 Service Unavailable"),
     {| cache := CacheUtils.empty; clock := 1030; requests := [GeoSearch "Oslo"];
        stderr := ["Error fetching data: API Error: 503 Service Unavailable" +:+ nl] |}).
Proof.
  apply (X16_geocoding_failure_end_to_end Samples.host Samples.unavailable
           {| gf_city := "Oslo"; gf_days := Some 3%Q |} Samples.w0
           "API Error: 503 Service Unavailable"); reflexivity.
Defined.

(** X17. The coordinate range is checked by the schema alone. A call of
    [get_weather_by_coordinates] with a latitude outside [-90, 90] or a
    longitude outside [-180, 180] is rejected before the callback runs
    (nothing is sent, the world is unchanged), in both servers; the
    handler itself checks nothing and requests the weather for whatever
    coordinates it is given. *)
Theorem X17_range_is_checked_by_schema (h : Host) (up : Upstream)
    (p : ByCoordinatesParams) (w : World) :
  (~ ((-90 <= bc_latitude p <= 90)%Q /\ (-180 <= bc_longitude p <= 180)%Q) ->
   WeatherTools.get_weather_by_coordinates h up p w = (Sdk.InvalidParams, w) /\
   Index.get_weather_by_coordinates h up p w = (Sdk.InvalidParams, w)) /\
  requests (WeatherTools.handleGetWeatherByCoordinates h up p w).2
  = requests w ++ [CurrentAt (bc_latitude p) (bc_longitude p)].
Proof.
  split.
  - intros Hout.
    assert (Hno : WeatherTools.get_weather_by_coordinates_schema p = false).
    { apply not_true_iff_false. by rewrite coordinates_schema_spec. }
    unfold WeatherTools.get_weather_by_coordinates, Index.get_weather_by_coordinates,
      Sdk.callTool. by rewrite Hno.
  - unfold WeatherTools.handleGetWeatherByCoordinates. rewrite bind_run.
    destruct (getCurrentWeather up (bc_latitude p) (bc_longitude p) w)
      as [[weather|err] w1] eqn:Hwx;
      apply getCurrentWeather_frame in Hwx as [_ Hr]; [|done].
    rewrite bind_run, formatCurrentWeather_run. done.
Qed.

Lemma X17_range_is_checked_by_schema_witness :
  WeatherTools.get_weather_by_coordinates Samples.host Samples.upstream
    {| bc_latitude := 900001 # 10000; bc_longitude := 180 |} Samples.w0
  = (Sdk.InvalidParams, Samples.w0).
Proof.
  destruct (X17_range_is_checked_by_schema Samples.host Samples.upstream
              {| bc_latitude := 900001 # 10000; bc_longitude := 180 |} Samples.w0)
    as [Hout _].
  apply Hout. simpl. intros [[_ Hhi] _]. by apply Hhi.
Defined.

End CallExtras.

(** ** What a miss writes, and what the reports are made of *)

Module ReportExtras.
Import CacheUtils Runtime WeatherUtils McpWrapper Resources Effects EffectFacts
  Statements HandlerFacts Text.
Import WeatherTools (GetWeatherParams, gw_city, ByCoordinatesParams, bc_latitude,
  bc_longitude).

(** X18. What a miss does, and when the entry is dated. With no valid
    entry for the city, a geocoding answer with at least one match and a
    weather answer, [get_weather] requests the weather for the coordinates
    of the first match only, renders the report under the name and country
    of that match at the instant t2 the weather arrived, and caches it
    under the lower-cased city. The handler behind the wrapper dates the
    entry t2, the instant of the write; the single-file server dates it
    with the instant the call began, so that its entry expires earlier by
    the time the two requests took. *)
Theorem X18_what_a_miss_writes (h : Host) (up : Upstream) (city : string) (w : World)
    (hit : GeoHit) (rest : list GeoHit) (weather : CurrentWeather) :
  let key := toLowerCase h city in
  let t1 := clock w + elapsed up (clock w) (GeoSearch city) in
  let wx := CurrentAt (hit_latitude hit) (hit_longitude hit) in
  let t2 := t1 + elapsed up t1 wx in
  let report (tail : string) :=
    nl +:+ "# Current Weather for " +:+
    (tplStr (hit_name hit) +:+ ", " +:+ tplStr (hit_country hit)) +:+ nl +:+ nl +:+
    currentBody h t2 weather +:+ tail in
  let after (stamp : Z) (txt : string) :=
    {| cache := setCacheEntry stamp (cache w) current key txt;
       clock := t2;
       requests := requests w ++ [GeoSearch city; wx];
       stderr := stderr w |} in
  getCacheEntry (clock w) (cache w) current key = None ->
  geocoding up (clock w) city = JsonBody (Some (hit :: rest)) ->
  current_weather up t1 (hit_latitude hit) (hit_longitude hit) = JsonBody weather ->
  WeatherTools.handleGetWeather h up {| gw_city := city |} w
  = (Return (Text (report "  ")), after t2 (report "  ")) /\
  Index.get_weather_try h up city w
  = (Return (Index.textResponse (report "      ")), after (clock w) (report "      ")).
Proof.
  intros key t1 wx t2 report after Hmiss Hgeo Hwx.
  assert (Hcoords : getCoordinates up city w
    = (Return {| latitude := hit_latitude hit; longitude := hit_longitude hit;
                 name := hit_name hit; country := hit_country hit;
                 admin1 := hit_admin1 hit |},
       {| cache := cache w; clock := t1; requests := requests w ++ [GeoSearch city];
          stderr := stderr w |})).
  { unfold getCoordinates, fetchJson. rewrite bind_run, Hgeo. reflexivity. }
  assert (Hweather : forall w1, cache w1 = cache w -> clock w1 = t1 ->
    requests w1 = requests w ++ [GeoSearch city] -> stderr w1 = stderr w ->
    getCurrentWeather up (hit_latitude hit) (hit_longitude hit) w1
    = (Return weather,
       {| cache := cache w; clock := t2; requests := requests w ++ [GeoSearch city; wx];
          stderr := stderr w |})).
  { intros w1 Hc Hk Hr Hs. unfold getCurrentWeather, fetchJson.
    rewrite Hk, Hwx. unfold mbind, M_bind, send, mret, M_ret. simpl.
    rewrite Hc, Hk, Hr, Hs, <- app_assoc. reflexivity. }
  split.
  - unfold WeatherTools.handleGetWeather. rewrite bind_run.
    unfold getCacheEntryM. simpl. fold key. rewrite Hmiss.
    rewrite bind_run, Hcoords. simpl. rewrite bind_run, Hweather by done.
    rewrite bind_run, formatCurrentWeather_run. reflexivity.
  - unfold Index.get_weather_try, Index.getCoordinates, Index.getCurrentWeather,
      date_now, Index.read_cache.
    do 2 (rewrite bind_run; cbv beta iota).
    change (cache_current (cache w)) with (slot (cache w) current).
    rewrite inline_test_is_getCacheEntry. fold key. rewrite Hmiss.
    rewrite bind_run, Hcoords. simpl. rewrite bind_run, Hweather by done.
    unfold mbind, M_bind, Index.write_cache, mret, M_ret. simpl.
    subst report after. simpl. rewrite FormatProperties.currentReport_body. reflexivity.
Qed.

Lemma X18_what_a_miss_writes_witness :
  timestamp <$>
    cache_current (cache (WeatherTools.handleGetWeather Samples.host Samples.upstream
                            {| gw_city := "London" |} Samples.w0).2) !! "london"
  = Some 1240 /\
  timestamp <$>
    cache_current (cache (Index.get_weather_try Samples.host Samples.upstream
                            "London" Samples.w0).2) !! "london"
  = Some 1000.
Proof.
  destruct (X18_what_a_miss_writes Samples.host Samples.upstream "London" Samples.w0
              Samples.london [] (Samples.weather 16)) as [Hhandler Hindex];
    [reflexivity | reflexivity | reflexivity |].
  rewrite Hhandler, Hindex. split; reflexivity.
Defined.

Lemma dailySections_concat h forecast (days : list string) (i : nat) (acc : string) :
  dailySections h forecast i days acc
  = acc +:+ concat_all (imap (fun j day => dailySection h forecast (i + j) day) days).
Proof.
  revert i acc. induction days as [|day days IH]; intros i acc; simpl.
  - by rewrite FormatProperties.append_nil_r.
  - rewrite IH, FormatProperties.append_assoc. rewrite Nat.add_0_r.
    do 3 f_equal. apply imap_ext. intros j day' _. simpl. f_equal. lia.
Qed.

(** X19. The forecast report, section by section. The report is the
    heading, naming the requested day count and the place, then one
    section per entry of [forecast.time], in order and numbered from 0,
    then the "Updated" line: the number of sections is the length of
    [time], whatever day count was requested and however long the other
    arrays are, and with an empty [time] the report is the heading and the
    "Updated" line alone. The single-file server builds the same sections. *)
Theorem X19_forecast_report_sections (h : Host) (forecast : Daily)
    (location : Location) (days : Q) (w : World) :
  let heading :=
    "# " +:+ numToString h days +:+ "-Day Weather Forecast for " +:+
    tplStr (name location) +:+ ", " +:+ tplStr (country location) +:+ nl +:+ nl in
  let sections := imap (fun i day => dailySection h forecast i day) (time forecast) in
  let updated := "*Updated: " +:+ toLocaleString h (clock w) +:+ "*" in
  formatForecast h forecast location days w
  = (Return (heading +:+ concat_all sections +:+ updated), w) /\
  length sections = length (time forecast) /\
  (time forecast = [] ->
   formatForecast h forecast location days w = (Return (heading +:+ updated), w)) /\
  (forall acc,
     Index.dailySections h forecast 0 (time forecast) acc
     = acc +:+ concat_all sections).
Proof.
  intros heading sections updated.
  assert (Hreport : formatForecast h forecast location days w
                    = (Return (heading +:+ concat_all sections +:+ updated), w)).
  { unfold formatForecast. unfold mbind, M_bind, date_now, mret, M_ret.
    rewrite dailySections_concat. subst heading sections updated. simpl.
    rewrite !FormatProperties.append_assoc. reflexivity. }
  split; [exact Hreport|]. split; [|split].
  - subst sections. by rewrite length_imap.
  - intros Hempty. rewrite Hreport. subst sections. rewrite Hempty. reflexivity.
  - intros acc. subst sections.
    assert (Hsame : forall days0 i acc0,
      Index.dailySections h forecast i days0 acc0
      = dailySections h forecast i days0 acc0).
    { induction days0 as [|day days0 IH]; intros i acc0; simpl; [done|]. by rewrite IH. }
    rewrite Hsame. apply dailySections_concat.
Qed.

Lemma X19_forecast_report_sections_witness :
  formatForecast Samples.host Samples.no_days
    {| latitude := 0; longitude := 0; name := Some "Null Island"; country := None;
       admin1 := None |} 7 Samples.w0
  = (Return ("# 7-Day Weather Forecast for Null Island, undefined" +:+ nl +:+ nl +:+
             "*Updated: t+1000*"), Samples.w0).
Proof.
  destruct (X19_forecast_report_sections Samples.host Samples.no_days
              {| latitude := 0; longitude := 0; name := Some "Null Island";
                 country := None; admin1 := None |} 7 Samples.w0)
    as (_ & _ & Hempty & _).
  apply Hempty. reflexivity.
Defined.

Lemma formatForecast_text h forecast location days w :
  formatForecast h forecast location days w
  = (Return ("# " +:+ numToString h days +:+ "-Day Weather Forecast for " +:+
             tplStr (name location) +:+ ", " +:+ tplStr (country location) +:+ nl +:+ nl +:+
             concat_all (imap (fun i day => dailySection h forecast i day) (time forecast)) +:+
             "*Updated: " +:+ toLocaleString h (clock w) +:+ "*"), w).
Proof.
  unfold formatForecast. unfold mbind, M_bind, date_now, mret, M_ret.
  rewrite dailySections_concat. simpl.
  rewrite !FormatProperties.append_assoc. reflexivity.
Qed.

Lemma Index_dailySections_same h forecast (days : list string) (i : nat) (acc : string) :
  Index.dailySections h forecast i days acc = dailySections h forecast i days acc.
Proof.
  revert i acc. induction days as [|day days IH]; intros i acc; simpl; [done|].
  by rewrite IH.
Qed.

(** X25. What a forecast miss writes: the two servers agree on the
    text. With no valid entry under the key, a geocoding answer with at
    least one match and a forecast answer, [get_forecast] requests the
    forecast for the coordinates of the first match and the day count (7
    when omitted), and caches and returns the same report in the handler
    behind the wrapper and in the single-file server: heading, one
    section per day, the "Updated" line of the instant the forecast
    arrived. The two differ only in the date of the entry: the instant of
    the write in the handler, the instant the call began in the
    single-file server. *)
Theorem X25_what_a_forecast_miss_writes (h : Host) (up : Upstream) (city : string)
    (days : option Q) (w : World) (hit : GeoHit) (rest : list GeoHit) (daily : Daily) :
  let d := default 7%Q days in
  let key := WeatherTools.forecastKey h city d in
  let t1 := clock w + elapsed up (clock w) (GeoSearch city) in
  let wx := DailyAt (hit_latitude hit) (hit_longitude hit) d in
  let t2 := t1 + elapsed up t1 wx in
  let report :=
    "# " +:+ numToString h d +:+ "-Day Weather Forecast for " +:+
    tplStr (hit_name hit) +:+ ", " +:+ tplStr (hit_country hit) +:+ nl +:+ nl +:+
    concat_all (imap (fun i day => dailySection h daily i day) (time daily)) +:+
    "*Updated: " +:+ toLocaleString h t2 +:+ "*" in
  let after (stamp : Z) :=
    {| cache := setCacheEntry stamp (cache w) forecast key report;
       clock := t2;
       requests := requests w ++ [GeoSearch city; wx];
       stderr := stderr w |} in
  getCacheEntry (clock w) (cache w) forecast key = None ->
  geocoding up (clock w) city = JsonBody (Some (hit :: rest)) ->
  daily_forecast up t1 (hit_latitude hit) (hit_longitude hit) d = JsonBody daily ->
  WeatherTools.handleGetForecast h up
    {| WeatherTools.gf_city := city; WeatherTools.gf_days := days |} w
  = (Return (Text report), after t2) /\
  Index.get_forecast_try h up city days w
  = (Return (Index.textResponse report), after (clock w)).
Proof.
  intros d key t1 wx t2 report after Hmiss Hgeo Hwx.
  assert (Hcoords : getCoordinates up city w
    = (Return {| latitude := hit_latitude hit; longitude := hit_longitude hit;
                 name := hit_name hit; country := hit_country hit;
                 admin1 := hit_admin1 hit |},
       {| cache := cache w; clock := t1; requests := requests w ++ [GeoSearch city];
          stderr := stderr w |})).
  { unfold getCoordinates, fetchJson. rewrite bind_run, Hgeo. reflexivity. }
  assert (Hforecast : forall w1, cache w1 = cache w -> clock w1 = t1 ->
    requests w1 = requests w ++ [GeoSearch city] -> stderr w1 = stderr w ->
    getForecast up (hit_latitude hit) (hit_longitude hit) (Some d) w1
    = (Return daily,
       {| cache := cache w; clock := t2; requests := requests w ++ [GeoSearch city; wx];
          stderr := stderr w |})).
  { intros w1 Hc Hk Hr Hs. unfold getForecast, fetchJson. simpl.
    rewrite Hk, Hwx. unfold mbind, M_bind, send, mret, M_ret. simpl.
    rewrite Hc, Hk, Hr, Hs, <- app_assoc. reflexivity. }
  split.
  - unfold WeatherTools.handleGetForecast. rewrite bind_run.
    unfold getCacheEntryM. simpl. fold d. fold key. rewrite Hmiss.
    rewrite bind_run, Hcoords. simpl. rewrite bind_run, Hforecast by done.
    rewrite bind_run, formatForecast_text. reflexivity.
  - unfold Index.get_forecast_try, Index.getCoordinates, Index.getForecast,
      date_now, Index.read_cache.
    do 2 (rewrite bind_run; cbv beta iota).
    change (cache_forecast (cache w)) with (slot (cache w) forecast).
    rewrite inline_test_is_getCacheEntry. fold d.
    change (toLowerCase h city +:+ "_" +:+ numToString h d) with key.
    rewrite Hmiss.
    rewrite bind_run, Hcoords. simpl. rewrite bind_run, Hforecast by done.
    unfold mbind, M_bind, Index.write_cache, mret, M_ret. simpl.
    rewrite Index_dailySections_same, dailySections_concat.
    subst report after. simpl. rewrite !FormatProperties.append_assoc. reflexivity.
Qed.

Lemma X25_what_a_forecast_miss_writes_witness :
  (WeatherTools.handleGetForecast Samples.host Samples.upstream
     {| WeatherTools.gf_city := "London"; WeatherTools.gf_days := Some 3%Q |}
     Samples.w0).1
  = Return (Text (CacheUtils.text
      (default {| timestamp := 0; CacheUtils.text := "" |}
         (cache_forecast
            (cache (Index.get_forecast_try Samples.host Samples.upstream "London"
                      (Some 3%Q) Samples.w0).2) !! "london_3")))).
Proof.
  destruct (X25_what_a_forecast_miss_writes Samples.host Samples.upstream "London"
              (Some 3%Q) Samples.w0 Samples.london [] (Samples.two_days 14))
    as [Hhandler Hindex]; [reflexivity | reflexivity | reflexivity |].
  rewrite Hhandler, Hindex. vm_compute. reflexivity.
Defined.

End ReportExtras.

(** ** Gust thresholds *)

Module GustProperties.
Import Runtime WeatherUtils Effects Text.

(** What the comparison [gusts > speed * factor] decides, in exact
    arithmetic: the product is rounded to the nearest double, so for
    gusts that are a finite double the test succeeds exactly when the
    gusts exceed the exact product and are not what that product rounds
    to. *)
Lemma gust_test_exact (gusts speed factor : Q) :
  Double.finite gusts ->
  Double.gt (Double.Num gusts) (Double.mul (Double.Num speed) (Double.Num factor)) = true
  <-> (speed * factor < gusts)%Q /\
      ~ (exists v, Double.fl (speed * factor) = Double.Num v /\ (v == gusts)%Q).
Proof.
  intros Hg. change (Double.mul (Double.Num speed) (Double.Num factor))
    with (Double.fl (speed * factor)).
  pose proof (DoubleFacts.finite_below_overflow gusts Hg) as [Hlow Hhigh].
  pose proof (Qred_correct (Double.nearest (speed * factor))) as Hred.
  unfold Double.fl. cbv zeta.
  destruct (Qle_bool (Double.pow2 1024) (Qred (Double.nearest (speed * factor)))) eqn:Hover.
  { apply Qle_bool_iff in Hover. split; [done|]. intros [Hlt _]. exfalso.
    pose proof (DoubleFacts.nearest_le (speed * factor) gusts Hg ltac:(lra)). lra. }
  destruct (Qle_bool (Qred (Double.nearest (speed * factor))) (- Double.pow2 1024))
    eqn:Hunder.
  { apply Qle_bool_iff in Hunder. split; [|done]. intros _. split.
    - apply Qnot_le_lt. intros Hle.
      pose proof (DoubleFacts.nearest_ge (speed * factor) gusts Hg Hle). lra.
    - by intros (v & Hv & _). }
  simpl. rewrite JsFacts.gt_spec. split.
  - intros Hlt. split.
    + apply Qnot_le_lt. intros Hle.
      pose proof (DoubleFacts.nearest_ge (speed * factor) gusts Hg Hle). lra.
    + intros (v & [= <-] & Hv). lra.
  - intros [Hlt Hnot].
    pose proof (DoubleFacts.nearest_le (speed * factor) gusts Hg ltac:(lra)) as Hle.
    destruct (Qlt_le_dec (Qred (Double.nearest (speed * factor))) gusts) as [|Hge]; [done|].
    exfalso. apply Hnot. eexists. split; [reflexivity|]. lra.
Qed.



End GustProperties.

(** ** The day count of a forecast *)

Module DayCountProperties.
Import CacheUtils Runtime WeatherUtils McpWrapper Effects Statements HandlerFacts Text.
Import WeatherTools (GetForecastParams, gf_city, gf_days, handleGetForecast, forecastKey).

(** The key of a whole day count. *)
Lemma forecastKey_whole h city (d : Q) (n : Z) :
  (d == inject_Z n)%Q -> Z.abs n < 2 ^ 53 ->
  forecastKey h city d = toLowerCase h city +:+ "_" +:+ pretty n /\
  numToString h d = pretty n.
Proof.
  intros Hd Hn. unfold forecastKey, numToString.
  rewrite (JsFacts.as_integer_compat d (inject_Z n) Hd), JsFacts.as_integer_inject_Z.
  by rewrite decide_True.
Qed.

(** Geocoding with a match, and a forecast that arrives. *)
Lemma getCoordinates_found up city w hit rest :
  geocoding up (clock w) city = JsonBody (Some (hit :: rest)) ->
  getCoordinates up city w
  = (Return {| latitude := hit_latitude hit; longitude := hit_longitude hit;
               name := hit_name hit; country := hit_country hit;
               admin1 := hit_admin1 hit |},
     {| cache := cache w; clock := clock w + elapsed up (clock w) (GeoSearch city);
        requests := requests w ++ [GeoSearch city]; stderr := stderr w |}).
Proof. intros Hgeo. unfold getCoordinates, fetchJson. by rewrite bind_run, Hgeo. Qed.

Lemma getForecast_answered up lat lon d w daily :
  daily_forecast up (clock w) lat lon d = JsonBody daily ->
  getForecast up lat lon (Some d) w
  = (Return daily,
     {| cache := cache w; clock := clock w + elapsed up (clock w) (DailyAt lat lon d);
        requests := requests w ++ [DailyAt lat lon d]; stderr := stderr w |}).
Proof. intros Hwx. unfold getForecast, fetchJson. simpl. by rewrite Hwx. Qed.

(** The run of the forecast handler, and of the [try] block of the
    single-file server, on a miss that both services answer. *)
Lemma handleGetForecast_miss h up city days w hit rest daily :
  let d := default 7%Q days in
  let key := forecastKey h city d in
  let t1 := clock w + elapsed up (clock w) (GeoSearch city) in
  let wx := DailyAt (hit_latitude hit) (hit_longitude hit) d in
  let t2 := t1 + elapsed up t1 wx in
  let report :=
    "# " +:+ numToString h d +:+ "-Day Weather Forecast for " +:+
    tplStr (hit_name hit) +:+ ", " +:+ tplStr (hit_country hit) +:+ nl +:+ nl +:+
    concat_all (imap (fun i day => dailySection h daily i day) (time daily)) +:+
    "*Updated: " +:+ toLocaleString h t2 +:+ "*" in
  getCacheEntry (clock w) (cache w) forecast key = None ->
  geocoding up (clock w) city = JsonBody (Some (hit :: rest)) ->
  daily_forecast up t1 (hit_latitude hit) (hit_longitude hit) d = JsonBody daily ->
  handleGetForecast h up {| gf_city := city; gf_days := days |} w
  = (Return (Text report),
     {| cache := setCacheEntry t2 (cache w) forecast key report; clock := t2;
        requests := requests w ++ [GeoSearch city; wx]; stderr := stderr w |}).
Proof.
  intros d key t1 wx t2 report Hmiss Hgeo Hwx.
  unfold handleGetForecast. rewrite bind_run.
  unfold getCacheEntryM. simpl. fold d. fold key. rewrite Hmiss.
  rewrite bind_run, (getCoordinates_found up city w hit rest Hgeo). simpl.
  rewrite bind_run, (getForecast_answered _ _ _ _ _ daily) by done. simpl.
  rewrite bind_run, ReportExtras.formatForecast_text. simpl.
  by rewrite <- app_assoc.
Qed.

Lemma get_forecast_try_miss h up city days w hit rest daily :
  let d := default 7%Q days in
  let key := forecastKey h city d in
  let t1 := clock w + elapsed up (clock w) (GeoSearch city) in
  let wx := DailyAt (hit_latitude hit) (hit_longitude hit) d in
  let t2 := t1 + elapsed up t1 wx in
  let report :=
    "# " +:+ numToString h d +:+ "-Day Weather Forecast for " +:+
    tplStr (hit_name hit) +:+ ", " +:+ tplStr (hit_country hit) +:+ nl +:+ nl +:+
    concat_all (imap (fun i day => dailySection h daily i day) (time daily)) +:+
    "*Updated: " +:+ toLocaleString h t2 +:+ "*" in
  getCacheEntry (clock w) (cache w) forecast key = None ->
  geocoding up (clock w) city = JsonBody (Some (hit :: rest)) ->
  daily_forecast up t1 (hit_latitude hit) (hit_longitude hit) d = JsonBody daily ->
  Index.get_forecast_try h up city days w
  = (Return (Index.textResponse report),
     {| cache := setCacheEntry (clock w) (cache w) forecast key report; clock := t2;
        requests := requests w ++ [GeoSearch city; wx]; stderr := stderr w |}).
Proof.
  intros d key t1 wx t2 report Hmiss Hgeo Hwx.
  unfold Index.get_forecast_try, Index.getCoordinates, Index.getForecast,
    date_now, Index.read_cache.
  do 2 (rewrite bind_run; cbv beta iota).
  change (cache_forecast (cache w)) with (slot (cache w) forecast).
  rewrite EffectFacts.inline_test_is_getCacheEntry. fold d.
  change (toLowerCase h city +:+ "_" +:+ numToString h d) with key.
  rewrite Hmiss.
  rewrite bind_run, (getCoordinates_found up city w hit rest Hgeo). simpl.
  rewrite bind_run, (getForecast_answered _ _ _ _ _ daily) by done.
  unfold mbind, M_bind, Index.write_cache, mret, M_ret. simpl.
  rewrite ReportExtras.Index_dailySections_same, ReportExtras.dailySections_concat.
  subst report. simpl. rewrite !FormatProperties.append_assoc, <- app_assoc.
  reflexivity.
Qed.

(** A wrapped handler that returns a text. *)
Lemma registerTool_text {P} (handler : P -> M HandlerResult) p w txt w' :
  handler p w = (Return (Text txt), w') ->
  registerTool handler p w = (Return (Index.textResponse txt), w').
Proof. intros Hrun. unfold registerTool, try_catch. by rewrite bind_run, Hrun. Qed.

(** C9. Day-count boundary of [get_forecast]. The schema accepts a day
    count d exactly when 1 <= d <= 14, and an omitted one: with 1, 14 or
    no day count the call runs to a result, while 0 and 15 are rejected
    before the callback runs: nothing is sent and the world is
    unchanged. An accepted whole day count n, 7 when the argument is
    omitted, is looked up under the key made of the lower-cased city, an
    underscore and n: a valid entry under that key is the answer and
    nothing is sent; without one, and with a geocoding match and a
    forecast answer, the forecast is requested for n days, and the report,
    headed "# n-Day Weather Forecast", is returned and written under that
    key. Different day counts have different keys, and an entry written
    for one is not read for another. This holds for the tool registered
    through the wrapper and for the tool of the single-file server. *)
Theorem C9_forecast_day_count (h : Host) (up : Upstream) (city : string) (w : World) :
  let args (days : option Q) := {| gf_city := city; gf_days := days |} in
  let key (n : Z) := toLowerCase h city +:+ "_" +:+ pretty n in
  (forall d : Q,
     WeatherTools.get_forecast_schema (args (Some d)) = true <-> (1 <= d <= 14)%Q) /\
  WeatherTools.get_forecast_schema (args None) = true /\
  (forall days : option Q,
     days = None \/ (exists d, days = Some d /\ (d == 1 \/ d == 14)%Q) ->
     (exists r w', WeatherTools.get_forecast h up (args days) w = (Sdk.Result r, w')) /\
     (exists r w', Index.get_forecast h up (args days) w = (Sdk.Result r, w'))) /\
  (forall d : Q,
     (d == 0 \/ d == 15)%Q ->
     WeatherTools.get_forecast h up (args (Some d)) w = (Sdk.InvalidParams, w) /\
     Index.get_forecast h up (args (Some d)) w = (Sdk.InvalidParams, w)) /\
  (handleGetForecast h up (args None) = handleGetForecast h up (args (Some 7%Q)) /\
   Index.get_forecast_try h up city None = Index.get_forecast_try h up city (Some 7%Q)) /\
  (forall (days : option Q) (n : Z),
     (default 7%Q days == inject_Z n)%Q -> 1 <= n <= 14 ->
     (forall e,
        getCacheEntry (clock w) (cache w) forecast (key n) = Some e ->
        WeatherTools.get_forecast h up (args days) w
        = (Sdk.Result (Index.textResponse (CacheUtils.text e)), w) /\
        Index.get_forecast h up (args days) w
        = (Sdk.Result (Index.textResponse (CacheUtils.text e)), w)) /\
     (forall hit rest daily,
        let t1 := clock w + elapsed up (clock w) (GeoSearch city) in
        let wx := DailyAt (hit_latitude hit) (hit_longitude hit) (default 7%Q days) in
        let t2 := t1 + elapsed up t1 wx in
        let report :=
          "# " +:+ pretty n +:+ "-Day Weather Forecast for " +:+
          tplStr (hit_name hit) +:+ ", " +:+ tplStr (hit_country hit) +:+ nl +:+ nl +:+
          concat_all (imap (fun i day => dailySection h daily i day) (time daily)) +:+
          "*Updated: " +:+ toLocaleString h t2 +:+ "*" in
        let after (stamp : Z) :=
          {| cache := setCacheEntry stamp (cache w) forecast (key n) report;
             clock := t2;
             requests := requests w ++ [GeoSearch city; wx];
             stderr := stderr w |} in
        getCacheEntry (clock w) (cache w) forecast (key n) = None ->
        geocoding up (clock w) city = JsonBody (Some (hit :: rest)) ->
        daily_forecast up t1 (hit_latitude hit) (hit_longitude hit) (default 7%Q days)
          = JsonBody daily ->
        WeatherTools.get_forecast h up (args days) w
        = (Sdk.Result (Index.textResponse report), after t2) /\
        Index.get_forecast h up (args days) w
        = (Sdk.Result (Index.textResponse report), after (clock w)))) /\
  (forall n m : Z, n <> m -> key n <> key m) /\
  (forall (n m : Z) (stamp now : Z) (txt : string),
     n <> m ->
     getCacheEntry now (setCacheEntry stamp (cache w) forecast (key m) txt) forecast (key n)
     = getCacheEntry now (cache w) forecast (key n)).
Proof.
  intros args key.
  assert (Hschema : forall d : Q,
    WeatherTools.get_forecast_schema (args (Some d)) = true <-> (1 <= d <= 14)%Q).
  { intros d. apply days_schema_spec. }
  assert (Hkeys : forall n m : Z, n <> m -> key n <> key m).
  { intros n m Hne Heq. apply Hne. unfold key in Heq.
    apply (inj (String.append (toLowerCase h city))) in Heq.
    apply (inj (String.append "_")) in Heq.
    by apply (inj pretty) in Heq. }
  split; [exact Hschema|]. split; [reflexivity|].
  split; [|split; [|split; [|split; [|split]]]].
  - intros days Hdays.
    assert (Hok : WeatherTools.get_forecast_schema (args days) = true).
    { destruct Hdays as [-> | (d & -> & Hd)]; [reflexivity|].
      apply Hschema. destruct Hd as [-> | ->]; split; discriminate. }
    unfold WeatherTools.get_forecast, Index.get_forecast, Sdk.callTool. rewrite Hok.
    split.
    + destruct (ForecastProperties.registerTool_returns (handleGetForecast h up)
                  (args days) w) as (r & w' & ->). eauto.
    + destruct (ForecastProperties.get_forecast_callback_returns h up (args days) w)
        as (r & w' & ->). eauto.
  - intros d Hd.
    assert (Hno : WeatherTools.get_forecast_schema (args (Some d)) = false).
    { apply not_true_iff_false. rewrite Hschema.
      destruct Hd as [-> | ->]; intros [Hlo Hhi]; [by apply Hlo | by apply Hhi]. }
    unfold WeatherTools.get_forecast, Index.get_forecast, Sdk.callTool.
    by rewrite Hno.
  - split; reflexivity.
  - intros days n Hdays Hn.
    destruct (forecastKey_whole h city (default 7%Q days) n Hdays ltac:(lia))
      as [Hkey Hprint].
    fold (key n) in Hkey.
    assert (Hok : WeatherTools.get_forecast_schema (args days) = true).
    { destruct days as [d|]; [|reflexivity]. apply Hschema. simpl in Hdays.
      rewrite Hdays. change 1%Q with (inject_Z 1). change 14%Q with (inject_Z 14).
      rewrite <- !Zle_Qle. lia. }
    unfold WeatherTools.get_forecast, Index.get_forecast, Sdk.callTool. rewrite Hok.
    unfold Index.get_forecast_callback, try_catch.
    change (gf_city (args days)) with city. change (gf_days (args days)) with days.
    split.
    + intros e Hhit. rewrite <- Hkey in Hhit.
      rewrite (registerTool_text (handleGetForecast h up) (args days) _ _ _
                 (SharingExtras.handleGetForecast_hit h up (args days) w e Hhit)).
      by rewrite (SharingExtras.get_forecast_try_hit h up city days w e Hhit).
    + intros hit rest daily. cbv zeta. intros Hmiss Hgeo Hwx.
      rewrite <- Hkey in Hmiss.
      pose proof (handleGetForecast_miss h up city days w hit rest daily
                    Hmiss Hgeo Hwx) as Hhandler.
      pose proof (get_forecast_try_miss h up city days w hit rest daily
                    Hmiss Hgeo Hwx) as Hindex.
      cbv zeta in Hhandler, Hindex.
      rewrite Hprint, Hkey in Hhandler, Hindex.
      rewrite (registerTool_text (handleGetForecast h up) (args days) _ _ _ Hhandler).
      by rewrite Hindex.
  - exact Hkeys.
  - intros n m stamp now txt Hne. unfold getCacheEntry.
    rewrite CacheFacts.slot_set_other_key; [done|]. intros Heq. by apply (Hkeys m n).
Qed.

Lemma C9_forecast_day_count_witness :
  (let after := (WeatherTools.get_forecast Samples.host Samples.upstream
                   {| gf_city := "London"; gf_days := None |} Samples.w0).2 in
   requests after = [GeoSearch "London"; DailyAt (515 # 10) (-(12 # 100)) 7] /\
   dom (cache_forecast (cache after)) = {["london_7"]}) /\
  (let after := (Index.get_forecast Samples.host Samples.upstream
                   {| gf_city := "London"; gf_days := Some 14%Q |} Samples.w0).2 in
   requests after = [GeoSearch "London"; DailyAt (515 # 10) (-(12 # 100)) 14] /\
   dom (cache_forecast (cache after)) = {["london_14"]}) /\
  WeatherTools.get_forecast Samples.host Samples.upstream
    {| gf_city := "London"; gf_days := Some 15%Q |} Samples.w0
  = (Sdk.InvalidParams, Samples.w0).
Proof.
  destruct (C9_forecast_day_count Samples.host Samples.upstream "London" Samples.w0)
    as (_ & _ & _ & Hout & _ & Hin & _).
  destruct (Hin None 7 ltac:(reflexivity) ltac:(lia)) as [_ Hseven].
  destruct (Hin (Some 14%Q) 14 ltac:(reflexivity) ltac:(lia)) as [_ Hfourteen].
  destruct (Hseven Samples.london [] (Samples.two_days 14)) as [Hhandler _];
    [reflexivity..|].
  destruct (Hfourteen Samples.london [] (Samples.two_days 14)) as [_ Hindex];
    [reflexivity..|].
  split; [|split].
  - rewrite Hhandler. simpl. split; [reflexivity|].
    by rewrite dom_insert_L, dom_empty_L, union_empty_r_L.
  - rewrite Hindex. simpl. split; [reflexivity|].
    by rewrite dom_insert_L, dom_empty_L, union_empty_r_L.
  - apply (Hout 15%Q). by right.
Defined.

End DayCountProperties.

(** ** The formatter's label, the helpers and the example server *)

Module HelperExtras.
Import CacheUtils Runtime WeatherUtils McpWrapper Resources Statements HandlerFacts Text.
Import WeatherTools (ByCoordinatesParams, bc_latitude, bc_longitude).

(** X20. The heading of [formatCurrentWeather]. Given no location (null
    or undefined), the formatter throws the type error of reading
    [latitude] and produces no text; given any location object, it heads
    the report with the name and the country, each printed as "undefined"
    when the object has none. It never prints coordinates, and it changes
    nothing in the world. *)
Theorem X20_heading_of_current_report (h : Host) (weather : CurrentWeather) (w : World) :
  formatCurrentWeather h weather None w
  = (Throw (MkError (typeErrorMessage h "latitude")), w) /\
  (forall location, exists rest,
     formatCurrentWeather h weather (Some location) w
     = (Return (nl +:+ "# Current Weather for " +:+ tplStr (name location) +:+ ", " +:+
                tplStr (country location) +:+ nl +:+ rest), w)) /\
  (forall lat lon, exists rest,
     formatCurrentWeather h weather
       (Some {| latitude := lat; longitude := lon; name := None; country := None;
                admin1 := None |}) w
     = (Return (nl +:+ "# Current Weather for undefined, undefined" +:+ nl +:+ rest), w)).
Proof.
  split; [reflexivity|]. split.
  - intros location. eexists. rewrite formatCurrentWeather_run.
    rewrite ?FormatProperties.append_assoc. reflexivity.
  - intros lat lon. eexists. rewrite formatCurrentWeather_run. reflexivity.
Qed.

(** X21. The coordinate label of the single-file server. For every
    latitude in [-90, 90] and longitude in [-180, 180] and every weather
    answer, the [get_weather_by_coordinates] tool of src/index.js heads
    its report "Coordinates (lat, lon)" where each coordinate is printed
    by [toFixed(4)]: a numeral with a point followed by exactly four
    digits. *)
Theorem X21_index_coordinate_label (h : Host) (up : Upstream)
    (p : ByCoordinatesParams) (w : World) (weather : CurrentWeather) :
  (-90 <= bc_latitude p <= 90)%Q ->
  (-180 <= bc_longitude p <= 180)%Q ->
  current_weather up (clock w) (bc_latitude p) (bc_longitude p) = JsonBody weather ->
  exists r w' rest whole_lat fraction_lat whole_lon fraction_lon,
    Index.get_weather_by_coordinates h up p w = (Sdk.Result r, w') /\
    says r (nl +:+ "# Current Weather for Coordinates (" +:+
            toFixed (bc_latitude p) 4 +:+ ", " +:+ toFixed (bc_longitude p) 4 +:+ ")" +:+
            nl +:+ rest) /\
    toFixed (bc_latitude p) 4 = whole_lat +:+ "." +:+ fraction_lat /\
    String.length fraction_lat = 4%nat /\
    toFixed (bc_longitude p) 4 = whole_lon +:+ "." +:+ fraction_lon /\
    String.length fraction_lon = 4%nat.
Proof.
  intros Hlat Hlon Hweather.
  destruct (LabelProperties.Index_label_is_coordinates h up p w weather Hlat Hlon Hweather)
    as (r & w' & rest & Hrun & Hsays).
  destruct (LabelProperties.toFixed_decimals (bc_latitude p) 4)
    as (whole_lat & fraction_lat & Hlat4 & Hlen_lat); [done|].
  destruct (LabelProperties.toFixed_decimals (bc_longitude p) 4)
    as (whole_lon & fraction_lon & Hlon4 & Hlen_lon); [done|].
  exists r, w', rest, whole_lat, fraction_lat, whole_lon, fraction_lon. done.
Qed.

Lemma X21_index_coordinate_label_witness :
  exists r w' rest,
    Index.get_weather_by_coordinates Samples.host Samples.upstream
      Samples.london_coordinates Samples.w0 = (Sdk.Result r, w') /\
    says r (nl +:+ "# Current Weather for Coordinates (51.5000, -0.1200)" +:+ nl +:+ rest).
Proof.
  destruct (X21_index_coordinate_label Samples.host Samples.upstream
              Samples.london_coordinates Samples.w0 (Samples.weather 16))
    as (r & w' & rest & _ & _ & _ & _ & Hrun & Hsays & _);
    [simpl; split; discriminate | simpl; split; discriminate | reflexivity |].
  by exists r, w', rest.
Defined.

(** X22. [createTool] and [registerTool]. Both catch every error of the
    handler and answer it with the text "Error: " and the message; but
    [createTool] hands the value of the handler back as it is, so that a
    handler returning a plain string yields a plain string and no response
    object, while [registerTool] wraps it: the response of [registerTool]
    is [_formatToolResponse] of what [createTool] gives. [createResource]
    and [registerResource] stand in the same relation. *)
Theorem X22_createTool_does_not_wrap {P} (handler : P -> M HandlerResult)
    (rhandler : Url -> P -> M ResourceResult) (u : Url) (p : P) (w : World) :
  (exists res w',
     ToolHelper.createTool handler p w = (Return res, w') /\
     registerTool handler p w = (Return (_formatToolResponse res), w')) /\
  (forall e w', handler p w = (Throw e, w') ->
     ToolHelper.createTool handler p w = (Return (Formatted (_formatToolError e)), w')) /\
  (forall s w', handler p w = (Return (Text s), w') ->
     ToolHelper.createTool handler p w = (Return (Text s), w') /\
     registerTool handler p w = (Return (ToolHelper.createTextResponse s), w')) /\
  (exists res w',
     createResource rhandler u p w = (Return res, w') /\
     registerResource rhandler u p w = (Return (_formatResourceResponse u res), w')) /\
  (forall s w', rhandler u p w = (Return (ResText s), w') ->
     createResource rhandler u p w = (Return (ResText s), w') /\
     registerResource rhandler u p w = (Return (createResourceResponse u s), w')).
Proof.
  unfold ToolHelper.createTool, registerTool, createResource, registerResource, try_catch.
  rewrite !bind_run.
  split; [|split; [|split; [|split]]].
  - destruct (handler p w) as [[res|e] w']; eexists _, _; split; reflexivity.
  - intros e w' ->. reflexivity.
  - intros s w' ->. split; reflexivity.
  - destruct (rhandler u p w) as [[res|e] w']; eexists _, _; split; reflexivity.
  - intros s w' ->. split; reflexivity.
Qed.

Lemma X22_createTool_does_not_wrap_witness :
  ToolHelper.createTool (WeatherTools.handleGetWeatherByCoordinates Samples.host
                           Samples.unavailable) Samples.london_coordinates Samples.w0
  = (Return (Formatted (_formatToolError (MkError "fetch failed"))),
     (WeatherTools.handleGetWeatherByCoordinates Samples.host Samples.unavailable
        Samples.london_coordinates Samples.w0).2).
Proof.
  destruct (X22_createTool_does_not_wrap
              (WeatherTools.handleGetWeatherByCoordinates Samples.host Samples.unavailable)
              (fun _ _ => mret (ResText "unused"))
              {| href := "currentweather://oslo" |} Samples.london_coordinates Samples.w0)
    as (_ & Hthrown & _).
  apply Hthrown. reflexivity.
Defined.

(** X23. The greeting of [hello]. The tool answers "Hello, world!"
    exactly when the name is omitted or empty (an empty string is falsy),
    and "Hello, " with the name and "!" for every other name: it never
    greets an empty name. *)
Theorem X23_hello_greeting (name : option string) :
  (says (ExampleServer.hello name) "Hello, world!" <->
   name = None \/ name = Some "" \/ name = Some "world") /\
  (forall given, name = Some given -> given <> "" ->
     says (ExampleServer.hello name) ("Hello, " +:+ given +:+ "!")) /\
  ~ says (ExampleServer.hello name) "Hello, !".
Proof.
  unfold says, ExampleServer.hello.
  destruct name as [[|a rest]|]; simpl.
  - split; [split; [auto | done] |]. split; [by intros given [= <-] | done].
  - split; [|split].
    + split.
      * intros [= -> Hrest]. right. right. do 2 f_equal.
        revert Hrest. clear. revert rest.
        assert (Hinj : forall s t : string, s +:+ "!" = t +:+ "!" -> s = t).
        { induction s as [|x s IH]; intros [|y t]; simpl; intros Heq; try done.
          - injection Heq as _ Heq. by destruct t.
          - injection Heq as _ Heq. by destruct s.
          - injection Heq as -> Heq. f_equal. by apply IH. }
        intros rest Hrest. apply (Hinj rest "orld"). exact Hrest.
      * intros [|[|[= -> ->]]]; done.
    + by intros given [= <-] _.
    + intros [= _ Hrest]. by destruct rest.
  - split; [split; [auto | done] |]. split; [done | done].
Qed.

Lemma X23_hello_greeting_witness :
  says (ExampleServer.hello (Some "Ada")) "Hello, Ada!".
Proof.
  destruct (X23_hello_greeting (Some "Ada")) as (_ & Hgiven & _).
  apply (Hgiven "Ada"); [reflexivity | discriminate].
Defined.

(** Whole numbers whose sum is below 2^53 in magnitude are added
    without rounding. *)
Lemma numToString_sum h (a b : Z) :
  Z.abs (a + b) < 2 ^ 53 ->
  numberText h (Double.add (Double.Num (inject_Z a)) (Double.Num (inject_Z b)))
  = pretty (a + b).
Proof.
  intros Hbound.
  change (Double.add (Double.Num (inject_Z a)) (Double.Num (inject_Z b)))
    with (Double.fl (inject_Z a + inject_Z b)).
  rewrite (DoubleFacts.fl_compat _ (inject_Z (a + b))) by (by rewrite inject_Z_plus).
  destruct (DoubleFacts.fl_exact (inject_Z (a + b))) as (v & -> & Hv).
  { exists (a + b), 0. repeat split; [done..|]. change (Double.pow2 0) with 1%Q. ring. }
  unfold numberText, numToString.
  rewrite (JsFacts.as_integer_compat _ _ Hv), JsFacts.as_integer_inject_Z.
  by rewrite decide_True.
Qed.

(** X24. The text of [add]. For whole numbers a and b that, like their
    sum, are below 2^53 in magnitude (the integers JavaScript adds
    exactly), the tool answers "The sum of a and b is s" with the three
    numbers in decimal and s = a + b. *)
Theorem X24_add_reports_the_sum (h : Host) (a b : Z) :
  Z.abs a < 2 ^ 53 -> Z.abs b < 2 ^ 53 -> Z.abs (a + b) < 2 ^ 53 ->
  says (ExampleServer.add h (inject_Z a) (inject_Z b))
    ("The sum of " +:+ pretty a +:+ " and " +:+ pretty b +:+ " is " +:+ pretty (a + b)).
Proof.
  intros Ha Hb Hsum.
  unfold says, ExampleServer.add. cbv zeta. cbn [content].
  rewrite numToString_sum by done.
  by rewrite !ForecastProperties.numToString_integer by done.
Qed.

Lemma X24_add_reports_the_sum_witness :
  says (ExampleServer.add Samples.host 40 (-2)) "The sum of 40 and -2 is 38".
Proof.
  apply (X24_add_reports_the_sum Samples.host 40 (-2)); reflexivity.
Defined.

End HelperExtras.

(** ** Unchecked input *)

Module InputExtras.
Import CacheUtils Runtime WeatherUtils McpWrapper Effects EffectFacts Statements.
Import WeatherTools (GetWeatherParams, gw_city).




End InputExtras.
